(** * CRUD file-system driver: the wire codec, the client session and the
      virtual file layer

    A shallow embedding of [file_io.c] (the file layer and the request
    codec) and of [client.c] (the network client), with the properties
    stated for them in the design notes. *)

From Stdlib Require Import ZArith Lia List Bool String Ascii.
From stdpp Require Import base option list gmap strings.

Local Open Scope Z_scope.

(** ** Fixed-width integers

    C integers are modelled as [Z]; every conversion to a narrower or
    unsigned type is written out. *)

Definition uint8 (z : Z) : Z := z mod 2 ^ 8.
Definition uint16 (z : Z) : Z := z mod 2 ^ 16.
Definition uint32 (z : Z) : Z := z mod 2 ^ 32.
Definition uint64 (z : Z) : Z := z mod 2 ^ 64.
Definition int16 (z : Z) : Z := (z + 2 ^ 15) mod 2 ^ 16 - 2 ^ 15.
Definition int32 (z : Z) : Z := (z + 2 ^ 31) mod 2 ^ 32 - 2 ^ 31.

(** ** Wire codec ([file_io.c], lines 64-94) *)

(** The five values [extract_crud_response] stores through its pointer
    arguments. *)
Record CrudFields : Type := mkFields {
  f_object_id : Z;
  f_request : Z;
  f_length : Z;
  f_flag : Z;
  f_result : Z
}.

(** The parameters are [uint32_t object_id], [uint8_t req], [uint32_t len],
    [uint8_t flag], [uint8_t rslt]; each is widened to [uint64_t] before it
    is shifted. *)
Definition create_crud_request (object_id req len flag rslt : Z) : Z :=
  let crud_request := uint64 (Z.shiftl (uint32 object_id) 32) in
  let crud_request := Z.lor crud_request (uint64 (Z.shiftl (uint8 req) 28)) in
  let crud_request := Z.lor crud_request (uint64 (Z.shiftl (uint32 len) 4)) in
  let crud_request := Z.lor crud_request (uint64 (Z.shiftl (uint8 flag) 1)) in
  let crud_request := Z.lor crud_request (uint8 rslt) in
  crud_request.

(** [response] is a [uint64_t]: the left shifts drop the bits above bit 63. *)
Definition extract_crud_response (response : Z) : CrudFields :=
  {| f_object_id := uint32 (Z.shiftr response 32);
     f_request := uint8 (Z.shiftr (uint64 (Z.shiftl response 32)) 60);
     f_length := uint32 (Z.shiftr (uint64 (Z.shiftl response 36)) 40);
     f_flag := uint8 (Z.shiftr (uint64 (Z.shiftl response 60)) 61);
     f_result := uint8 (Z.shiftr (uint64 (Z.shiftl response 63)) 63) |}.

(** ** Memory buffers

    A [char *] is an array indexed by offset.  The bytes a wire exchange
    carries are finite lists cut from such arrays. *)

Definition buffer : Type := Z -> Z.

Definition bytes_of (b : buffer) (off n : Z) : list Z := b <$> seqZ off n.

(** [memcpy(&dst[doff], &src[soff], n)] *)
Definition memcpy (dst : buffer) (doff : Z) (src : buffer) (soff n : Z) : buffer :=
  fun k => if (doff <=? k) && (k <? doff + n) then src (soff + (k - doff)) else dst k.

(** The bytes of [data] laid down at [&dst[off]]. *)
Definition store_bytes (dst : buffer) (off : Z) (data : list Z) : buffer :=
  fun k =>
    if (off <=? k) && (k <? off + Z.of_nat (length data))
    then nth (Z.to_nat (k - off)) data 0
    else dst k.

Definition buffer_of (data : list Z) : buffer := store_bytes (fun _ => 0) 0 data.

(** ** Constants of the protocol headers

    [crud_driver.h] and [crud_network.h] are not part of the sources at hand:
    the request codes, the two flags, the object-size limit and the
    "no object" identifier are parameters.  [malloc n] is the content of a
    fresh allocation of [n] bytes, which C leaves indeterminate. *)

Class CrudProtocol : Type := {
  CRUD_INIT : Z;
  CRUD_FORMAT : Z;
  CRUD_CREATE : Z;
  CRUD_READ : Z;
  CRUD_UPDATE : Z;
  CRUD_DELETE : Z;
  CRUD_CLOSE : Z;
  CRUD_NULL_FLAG : Z;
  CRUD_PRIORITY_OBJECT : Z;
  CRUD_MAX_OBJECT_SIZE : Z;
  CRUD_NO_OBJECT : Z;
  malloc : Z -> buffer
}.

(** What the layout of section 6 asks of these constants: request codes are
    distinct 4-bit values, flags are 3-bit values, an object length fits the
    24-bit length field and an object identifier is a [uint32_t]. *)
Record protocol_ok `{CrudProtocol} : Prop := {
  requests_range :
    Forall (fun c => 0 <= c < 2 ^ 4)
      [CRUD_INIT; CRUD_FORMAT; CRUD_CREATE; CRUD_READ; CRUD_UPDATE;
       CRUD_DELETE; CRUD_CLOSE];
  requests_distinct :
    NoDup [CRUD_INIT; CRUD_FORMAT; CRUD_CREATE; CRUD_READ; CRUD_UPDATE;
           CRUD_DELETE; CRUD_CLOSE];
  null_flag_range : 0 <= CRUD_NULL_FLAG < 2 ^ 3;
  priority_flag_range : 0 <= CRUD_PRIORITY_OBJECT < 2 ^ 3;
  max_object_size_range : 0 <= CRUD_MAX_OBJECT_SIZE < 2 ^ 24;
  no_object_range : 0 <= CRUD_NO_OBJECT < 2 ^ 32
}.

(** ** The network client ([client.c])

    The socket is the environment of [crud_client_operation]: [pending] lists
    what the next calls into it will return (the value returned, and for
    [read] the bytes delivered), in call order; [sent] collects the bytes
    that [write] accepted.  A call made when [pending] is empty never
    returns: the client has no timeout (lines 96 and 119 loop without
    bound), and then the operation has no result. *)

Module Client.
Section WithProtocol.
Context `{CrudProtocol}.

Record Net : Type := mkNet {
  CONNECTED : Z;
  socket_fd : Z;
  pending : list (Z * list Z);
  sent : list Z
}.

(** [return(-1)] from a function whose result is the [uint64_t]
    [CrudResponse]. *)
Definition ERROR_WORD : Z := uint64 (-1).

(** [htonll64] and [ntohll64]: the word as eight bytes, most significant
    first. *)
Definition htonll64 (op : Z) : list Z :=
  (fun i => (op / 2 ^ (8 * (7 - i))) mod 2 ^ 8) <$> seqZ 0 8.

Definition ntohll64 (data : list Z) : Z :=
  fold_left (fun acc b => acc * 2 ^ 8 + b) (take 8 data) 0.

Definition syscall (net : Net) : option (Z * list Z * Net) :=
  match pending net with
  | [] => None
  | (r, data) :: rest =>
      Some (r, data,
            {| CONNECTED := CONNECTED net; socket_fd := socket_fd net;
               pending := rest; sent := sent net |})
  end.

Definition accept_bytes (net : Net) (data : list Z) : Net :=
  {| CONNECTED := CONNECTED net; socket_fd := socket_fd net;
     pending := pending net; sent := sent net ++ data |}.

Definition set_connection (net : Net) (connected fd : Z) : Net :=
  {| CONNECTED := connected; socket_fd := fd;
     pending := pending net; sent := sent net |}.

(** Lines 96-99: [bytesWritten] is an [int], [length] a [uint32_t]; the
    comparison is made on [unsigned int], the sum on [ssize_t]. *)
Fixpoint send_payload (tempBuf : buffer) (length bytesWritten : Z) (net : Net)
    (calls : list (Z * list Z)) : option (Z * Net) :=
  if uint32 bytesWritten =? length then
    Some (bytesWritten,
          {| CONNECTED := CONNECTED net; socket_fd := socket_fd net;
             pending := calls; sent := sent net |})
  else
    match calls with
    | [] => None
    | (r, _) :: calls' =>
        send_payload tempBuf length (int32 (bytesWritten + r))
          (accept_bytes net (bytes_of tempBuf bytesWritten r)) calls'
    end.

(** Lines 119-122. *)
Fixpoint receive_payload (tempBuf : buffer) (length bytesRead : Z) (net : Net)
    (calls : list (Z * list Z)) : option (buffer * Z * Net) :=
  if uint32 bytesRead =? length then
    Some (tempBuf, bytesRead,
          {| CONNECTED := CONNECTED net; socket_fd := socket_fd net;
             pending := calls; sent := sent net |})
  else
    match calls with
    | [] => None
    | (r, data) :: calls' =>
        receive_payload
          (store_bytes tempBuf bytesRead (take (Z.to_nat r) data))
          length (int32 (bytesRead + r)) net calls'
    end.

Definition crud_client_operation (op : Z) (buf : option buffer) (net : Net)
    : option (Z * option buffer * Net) :=
  (* lines 55-76 *)
  '(connected, net) ←
    (if CONNECTED net =? 0 then
       '(r, _, net) ← syscall net;                        (* inet_aton *)
       if r =? 0 then Some (false, net) else
       '(r, _, net) ← syscall net;                        (* socket *)
       let net := set_connection net (CONNECTED net) (int32 r) in
       if socket_fd net =? -1 then Some (false, net) else
       '(r, _, net) ← syscall net;                        (* connect *)
       if int32 r =? -1 then Some (false, net) else
       Some (true, set_connection net 1 (socket_fd net))
     else Some (true, net));
  if negb connected then Some (ERROR_WORD, buf, net) else
  (* lines 78-80 *)
  let request := uint8 (Z.shiftr (uint64 (Z.shiftl op 32)) 60) in
  let length := uint32 (Z.shiftr (uint64 (Z.shiftl op 36)) 40) in
  let op := htonll64 op in
  (* lines 83-87 *)
  '(r, _, net) ← syscall net;
  let net := accept_bytes net (take (Z.to_nat r) op) in
  if negb (r =? 8) then Some (ERROR_WORD, buf, net) else
  (* lines 90-100 *)
  '(bytesWritten, net) ←
    (if (request =? CRUD_CREATE) || (request =? CRUD_UPDATE) then
       src ← buf;
       let tempBuf := memcpy (malloc length) 0 src 0 length in
       send_payload tempBuf length 0 net (pending net)
     else Some (0, net));
  (* lines 103-111 *)
  '(r, data, net) ← syscall net;
  if negb (r =? 8) then Some (ERROR_WORD, buf, net) else
  let op := ntohll64 data in
  let request := uint8 (Z.shiftr (uint64 (Z.shiftl op 32)) 60) in
  let length := uint32 (Z.shiftr (uint64 (Z.shiftl op 36)) 40) in
  (* lines 114-124 *)
  '(buf, net) ←
    (if request =? CRUD_READ then
       dst ← buf;
       '(tempBuf, bytesRead, net) ←
         receive_payload (malloc length) length 0 net (pending net);
       Some (Some (memcpy dst 0 tempBuf 0 length), net)
     else Some (buf, net));
  (* lines 127-131 *)
  let net :=
    if request =? CRUD_CLOSE then set_connection net 0 (-1) else net in
  Some (op, buf, net).

End WithProtocol.
End Client.

(** ** C strings

    A [string] holds the characters before the terminating NUL.  The C
    standard fixes only the sign of what [strcmp] and [strncmp] return. *)

Definition code (c : ascii) : Z := Z.of_N (N_of_ascii c).

Definition strlen (s : string) : nat := String.length s.

Fixpoint strcmp (s1 s2 : string) : Z :=
  match s1, s2 with
  | EmptyString, EmptyString => 0
  | EmptyString, String _ _ => -1
  | String _ _, EmptyString => 1
  | String c1 t1, String c2 t2 =>
      if Ascii.eqb c1 c2 then strcmp t1 t2
      else if code c1 <? code c2 then -1 else 1
  end.

Fixpoint strncmp (s1 s2 : string) (n : nat) {struct n} : Z :=
  match n with
  | O => 0
  | S n' =>
      match s1, s2 with
      | EmptyString, EmptyString => 0
      | EmptyString, String _ _ => -1
      | String _ _, EmptyString => 1
      | String c1 t1, String c2 t2 =>
          if Ascii.eqb c1 c2 then strncmp t1 t2 n'
          else if code c1 <? code c2 then -1 else 1
      end
  end.

(** ** The file table ([crud_file_io.h], not part of the sources at hand)

    [CrudFileAllocationType] has the five members the code uses:
    [char filename[CRUD_MAX_PATH_LENGTH]], [CrudOID object_id],
    [uint32_t position], [uint32_t length], [uint8_t open]. *)

Module File.
Record CrudFileAllocationType : Type := mk {
  filename : string;
  object_id : Z;
  position : Z;
  length : Z;
  open : Z
}.
End File.
Abbreviation CrudFileAllocationType := File.CrudFileAllocationType.

(** The table size and the byte image of the table (the [memcpy] between
    the table and a buffer in [crud_format], [crud_mount] and
    [crud_unmount]) depend on that header and on the ABI: parameters.

    The name of an entry is the array [char filename[CRUD_MAX_PATH_LENGTH]]
    (line 144 clears that many bytes).  A name of fewer than
    [CRUD_MAX_PATH_LENGTH] characters fits it with its terminating zero, and
    the entry then holds that string.  [crud_open] copies the path with
    [strcpy] without a test (line 333): a path that does not fit runs over
    the members that follow the name and over the entries that follow the
    entry.  What the table holds after that depends on the layout of the
    record: [strcpy_overrun table i path] stands for the table after lines
    330-336 on entry [i] with such a path.  The model keeps the effect of
    that copy within the table. *)
Class CrudFileTable : Type := {
  CRUD_MAX_TOTAL_FILES : Z;
  CRUD_MAX_PATH_LENGTH : Z;
  sizeof_CrudFileAllocationType : Z;
  table_image : list CrudFileAllocationType -> buffer;
  image_table : buffer -> list CrudFileAllocationType;
  strcpy_overrun :
    list CrudFileAllocationType -> Z -> string -> list CrudFileAllocationType
}.

(** The file layer reaches the object store only through
    [crud_client_operation (request, buf)]: the rest of the world (the
    connection and the store behind it) is a state of type [World] that the
    call transforms.  It returns the response word and the content of [buf]
    after the call. *)
Class CrudClient : Type := {
  World : Type;
  crud_client_operation : World -> Z -> option buffer -> Z * option buffer * World
}.

Section FileLayer.
Context `{CrudProtocol} `{CrudFileTable} `{CrudClient}.

(** The globals of [file_io.c], the world, and the record of the exchanges
    made so far (request word, response word), oldest first. *)
Record state : Type := mkState {
  crud_file_table : list CrudFileAllocationType;
  INITIALIZED : Z;
  world : World;
  wire : list (Z * Z)
}.

(** Objects with static storage start zeroed. *)
Definition zero_file : CrudFileAllocationType :=
  File.mk "" 0 0 0 0.

Definition initial_state (w : World) : state :=
  {| crud_file_table := replicate (Z.to_nat CRUD_MAX_TOTAL_FILES) zero_file;
     INITIALIZED := 0; world := w; wire := [] |}.

Definition M (A : Type) : Type := state -> A * state.
Definition ret {A : Type} (a : A) : M A := fun st => (a, st).
Definition bind {A B : Type} (m : M A) (k : A -> M B) : M B :=
  fun st => let '(a, st') := m st in k a st'.

Notation "'let*' x := m 'in' k" := (bind m (fun x => k))
  (at level 10, x pattern, m at level 100, k at level 200).

Definition file_at (table : list CrudFileAllocationType) (i : Z)
    : CrudFileAllocationType :=
  default zero_file (table !! Z.to_nat i).

Definition set_file (table : list CrudFileAllocationType) (i : Z)
    (f : CrudFileAllocationType) : list CrudFileAllocationType :=
  <[Z.to_nat i := f]> table.

Definition get_file (fd : Z) : M CrudFileAllocationType :=
  fun st => (file_at (crud_file_table st) fd, st).

Definition put_file (fd : Z) (f : CrudFileAllocationType) : M unit :=
  fun st =>
    (tt, {| crud_file_table := set_file (crud_file_table st) fd f;
            INITIALIZED := INITIALIZED st; world := world st;
            wire := wire st |}).

Definition get_table : M (list CrudFileAllocationType) :=
  fun st => (crud_file_table st, st).

Definition get_INITIALIZED : M Z := fun st => (INITIALIZED st, st).

Definition put_table (table : list CrudFileAllocationType) : M unit :=
  fun st =>
    (tt, {| crud_file_table := table; INITIALIZED := INITIALIZED st;
            world := world st; wire := wire st |}).

Definition set_INITIALIZED (v : Z) : M unit :=
  fun st =>
    (tt, {| crud_file_table := crud_file_table st; INITIALIZED := v;
            world := world st; wire := wire st |}).

Definition set_position (fd : Z) (v : Z) : M unit :=
  let* f := get_file fd in
  put_file fd
    (File.mk (File.filename f) (File.object_id f) v (File.length f)
       (File.open f)).

Definition set_open (fd : Z) (v : Z) : M unit :=
  let* f := get_file fd in
  put_file fd
    (File.mk (File.filename f) (File.object_id f) (File.position f)
       (File.length f) v).

(** [response = crud_client_operation(request, buf)] *)
Definition client (request : Z) (buf : option buffer) : M (Z * option buffer) :=
  fun st =>
    let '(response, buf', w) := crud_client_operation (world st) request buf in
    ((response, buf'),
     {| crud_file_table := crud_file_table st; INITIALIZED := INITIALIZED st;
        world := w; wire := wire st ++ [(request, response)] |}).

(** [extract_crud_response(response, &crud_file_table[fd].object_id, &req,
    &crud_file_table[fd].length, &flag, &result)]; gives [result]. *)
Definition extract_to_file (fd : Z) (response : Z) : M Z :=
  let r := extract_crud_response response in
  let* f := get_file fd in
  let* _ :=
    put_file fd
      (File.mk (File.filename f) (f_object_id r) (File.position f)
         (f_length r) (File.open f)) in
  ret (f_result r).

Definition deref (p : option buffer) : buffer := default (fun _ => 0) p.

(** Lines 116-130, 190-202 and 286-298, the same block in [crud_format],
    [crud_mount] and [crud_open]; [false] stands for its [return -1]. *)
Definition init_store : M bool :=
  let* initialized := get_INITIALIZED in
  if initialized =? 0 then
    let request := create_crud_request 0 CRUD_INIT 0 0 0 in
    let* (response, _) := client request None in
    let result := f_result (extract_crud_response response) in
    if negb (result =? 0) then ret false else
    let* _ := set_INITIALIZED 1 in
    ret true
  else ret true.

Definition empty_file : CrudFileAllocationType :=
  File.mk "" CRUD_NO_OBJECT 0 0 0.

Definition crud_format : M Z :=
  let priorityOID := 0 in
  let prioritySize :=
    int32 (sizeof_CrudFileAllocationType * CRUD_MAX_TOTAL_FILES) in
  let buf := malloc prioritySize in
  let* ok := init_store in
  if negb ok then ret (uint16 (-1)) else
  let request := create_crud_request 0 CRUD_FORMAT 0 CRUD_NULL_FLAG 0 in
  let* (response, _) := client request None in
  let result := f_result (extract_crud_response response) in
  if negb (result =? 0) then ret (uint16 (-1)) else
  let* table := get_table in
  let* _ :=
    put_table
      (fold_left (fun table i => set_file table i empty_file)
         (seqZ 0 CRUD_MAX_TOTAL_FILES) table) in
  let* table := get_table in
  let buf := memcpy buf 0 (table_image table) 0 prioritySize in
  let request :=
    create_crud_request priorityOID CRUD_CREATE prioritySize
      CRUD_PRIORITY_OBJECT 0 in
  let* (response, _) := client request (Some buf) in
  let result := f_result (extract_crud_response response) in
  if negb (result =? 0) then ret (uint16 (-1)) else
  ret 0.

Definition crud_mount : M Z :=
  let priorityOID := 0 in
  let tableSize :=
    int32 (sizeof_CrudFileAllocationType * CRUD_MAX_TOTAL_FILES) in
  let buf := malloc tableSize in
  let* ok := init_store in
  if negb ok then ret (uint16 (-1)) else
  let request :=
    create_crud_request priorityOID CRUD_READ tableSize CRUD_PRIORITY_OBJECT 0 in
  let* (response, buf) := client request (Some buf) in
  let result := f_result (extract_crud_response response) in
  if negb (result =? 0) then ret (uint16 (-1)) else
  let* _ := put_table (image_table (deref buf)) in
  ret 0.

Definition crud_unmount : M Z :=
  let priorityOID := 0 in
  let tableSize :=
    int32 (sizeof_CrudFileAllocationType * CRUD_MAX_TOTAL_FILES) in
  let* table := get_table in
  let buf := memcpy (malloc tableSize) 0 (table_image table) 0 tableSize in
  let request :=
    create_crud_request priorityOID CRUD_UPDATE tableSize
      CRUD_PRIORITY_OBJECT 0 in
  let* (response, _) := client request (Some buf) in
  let result := f_result (extract_crud_response response) in
  if negb (result =? 0) then ret (uint16 (-1)) else
  let request := create_crud_request 0 CRUD_CLOSE 0 0 0 in
  let* (response, _) := client request None in
  let result := f_result (extract_crud_response response) in
  if negb (result =? 0) then ret (uint16 (-1)) else
  ret 0.
(** Lines 301-310: the scan keeps the last index whose name passes the
    test.  [existingFd] has no initial value in the source; it is read only
    when [fileExists] is set. *)
Definition search_step (path : string) (table : list CrudFileAllocationType)
    (found : Z * Z) (i : Z) : Z * Z :=
  if negb (strcmp (File.filename (file_at table i)) "" =? 0) then
    if strncmp (File.filename (file_at table i)) path (strlen path) =? 0
    then (1, i)
    else found
  else found.

Definition search_existing (path : string)
    (table : list CrudFileAllocationType) : Z * Z :=
  fold_left (search_step path table) (seqZ 0 CRUD_MAX_TOTAL_FILES) (0, 0).

(** Lines 324-341: the first index that is neither open nor named. *)
Definition find_unused (table : list CrudFileAllocationType) : option Z :=
  List.find
    (fun i =>
       (File.open (file_at table i) =? 0) &&
       (strcmp (File.filename (file_at table i)) "" =? 0))
    (seqZ 0 CRUD_MAX_TOTAL_FILES).

(** Lines 330-336 on entry [i]: the entry is marked open, the path is
    copied into its name, and object, length and position are set. *)
Definition claim_entry (table : list CrudFileAllocationType) (i : Z)
    (path : string) : list CrudFileAllocationType :=
  if Z.of_nat (strlen path) <? CRUD_MAX_PATH_LENGTH
  then set_file table i (File.mk path CRUD_NO_OBJECT 0 0 1)
  else strcpy_overrun table i path.

Definition crud_open (path : string) : M Z :=
  let* ok := init_store in
  if negb ok then ret (-1) else
  let* table := get_table in
  let '(fileExists, existingFd) := search_existing path table in
  if negb (fileExists =? 0) then
    let* _ := set_open existingFd 1 in
    let* _ := set_position existingFd 0 in
    ret (int16 existingFd)
  else
    match find_unused table with
    | Some i =>
        let* _ := put_table (claim_entry table i path) in
        ret (int16 i)
    | None => ret (-1)
    end.

Definition crud_close (fd : Z) : M Z :=
  if (fd <? 0) || (fd >? CRUD_MAX_TOTAL_FILES - 1) then ret (-1) else
  let* f := get_file fd in
  if File.open f =? 0 then ret (-1) else
  let* _ := set_open fd 0 in
  ret 0.

(** Lines 419-424.  The loop runs at most [count] times, which is the
    [fuel] it is started with; inside the loop [i < count] and
    [position < length], so neither increment overflows. *)
Fixpoint read_loop (fuel : nat) (count length : Z) (tempBuf : buffer)
    (i position bytesRead : Z) (tempBuf2 : buffer) : Z * Z * buffer :=
  match fuel with
  | O => (position, bytesRead, tempBuf2)
  | S fuel' =>
      if (position <? length) && (i <? count) then
        read_loop fuel' count length tempBuf (i + 1) (position + 1)
          (bytesRead + 1) (memcpy tempBuf2 i tempBuf position 1)
      else (position, bytesRead, tempBuf2)
  end.

(** The result is the value returned and the content of the caller's
    buffer after the call. *)
Definition crud_read (fd : Z) (buf : option buffer) (count : Z)
    : M (Z * option buffer) :=
  let bytesRead := 0 in
  if (fd <? 0) || (fd >? CRUD_MAX_TOTAL_FILES - 1) then ret (-1, buf) else
  let* f := get_file fd in
  if File.open f =? 0 then ret (-1, buf) else
  match buf with
  | None => ret (-1, buf)
  | Some dst =>
      if File.length f =? 0 then ret (bytesRead, buf) else
      if count <? 1 then ret (bytesRead, buf) else
      let tempBuf := malloc CRUD_MAX_OBJECT_SIZE in
      let tempBuf2 := malloc count in
      let request :=
        create_crud_request (File.object_id f) CRUD_READ CRUD_MAX_OBJECT_SIZE
          0 0 in
      let* (response, tempBuf) := client request (Some tempBuf) in
      let* result := extract_to_file fd response in
      if negb (result =? 0) then ret (-1, buf) else
      let* f := get_file fd in
      let '(position, bytesRead, tempBuf2) :=
        read_loop (Z.to_nat count) count (File.length f) (deref tempBuf)
          0 (File.position f) bytesRead tempBuf2 in
      let* _ := set_position fd position in
      ret (bytesRead, Some (memcpy dst 0 tempBuf2 0 bytesRead))
  end.

Definition crud_write (fd : Z) (buf : option buffer) (count : Z) : M Z :=
  if (fd <? 0) || (fd >? CRUD_MAX_TOTAL_FILES - 1) then ret (-1) else
  let* f := get_file fd in
  if File.open f =? 0 then ret (-1) else
  match buf with
  | None => ret (-1)
  | Some src =>
      if count <? 1 then ret 0 else
      let tempBuf := memcpy (malloc count) 0 src 0 count in
      (* CASE 0, lines 488-502 *)
      if File.object_id f =? CRUD_NO_OBJECT then
        let request := create_crud_request 0 CRUD_CREATE count 0 0 in
        let* (response, _) := client request (Some tempBuf) in
        let* result := extract_to_file fd response in
        if negb (result =? 0) then ret (-1) else
        let* _ := set_position fd (uint32 count) in
        ret count
      (* CASE 1, lines 505-537 *)
      else if File.length f >=? uint32 (count + File.position f) then
        let tempBuf2 := malloc CRUD_MAX_OBJECT_SIZE in
        let request :=
          create_crud_request (File.object_id f) CRUD_READ
            CRUD_MAX_OBJECT_SIZE 0 0 in
        let* (response, tempBuf2) := client request (Some tempBuf2) in
        let* result := extract_to_file fd response in
        if negb (result =? 0) then ret (-1) else
        let* f := get_file fd in
        let tempBuf2 := memcpy (deref tempBuf2) (File.position f) src 0 count in
        let request :=
          create_crud_request (File.object_id f) CRUD_UPDATE (File.length f)
            0 0 in
        let* (response, _) := client request (Some tempBuf2) in
        let* result := extract_to_file fd response in
        if negb (result =? 0) then ret (-1) else
        let* f := get_file fd in
        let* _ := set_position fd (uint32 (File.position f + count)) in
        ret count
      (* CASE 2, lines 540-583 *)
      else
        let newLength := int32 (uint32 (count + File.position f)) in
        let tempBuf2 := malloc newLength in
        let request :=
          create_crud_request (File.object_id f) CRUD_READ newLength 0 0 in
        let* (response, tempBuf2) := client request (Some tempBuf2) in
        let* result := extract_to_file fd response in
        if negb (result =? 0) then ret (-1) else
        let* f := get_file fd in
        let tempBuf2 := memcpy (deref tempBuf2) (File.position f) src 0 count in
        let request :=
          create_crud_request (File.object_id f) CRUD_DELETE 0 0 0 in
        let* (response, _) := client request None in
        let* result := extract_to_file fd response in
        if negb (result =? 0) then ret (-1) else
        let request := create_crud_request 0 CRUD_CREATE newLength 0 0 in
        let* (response, _) := client request (Some tempBuf2) in
        let* result := extract_to_file fd response in
        if negb (result =? 0) then ret (-1) else
        let* f := get_file fd in
        let* _ := set_position fd (uint32 (File.position f + count)) in
        ret count
  end.

Definition crud_seek (fd : Z) (loc : Z) : M Z :=
  if (fd <? 0) || (fd >? CRUD_MAX_TOTAL_FILES - 1) then ret (-1) else
  let* f := get_file fd in
  if File.open f =? 0 then ret (-1) else
  if (loc >? File.length f) || (loc <? 0) then ret (-1) else
  let* _ := set_position fd loc in
  ret 0.

(** *** Calls and runs *)

Inductive call : Type :=
| Format
| Mount
| Unmount
| Open (path : string)
| Close (fd : Z)
| Read (fd : Z) (buf : option buffer) (count : Z)
| Write (fd : Z) (buf : option buffer) (count : Z)
| Seek (fd : Z) (loc : Z).

(** The value a call returns; for [Read], also the caller's buffer after
    the call. *)
Definition exec (c : call) : M (Z * option buffer) :=
  match c with
  | Format => let* r := crud_format in ret (r, None)
  | Mount => let* r := crud_mount in ret (r, None)
  | Unmount => let* r := crud_unmount in ret (r, None)
  | Open path => let* r := crud_open path in ret (r, None)
  | Close fd => let* r := crud_close fd in ret (r, None)
  | Read fd buf count => crud_read fd buf count
  | Write fd buf count => let* r := crud_write fd buf count in ret (r, buf)
  | Seek fd loc => let* r := crud_seek fd loc in ret (r, None)
  end.

(** The state after a sequence of calls. *)
Definition run (calls : list call) (st : state) : state :=
  fold_left (fun st c => snd (exec c st)) calls st.

(** The value a failing call returns: [-1], which [crud_format],
    [crud_mount] and [crud_unmount] return as a [uint16_t]. *)
Definition failure_value (c : call) : Z :=
  match c with
  | Format | Mount | Unmount => uint16 (-1)
  | _ => -1
  end.

End FileLayer.

(** ** The object store

    The server is not part of the sources.  The file layer relies on the
    contract below for the exchanges on ordinary objects (flag [0]) that
    report success: [objects w] is the content of the store in world [w].
    Nothing is asked of an exchange that reports failure. *)

Section StoreContract.
Context `{CrudProtocol} `{CrudClient}.

Record faithful_store (objects : World -> gmap Z (list Z)) : Prop := {
  (* CREATE stores the [length] bytes sent under an identifier that was
     not in use, and reports that identifier and that length. *)
  create_ok : forall w op buf resp buf' w',
    crud_client_operation w op (Some buf) = (resp, buf', w') ->
    f_request (extract_crud_response op) = CRUD_CREATE ->
    f_flag (extract_crud_response op) = 0 ->
    f_result (extract_crud_response resp) = 0 ->
    objects w !! f_object_id (extract_crud_response resp) = None /\
    objects w' =
      <[f_object_id (extract_crud_response resp) :=
          bytes_of buf 0 (f_length (extract_crud_response op))]> (objects w) /\
    f_length (extract_crud_response resp) = f_length (extract_crud_response op);
  (* READ delivers the whole object into the buffer and reports its
     identifier and its true length. *)
  read_ok : forall w op buf resp buf' w',
    crud_client_operation w op (Some buf) = (resp, buf', w') ->
    f_request (extract_crud_response op) = CRUD_READ ->
    f_flag (extract_crud_response op) = 0 ->
    f_result (extract_crud_response resp) = 0 ->
    exists content b',
      objects w !! f_object_id (extract_crud_response op) = Some content /\
      f_object_id (extract_crud_response resp) =
        f_object_id (extract_crud_response op) /\
      f_length (extract_crud_response resp) = Z.of_nat (length content) /\
      buf' = Some b' /\
      (forall k, b' k = store_bytes buf 0 content k) /\
      objects w' = objects w;
  (* UPDATE replaces the content of an existing object by the [length]
     bytes sent. *)
  update_ok : forall w op buf resp buf' w',
    crud_client_operation w op (Some buf) = (resp, buf', w') ->
    f_request (extract_crud_response op) = CRUD_UPDATE ->
    f_flag (extract_crud_response op) = 0 ->
    f_result (extract_crud_response resp) = 0 ->
    is_Some (objects w !! f_object_id (extract_crud_response op)) /\
    f_object_id (extract_crud_response resp) =
      f_object_id (extract_crud_response op) /\
    f_length (extract_crud_response resp) = f_length (extract_crud_response op) /\
    objects w' =
      <[f_object_id (extract_crud_response op) :=
          bytes_of buf 0 (f_length (extract_crud_response op))]> (objects w);
  (* DELETE removes the object and no other. *)
  delete_ok : forall w op buf resp buf' w',
    crud_client_operation w op buf = (resp, buf', w') ->
    f_request (extract_crud_response op) = CRUD_DELETE ->
    f_flag (extract_crud_response op) = 0 ->
    f_result (extract_crud_response resp) = 0 ->
    objects w' = delete (f_object_id (extract_crud_response op)) (objects w)
}.

End StoreContract.

(** Modelled from the spec: the remote object store, which the sources do
    not contain.  Objects are byte strings under integer identifiers that
    the store assigns on CREATE; READ returns a whole object; UPDATE and
    DELETE act on one object; FORMAT wipes every object; the table image is
    kept apart, under the priority flag.  [faults] schedules failures: the
    store answers the next exchange with result [1] when the head is
    [true]. *)
Module RefStore.
Section WithProtocol.
Context `{CrudProtocol}.

Record Store : Type := mk {
  objects : gmap Z (list Z);
  priority : option (list Z);
  faults : list bool
}.

Definition fresh_id (m : gmap Z (list Z)) : Z :=
  1 + foldr Z.max 0 (fst <$> map_to_list m).

Definition reply (q : CrudFields) (oid len res : Z) : Z :=
  create_crud_request oid (f_request q) len (f_flag q) res.

Definition refuse (q : CrudFields) : Z :=
  reply q (f_object_id q) (f_length q) 1.

Definition serve (s : Store) (op : Z) (buf : option buffer)
    : Z * option buffer * Store :=
  let q := extract_crud_response op in
  let s' := mk (objects s) (priority s) (tail (faults s)) in
  let failed := (refuse q, buf, s') in
  if default false (head (faults s)) then failed
  else if f_request q =? CRUD_INIT then (reply q 0 0 0, buf, s')
  else if f_request q =? CRUD_FORMAT then
    (reply q 0 0 0, buf, mk ∅ None (tail (faults s)))
  else if f_request q =? CRUD_CLOSE then (reply q 0 0 0, buf, s')
  else if negb (f_flag q =? 0) && (f_flag q =? CRUD_PRIORITY_OBJECT) then
    (* the table image *)
    if (f_request q =? CRUD_CREATE) || (f_request q =? CRUD_UPDATE) then
      match buf with
      | Some b =>
          (reply q 0 (f_length q) 0, buf,
           mk (objects s) (Some (bytes_of b 0 (f_length q))) (tail (faults s)))
      | None => failed
      end
    else if f_request q =? CRUD_READ then
      match priority s, buf with
      | Some content, Some b =>
          if Z.of_nat (length content) <? 2 ^ 24 then
            (reply q 0 (Z.of_nat (length content)) 0,
             Some (store_bytes b 0 content), s')
          else failed
      | _, _ => failed
      end
    else failed
  else if f_request q =? CRUD_CREATE then
    match buf with
    | Some b =>
        let oid := fresh_id (objects s) in
        if oid <? 2 ^ 32 then
          (reply q oid (f_length q) 0, buf,
           mk (<[oid := bytes_of b 0 (f_length q)]> (objects s)) (priority s)
              (tail (faults s)))
        else failed
    | None => failed
    end
  else if f_request q =? CRUD_READ then
    match objects s !! f_object_id q, buf with
    | Some content, Some b =>
        if Z.of_nat (length content) <? 2 ^ 24 then
          (reply q (f_object_id q) (Z.of_nat (length content)) 0,
           Some (store_bytes b 0 content), s')
        else failed
    | _, _ => failed
    end
  else if f_request q =? CRUD_UPDATE then
    match objects s !! f_object_id q, buf with
    | Some _, Some b =>
        (reply q (f_object_id q) (f_length q) 0, buf,
         mk (<[f_object_id q := bytes_of b 0 (f_length q)]> (objects s))
            (priority s) (tail (faults s)))
    | _, _ => failed
    end
  else if f_request q =? CRUD_DELETE then
    match objects s !! f_object_id q with
    | Some _ =>
        (reply q (f_object_id q) 0 0, buf,
         mk (delete (f_object_id q) (objects s)) (priority s)
            (tail (faults s)))
    | None => failed
    end
  else failed.

Definition client : CrudClient :=
  {| World := Store; crud_client_operation := serve |}.

(** A store with no object and no scheduled failure. *)
Definition empty : Store := mk ∅ None [].

End WithProtocol.
End RefStore.

(** ** Sample values of the header constants

    Used for the examples only; every general statement below is made for
    arbitrary constants. *)

Definition sample_protocol : CrudProtocol :=
  {| CRUD_INIT := 0; CRUD_FORMAT := 1; CRUD_CREATE := 2; CRUD_READ := 3;
     CRUD_UPDATE := 4; CRUD_DELETE := 5; CRUD_CLOSE := 6;
     CRUD_NULL_FLAG := 0; CRUD_PRIORITY_OBJECT := 1;
     CRUD_MAX_OBJECT_SIZE := 2 ^ 24 - 1; CRUD_NO_OBJECT := 0;
     malloc := fun _ _ => 0 |}.

(** A table of 1024 records of 144 bytes: the name in 128 bytes, then
    [object_id], [position] and [length] as little-endian 32-bit words, then
    [open] and three bytes of padding. *)

Definition le_bytes (n : Z) (z : Z) : list Z :=
  (fun i => (z / 2 ^ (8 * i)) mod 2 ^ 8) <$> seqZ 0 n.

Definition le_word (bytes : list Z) : Z :=
  foldr (fun b acc => b + 2 ^ 8 * acc) 0 bytes.

Fixpoint string_bytes (s : string) : list Z :=
  match s with
  | EmptyString => []
  | String c s' => code c :: string_bytes s'
  end.

Fixpoint bytes_string (bytes : list Z) : string :=
  match bytes with
  | [] => EmptyString
  | b :: bytes' =>
      if b =? 0 then EmptyString
      else String (ascii_of_N (Z.to_N b)) (bytes_string bytes')
  end.

Definition record_bytes (f : CrudFileAllocationType) : list Z :=
  take 128 (string_bytes (File.filename f) ++ replicate 128 0) ++
  le_bytes 4 (File.object_id f) ++ le_bytes 4 (File.position f) ++
  le_bytes 4 (File.length f) ++ [File.open f mod 2 ^ 8; 0; 0; 0].

Definition sample_table_image (table : list CrudFileAllocationType) : buffer :=
  fun k =>
    if k <? 0 then 0
    else
      match table !! Z.to_nat (k / 144) with
      | Some f => nth (Z.to_nat (k mod 144)) (record_bytes f) 0
      | None => 0
      end.

Definition sample_image_table (buf : buffer) : list CrudFileAllocationType :=
  (fun i =>
     File.mk (bytes_string (bytes_of buf (144 * i) 128))
       (le_word (bytes_of buf (144 * i + 128) 4))
       (le_word (bytes_of buf (144 * i + 132) 4))
       (le_word (bytes_of buf (144 * i + 136) 4))
       (buf (144 * i + 140))) <$> seqZ 0 1024.

(** Lines 330-336 in this layout with a path that does not fit: the entry
    is marked open; the bytes of the path and the terminating zero go into
    the image of the table from the name of entry [i] on, over whatever
    lies there; then the object, the length and the position of entry [i]
    are stored. *)
Definition sample_strcpy_overrun (table : list CrudFileAllocationType) (i : Z)
    (path : string) : list CrudFileAllocationType :=
  let f := file_at table i in
  let marked :=
    set_file table i
      (File.mk (File.filename f) (File.object_id f) (File.position f)
         (File.length f) 1) in
  let image :=
    store_bytes (sample_table_image marked) (144 * i)
      (string_bytes path ++ [0]) in
  let image :=
    store_bytes image (144 * i + 128)
      (le_bytes 4 (@CRUD_NO_OBJECT sample_protocol)) in
  let image := store_bytes image (144 * i + 136) (le_bytes 4 0) in
  let image := store_bytes image (144 * i + 132) (le_bytes 4 0) in
  take (length table) (sample_image_table image).

Definition sample_table : CrudFileTable :=
  {| CRUD_MAX_TOTAL_FILES := 1024;
     CRUD_MAX_PATH_LENGTH := 128;
     sizeof_CrudFileAllocationType := 144;
     table_image := sample_table_image;
     image_table := sample_image_table;
     strcpy_overrun := sample_strcpy_overrun |}.

(** The file layer over the reference store, with the sample constants. *)
Module Sample.

#[local] Existing Instance sample_protocol.
#[local] Existing Instance sample_table.
#[local] Existing Instance RefStore.client.

(** The start of the program over an empty store with the failures
    [faults] scheduled. *)
Definition start (faults : list bool) : state :=
  initial_state (RefStore.mk ∅ None faults).

(** Buffers that hold ["hello"] and ["!!"]. *)
Definition hello : buffer := buffer_of [104; 101; 108; 108; 111].
Definition bangs : buffer := buffer_of [33; 33].

(** A buffer of zero bytes, to read into. *)
Definition zeros : buffer := fun _ => 0.

(** ["a.txt"] opened on the table the program starts with. *)
Definition opened : state := run [Open "a.txt"] (start []).

(** Then ["hello"] written. *)
Definition written : state := run [Write 0 (Some hello) 5] opened.

(** The bytes of ["hello"]. *)
Definition greeting : list Z := [104; 101; 108; 108; 111].

(** The entry of ["a.txt"] in [opened] and in [written]. *)
Definition fresh_entry : CrudFileAllocationType := File.mk "a.txt" 0 0 0 1.
Definition hello_entry : CrudFileAllocationType := File.mk "a.txt" 1 5 5 1.

(** The write of ["hello"], the seek back to 0 and the read of five
    bytes, each with the value it returns. *)
Definition hello_written : Z * state :=
  crud_write 0 (Some hello) 5 opened.

Definition hello_rewound : Z * state := crud_seek 0 0 (snd hello_written).

Definition read_back : Z * option buffer * state :=
  crud_read 0 (Some zeros) 5 (snd hello_rewound).

(** ["!!"] written at the end of ["hello"]. *)
Definition appended : Z * state := crud_write 0 (Some bangs) 2 written.

(** The cursor of ["a.txt"] set to 2. *)
Definition midway : state := run [Seek 0 2] written.

(** A count that does not fit the 24-bit length field of a request. *)
Definition oversize : Z := 2 ^ 28 + 5.

(** A write of [oversize] bytes to the fresh file, and the seek back to
    0. *)
Definition overwritten : state :=
  run [Write 0 (Some hello) oversize] opened.

Definition overwritten_rewound : state := run [Seek 0 0] overwritten.

(** After the oversize write the object holds five bytes. *)
Definition short_entry : CrudFileAllocationType :=
  File.mk "a.txt" 1 oversize 5 1.

(** A write of [2 ^ 28] bytes at the end of ["hello"]. *)
Definition overgrown : Z * state :=
  crud_write 0 (Some bangs) (2 ^ 28) written.

(** The request and the response of a CREATE of four bytes. *)
Definition create_four : Z := create_crud_request 0 CRUD_CREATE 4 0 0.
Definition created_four : Z := create_crud_request 7 CRUD_CREATE 4 0 0.

(** The table with the files ["a"] and ["ab"], both closed, ["ab"] holding
    five bytes. *)
Definition two_files : state :=
  run [Open "a"; Open "ab"; Write 1 (Some hello) 5; Close 0; Close 1]
    (start []).

(** The entry of ["a.txt"] in [midway], and the writes of ["!!"] and of
    ["hello"] from there. *)
Definition midway_entry : CrudFileAllocationType := File.mk "a.txt" 1 2 5 1.

Definition patched : Z * state := crud_write 0 (Some bangs) 2 midway.

Definition extended : Z * state := crud_write 0 (Some hello) 5 midway.

(** ["!!"] written right after ["hello"]. *)
Definition hello_bangs : Z * state :=
  crud_write 0 (Some bangs) 2 (snd hello_written).

(** A read of 100 bytes after a seek to 2. *)
Definition sought : Z * option buffer * state :=
  crud_read 0 (Some zeros) 100 (snd (crud_seek 0 2 written)).

(** The request and the response of a CLOSE that the server refuses. *)
Definition close_request : Z := create_crud_request 0 CRUD_CLOSE 0 0 0.
Definition close_refused : Z := create_crud_request 0 CRUD_CLOSE 0 0 1.

(** The request for object 1 and the response that announces five
    bytes. *)
Definition read_request : Z :=
  create_crud_request 1 CRUD_READ CRUD_MAX_OBJECT_SIZE 0 0.
Definition read_response : Z := create_crud_request 1 CRUD_READ 5 0 0.

(** A table of two records, for the calls that send the whole table. *)
Definition tiny_table : CrudFileTable :=
  {| CRUD_MAX_TOTAL_FILES := 2;
     CRUD_MAX_PATH_LENGTH := 128;
     sizeof_CrudFileAllocationType := 144;
     table_image := sample_table_image;
     image_table := fun buf => take 2 (sample_image_table buf);
     strcpy_overrun := sample_strcpy_overrun |}.

Definition tiny_start : state :=
  initial_state (H0 := tiny_table) (RefStore.mk ∅ None []).

Definition tiny_formatted : Z * state :=
  crud_format (H0 := tiny_table) tiny_start.

(** ["hello"] written to ["a.txt"] over a store that will refuse the
    next exchange. *)
Definition refusing : state :=
  run [Open "a.txt"; Write 0 (Some hello) 5] (start [false; false; true]).

Definition refused_exchange : Z * option buffer * RefStore.Store :=
  crud_client_operation (world refusing) read_request
    (Some (malloc CRUD_MAX_OBJECT_SIZE)).

(** ["a.txt"] holding ["hello"], and ["b.txt"] opened after it. *)
Definition two_named : state :=
  run [Open "a.txt"; Write 0 (Some hello) 5; Open "b.txt"] (start []).

(** Then ["!!"] written to ["b.txt"]. *)
Definition two_written : state := run [Write 1 (Some bangs) 2] two_named.

Definition bangs_entry : CrudFileAllocationType := File.mk "b.txt" 2 2 2 1.

(** ["hello"] written to ["a.txt"] over a store that will refuse the
    fourth exchange, which is the DELETE of the next write. *)
Definition before_refusal : state :=
  run [Open "a.txt"; Write 0 (Some hello) 5] (start [false; false; false; true]).

(** The write that the store refuses, and the close after it. *)
Definition after_refusal : state := run [Write 0 (Some bangs) 2] before_refusal.
Definition closed_after_refusal : state := run [Close 0] after_refusal.

(** A store that answers the requests it receives with the responses of
    a list, in their order, and leaves the buffer alone. *)
Definition answering : CrudClient :=
  {| World := list Z;
     crud_client_operation := fun w _ buf =>
       match w with
       | response :: rest => (response, buf, rest)
       | [] => (Client.ERROR_WORD, buf, [])
       end |}.

(** It accepts the INIT, creates object 1 of five bytes, and refuses the
    READ of object 1 with a response whose length field is 0. *)
Definition answers : list Z :=
  [create_crud_request 0 CRUD_INIT 0 0 0;
   create_crud_request 1 CRUD_CREATE 5 0 0;
   create_crud_request 1 CRUD_READ 0 0 1].

Definition before_refused_read : state (H1 := answering) :=
  run (H1 := answering) [Open "a.txt"; Write 0 (Some hello) 5]
    (initial_state (H1 := answering) answers).
Definition after_refused_read : state (H1 := answering) :=
  run (H1 := answering) [Read 0 (Some zeros) 3] before_refused_read.
Definition closed_after_refused_read : state (H1 := answering) :=
  run (H1 := answering) [Close 0] after_refused_read.

(** The table of two entries, full: ["ab"] holds ["hello"], ["cd"] is
    open. *)
Definition full_table : state :=
  run (H0 := tiny_table) [Open "ab"; Write 0 (Some hello) 5; Open "cd"]
    tiny_start.

(** The state after one [crud_open] whose INIT the store refused. *)
Definition init_refused : state := run [Open "a.txt"] (start [true]).

End Sample.

(** ** Vocabulary of the statements *)

Section Vocabulary.
Context `{CrudProtocol} `{CrudFileTable} `{CrudClient}.

(** An entry that is the file called [path]. *)
Definition named (path : string) (f : CrudFileAllocationType) : Prop :=
  File.filename f <> ""%string /\ File.filename f = path.

(** An entry that passes the comparison of line 305. *)
Definition passes_name_test (path : string) (f : CrudFileAllocationType) : Prop :=
  File.filename f <> ""%string /\
  exists rest, File.filename f = (path ++ rest)%string.

(** An entry that [crud_open] may claim: closed and without a name. *)
Definition unused (f : CrudFileAllocationType) : Prop :=
  File.open f = 0 /\ File.filename f = ""%string.

Definition in_table (i : Z) : Prop := 0 <= i < CRUD_MAX_TOTAL_FILES.

Definition set_table (st : state) (table : list CrudFileAllocationType) : state :=
  {| crud_file_table := table; INITIALIZED := INITIALIZED st;
     world := world st; wire := wire st |}.

(** The five calls on files. *)
Definition file_call (c : call) : Prop :=
  match c with
  | Open _ | Close _ | Read _ _ _ | Write _ _ _ | Seek _ _ => True
  | Format | Mount | Unmount => False
  end.

(** A write that ends within the size limit of an object. *)
Definition within_object_size (c : call) (st : state) : Prop :=
  match c with
  | Write fd _ count =>
      File.position (file_at (crud_file_table st) fd) + count
        <= CRUD_MAX_OBJECT_SIZE
  | _ => True
  end.

Definition returned (c : call) (st : state) : Z := fst (fst (exec c st)).

(** The states the program can be in: any calls, whatever they return. *)
Inductive reachable (w0 : World) : state -> Prop :=
| reachable_start : reachable w0 (initial_state w0)
| reachable_step (st : state) (c : call) :
    reachable w0 st -> reachable w0 (snd (exec c st)).

Definition bad_handle (fd : Z) (st : state) : Prop :=
  fd < 0 \/ fd > CRUD_MAX_TOTAL_FILES - 1 \/
  File.open (file_at (crud_file_table st) fd) = 0.

(** The failures of validation: a handle out of range or not open, a null
    buffer, a seek target past the end, and for [crud_open] a table in which
    no entry passes the name comparison of the code and none is unused. *)
Definition validation_failure (c : call) (st : state) : Prop :=
  match c with
  | Close fd => bad_handle fd st
  | Read fd buf _ => bad_handle fd st \/ buf = None
  | Write fd buf _ => bad_handle fd st \/ buf = None
  | Seek fd loc =>
      bad_handle fd st \/ loc > File.length (file_at (crud_file_table st) fd)
  | Open path =>
      forall i, in_table i ->
        ~ passes_name_test path (file_at (crud_file_table st) i) /\
        ~ unused (file_at (crud_file_table st) i)
  | Format | Mount | Unmount => False
  end.

(** A call whose path, if it has one, fits the name array of an entry
    with its terminating zero. *)
Definition path_fits (c : call) : Prop :=
  match c with
  | Open path => Z.of_nat (strlen path) < CRUD_MAX_PATH_LENGTH
  | _ => True
  end.

(** A [crud_read] or [crud_write] that the store did not refuse: it
    returns success, or it fails validation.  Nothing is asked of the other
    calls. *)
Definition read_write_settled (c : call) (st : state) : Prop :=
  match c with
  | Read _ _ _ | Write _ _ _ => returned c st <> -1 \/ validation_failure c st
  | _ => True
  end.

(** The states of the runs of file calls, from the start of the program,
    in which every path fits the name array, every write stays within the
    object size, and no [crud_read] or [crud_write] fails at the store. *)
Inductive steady (w0 : World) : state -> Prop :=
| steady_start : steady w0 (initial_state w0)
| steady_step (st : state) (c : call) :
    steady w0 st ->
    file_call c ->
    path_fits c ->
    within_object_size c st ->
    read_write_settled c st ->
    steady w0 (snd (exec c st)).

(** The buffer a call was given. *)
Definition caller_buffer (c : call) : option buffer :=
  match c with
  | Read _ buf _ | Write _ buf _ => buf
  | _ => None
  end.

(** The table the program starts with. *)
Definition zero_table : list CrudFileAllocationType :=
  replicate (Z.to_nat CRUD_MAX_TOTAL_FILES) zero_file.

(** The image of the table fits the length field of a request. *)
Definition table_fits : Prop :=
  0 <= sizeof_CrudFileAllocationType * CRUD_MAX_TOTAL_FILES < 2 ^ 24.

(** Exchanges of the record that carry the INIT request code. *)
Definition init_exchange (x : Z * Z) : Prop :=
  f_request (extract_crud_response (fst x)) = CRUD_INIT.

Definition succeeded (x : Z * Z) : Prop :=
  f_result (extract_crud_response (snd x)) = 0.

Definition init_call (c : call) : Prop :=
  match c with
  | Format | Mount | Open _ => True
  | _ => False
  end.

(** No INIT follows an INIT that succeeded. *)
Definition init_settled (log : list (Z * Z)) : Prop :=
  forall before x after,
    log = before ++ x :: after ->
    init_exchange x -> succeeded x ->
    Forall (fun y => ~ init_exchange y) after.

(** What the store holds for an entry: nothing yet, or an object of the
    entry's length. *)
Definition file_backed (m : gmap Z (list Z)) (f : CrudFileAllocationType) : Prop :=
  0 <= File.position f <= File.length f /\
  File.length f < 2 ^ 24 /\
  0 <= File.object_id f < 2 ^ 32 /\
  (File.length f = 0 ->
   File.object_id f = CRUD_NO_OBJECT \/ unused f) /\
  (File.length f <> 0 ->
   exists content,
     m !! File.object_id f = Some content /\
     Z.of_nat (length content) = File.length f).

End Vocabulary.

(** The sum of the values a list of socket calls returns. *)
Definition sum_returns (calls : list (Z * list Z)) : Z :=
  foldr (fun c acc => fst c + acc) 0 calls.

(** * Properties *)

#[global] Arguments create_crud_request : simpl never.
#[global] Arguments extract_crud_response : simpl never.
#[global] Arguments uint8 : simpl never.
#[global] Arguments uint16 : simpl never.
#[global] Arguments uint32 : simpl never.
#[global] Arguments uint64 : simpl never.
#[global] Arguments int16 : simpl never.
#[global] Arguments int32 : simpl never.
#[global] Arguments malloc : simpl never.
#[global] Arguments memcpy : simpl never.
#[global] Arguments store_bytes : simpl never.
#[global] Arguments bytes_of : simpl never.

(** ** The codec *)

Lemma lor_shiftl_low (a b k : Z) :
  0 <= k -> 0 <= b < 2 ^ k -> Z.lor (Z.shiftl a k) b = a * 2 ^ k + b.
Proof.
  intros Hk Hb.
  assert (Hdisj : Z.land (Z.shiftl a k) b = 0).
  { apply Z.bits_inj'. intros n Hn.
    rewrite Z.land_spec, Z.bits_0.
    destruct (Z.lt_ge_cases n k) as [Hlt | Hge].
    - rewrite Z.shiftl_spec_low by assumption. reflexivity.
    - replace b with (b mod 2 ^ k) by (apply Z.mod_small; assumption).
      rewrite Z.mod_pow2_bits_high by lia. apply andb_false_r. }
  rewrite <- Z.lxor_lor by assumption.
  rewrite <- Z.add_nocarry_lxor by assumption.
  rewrite Z.shiftl_mul_pow2 by assumption. reflexivity.
Qed.

(** For fields that fit their widths the request word is the sum of the
    shifted fields. *)
Lemma create_crud_request_sum (object_id req len flag rslt : Z) :
  0 <= object_id < 2 ^ 32 -> 0 <= req < 2 ^ 4 -> 0 <= len < 2 ^ 24 ->
  0 <= flag < 2 ^ 3 -> 0 <= rslt < 2 ->
  create_crud_request object_id req len flag rslt =
  object_id * 2 ^ 32 + req * 2 ^ 28 + len * 2 ^ 4 + flag * 2 + rslt.
Proof.
  intros Ho Hr Hl Hf Hs.
  set (total := object_id * 2 ^ 32 + req * 2 ^ 28 + len * 2 ^ 4 + flag * 2 + rslt).
  unfold create_crud_request, uint64, uint32, uint8.
  rewrite (Z.mod_small object_id), (Z.mod_small req), (Z.mod_small len),
    (Z.mod_small flag), (Z.mod_small rslt) by lia.
  rewrite (Z.shiftl_mul_pow2 req), (Z.shiftl_mul_pow2 len),
    (Z.shiftl_mul_pow2 flag) by lia.
  rewrite (Z.mod_small (req * 2 ^ 28)), (Z.mod_small (len * 2 ^ 4)),
    (Z.mod_small (flag * 2 ^ 1)) by lia.
  rewrite (Z.mod_small (Z.shiftl object_id 32))
    by (rewrite Z.shiftl_mul_pow2; lia).
  rewrite (lor_shiftl_low object_id (req * 2 ^ 28)) by lia.
  replace (object_id * 2 ^ 32 + req * 2 ^ 28)
    with (Z.shiftl (object_id * 2 ^ 4 + req) 28)
    by (rewrite Z.shiftl_mul_pow2; lia).
  rewrite (lor_shiftl_low _ (len * 2 ^ 4)) by lia.
  replace ((object_id * 2 ^ 4 + req) * 2 ^ 28 + len * 2 ^ 4)
    with (Z.shiftl (object_id * 2 ^ 28 + req * 2 ^ 24 + len) 4)
    by (rewrite Z.shiftl_mul_pow2; lia).
  rewrite (lor_shiftl_low _ (flag * 2 ^ 1)) by lia.
  replace ((object_id * 2 ^ 28 + req * 2 ^ 24 + len) * 2 ^ 4 + flag * 2 ^ 1)
    with (Z.shiftl (object_id * 2 ^ 31 + req * 2 ^ 27 + len * 2 ^ 3 + flag) 1)
    by (rewrite Z.shiftl_mul_pow2; lia).
  rewrite (lor_shiftl_low _ rslt) by lia.
  subst total. lia.
Qed.

(** The fields of a 64-bit word, by division and remainder. *)
Lemma extract_crud_response_spec (w : Z) :
  0 <= w < 2 ^ 64 ->
  extract_crud_response w =
  {| f_object_id := w / 2 ^ 32;
     f_request := (w / 2 ^ 28) mod 2 ^ 4;
     f_length := (w / 2 ^ 4) mod 2 ^ 24;
     f_flag := (w / 2) mod 2 ^ 3;
     f_result := w mod 2 |}.
Proof.
  intros Hw. unfold extract_crud_response, uint64, uint32, uint8.
  rewrite !Z.shiftr_div_pow2, !Z.shiftl_mul_pow2 by lia.
  f_equal; Z.div_mod_to_equations; lia.
Qed.

Lemma uint64_range (z : Z) : 0 <= uint64 z < 2 ^ 64.
Proof. unfold uint64. apply Z.mod_pos_bound. lia. Qed.

(** Whatever the word, the extracted fields lie within their widths. *)
Lemma extract_crud_response_bounds (w : Z) :
  0 <= f_object_id (extract_crud_response w) < 2 ^ 32 /\
  0 <= f_request (extract_crud_response w) < 2 ^ 4 /\
  0 <= f_length (extract_crud_response w) < 2 ^ 24 /\
  0 <= f_flag (extract_crud_response w) < 2 ^ 3 /\
  0 <= f_result (extract_crud_response w) < 2.
Proof.
  unfold extract_crud_response, uint32, uint8; simpl.
  rewrite !Z.shiftr_div_pow2 by lia.
  pose proof (uint64_range (Z.shiftl w 32)).
  pose proof (uint64_range (Z.shiftl w 36)).
  pose proof (uint64_range (Z.shiftl w 60)).
  pose proof (uint64_range (Z.shiftl w 63)).
  repeat split; Z.div_mod_to_equations; lia.
Qed.

Lemma create_crud_request_range (object_id req len flag rslt : Z) :
  0 <= object_id < 2 ^ 32 -> 0 <= req < 2 ^ 4 -> 0 <= len < 2 ^ 24 ->
  0 <= flag < 2 ^ 3 -> 0 <= rslt < 2 ->
  0 <= create_crud_request object_id req len flag rslt < 2 ^ 64.
Proof.
  intros. rewrite create_crud_request_sum by assumption. lia.
Qed.

Lemma codec_fields (object_id req len flag rslt : Z) :
  0 <= object_id < 2 ^ 32 -> 0 <= req < 2 ^ 4 -> 0 <= len < 2 ^ 24 ->
  0 <= flag < 2 ^ 3 -> 0 <= rslt < 2 ->
  extract_crud_response (create_crud_request object_id req len flag rslt) =
  mkFields object_id req len flag rslt.
Proof.
  intros Ho Hr Hl Hf Hs.
  rewrite extract_crud_response_spec
    by (apply create_crud_request_range; assumption).
  rewrite create_crud_request_sum by assumption.
  f_equal; Z.div_mod_to_equations; lia.
Qed.

(** C6.  Packing five fields that fit their widths (identifier below 2^32,
    request code below 2^4, length below 2^24, flag below 2^3, result below
    2) with [create_crud_request] and unpacking the word with
    [extract_crud_response] gives back the five fields. *)
Theorem codec_roundtrip (object_id request len flag result : Z) :
  0 <= object_id < 2 ^ 32 -> 0 <= request < 2 ^ 4 -> 0 <= len < 2 ^ 24 ->
  0 <= flag < 2 ^ 3 -> 0 <= result < 2 ->
  extract_crud_response
    (create_crud_request object_id request len flag result) =
  {| f_object_id := object_id; f_request := request; f_length := len;
     f_flag := flag; f_result := result |}.
Proof. apply codec_fields. Qed.

Lemma codec_roundtrip_witness :
  extract_crud_response (create_crud_request 7 3 1000 1 0) =
  {| f_object_id := 7; f_request := 3; f_length := 1000; f_flag := 1;
     f_result := 0 |}.
Proof. apply (codec_roundtrip 7 3 1000 1 0); lia. Defined.

(** The client reads the request code and the length off a word as
    [extract_crud_response] does. *)
Lemma client_request_field (op : Z) :
  uint8 (Z.shiftr (uint64 (Z.shiftl op 32)) 60) =
  f_request (extract_crud_response op).
Proof. reflexivity. Qed.

Lemma client_length_field (op : Z) :
  uint32 (Z.shiftr (uint64 (Z.shiftl op 36)) 40) =
  f_length (extract_crud_response op).
Proof. reflexivity. Qed.

(** From here on the codec is used through the lemmas above. *)
#[global] Opaque create_crud_request extract_crud_response.

(** ** Strings *)

Lemma strcmp_empty (s : string) : strcmp s "" = 0 <-> s = ""%string.
Proof. destruct s; simpl; split; intros Hs; congruence || lia. Qed.

Lemma append_String (c : ascii) (s t : string) :
  (String c s ++ t)%string = String c (s ++ t)%string.
Proof. reflexivity. Qed.

Lemma append_empty (t : string) : (""%string ++ t)%string = t.
Proof. reflexivity. Qed.

(** The comparison of line 305 is a prefix test: [strncmp] over the length
    of [path] finds no difference exactly when [path] starts the name. *)
Lemma strncmp_prefix (name path : string) :
  strncmp name path (strlen path) = 0 <->
  exists rest, name = (path ++ rest)%string.
Proof.
  unfold strlen. revert name.
  induction path as [| c path IH]; intros name; simpl.
  - split; [intros _; exists name; reflexivity | intros _; reflexivity].
  - destruct name as [| d name].
    + split; [lia | intros [rest Hrest]; discriminate].
    + destruct (Ascii.eqb_spec d c) as [-> | Hne].
      * rewrite IH.
        split; intros [rest Hrest]; exists rest;
          rewrite append_String in *; congruence.
      * split.
        -- destruct (code d <? code c); lia.
        -- intros [rest Hrest]. rewrite append_String in Hrest. congruence.
Qed.

(** ** Buffers *)

Lemma length_bytes_of (b : buffer) (off n : Z) :
  length (bytes_of b off n) = Z.to_nat n.
Proof. unfold bytes_of. rewrite length_fmap. apply length_seqZ. Qed.

Lemma bytes_of_ext (b1 b2 : buffer) (off n : Z) :
  (forall k, off <= k < off + n -> b1 k = b2 k) ->
  bytes_of b1 off n = bytes_of b2 off n.
Proof.
  intros Heq. unfold bytes_of. apply list_eq. intros i.
  rewrite !list_lookup_fmap.
  destruct (seqZ off n !! i) as [k |] eqn:Hk; simpl; [| reflexivity].
  apply lookup_seqZ in Hk. f_equal. apply Heq. lia.
Qed.

Lemma bytes_of_app (b : buffer) (off n m : Z) :
  0 <= n -> 0 <= m ->
  bytes_of b off (n + m) = bytes_of b off n ++ bytes_of b (off + n) m.
Proof.
  intros Hn Hm. unfold bytes_of.
  rewrite seqZ_app by assumption. apply fmap_app.
Qed.

Lemma bytes_of_store_bytes (dst : buffer) (data : list Z) (off : Z) :
  bytes_of (store_bytes dst off data) off (Z.of_nat (length data)) = data.
Proof.
  apply list_eq. intros i. unfold bytes_of. rewrite list_lookup_fmap.
  destruct (data !! i) as [x |] eqn:Hx.
  - assert (Hlt : (i < length data)%nat) by (eapply lookup_lt_Some; eassumption).
    rewrite (lookup_seqZ_lt off (Z.of_nat (length data)) i) by lia. simpl.
    unfold store_bytes.
    replace ((off <=? off + Z.of_nat i) &&
             (off + Z.of_nat i <? off + Z.of_nat (length data))) with true
      by (symmetry; apply andb_true_intro; split; lia).
    replace (off + Z.of_nat i - off) with (Z.of_nat i) by lia.
    rewrite Nat2Z.id. f_equal.
    apply nth_lookup_Some with (d := 0) in Hx. exact Hx.
  - assert (Hge : (length data <= i)%nat) by (apply lookup_ge_None; assumption).
    rewrite lookup_seqZ_ge by lia. reflexivity.
Qed.

Lemma bytes_of_buffer_of (data : list Z) :
  bytes_of (buffer_of data) 0 (Z.of_nat (length data)) = data.
Proof. apply bytes_of_store_bytes. Qed.

(** ** Proof tools *)

Create HintDb crud.
#[global] Hint Unfold bind ret get_file put_file get_table put_table
  set_position set_open extract_to_file get_INITIALIZED set_INITIALIZED
  client : crud.

Ltac fields :=
  cbn [crud_file_table INITIALIZED world wire fst snd File.filename
       File.object_id File.position File.length File.open].

Ltac monad := repeat progress (autounfold with crud; fields).

Ltac fields_in H :=
  cbn [crud_file_table INITIALIZED world wire fst snd File.filename
       File.object_id File.position File.length File.open] in H.

Ltac monad_in H := repeat progress (autounfold with crud in H; fields_in H).

(** ** Opening a file *)

Section OpenProperties.
Context `{CrudProtocol} `{CrudFileTable} `{CrudClient}.

Definition name_test (path : string) (f : CrudFileAllocationType) : bool :=
  negb (strcmp (File.filename f) "" =? 0) &&
  (strncmp (File.filename f) path (strlen path) =? 0).

Definition unused_test (f : CrudFileAllocationType) : bool :=
  (File.open f =? 0) && (strcmp (File.filename f) "" =? 0).

Lemma name_test_spec (path : string) (f : CrudFileAllocationType) :
  name_test path f = true <-> passes_name_test path f.
Proof.
  unfold name_test, passes_name_test.
  rewrite andb_true_iff, negb_true_iff, Z.eqb_neq, Z.eqb_eq.
  rewrite strcmp_empty, strncmp_prefix. reflexivity.
Qed.

Lemma unused_test_spec (f : CrudFileAllocationType) :
  unused_test f = true <-> unused f.
Proof.
  unfold unused_test, unused.
  rewrite andb_true_iff, !Z.eqb_eq, strcmp_empty. reflexivity.
Qed.

Lemma search_step_test (path : string) (table : list CrudFileAllocationType)
    (found : Z * Z) (i : Z) :
  search_step path table found i =
  if name_test path (file_at table i) then (1, i) else found.
Proof.
  unfold search_step, name_test.
  destruct (strcmp _ "" =? 0); simpl; [reflexivity |].
  destruct (strncmp _ _ _ =? 0); reflexivity.
Qed.

(** The scan of lines 301-310 over the first [n] entries: it ends on the
    last entry that passes the test, if there is one. *)
Lemma search_scan (path : string) (table : list CrudFileAllocationType) (n : nat) :
  let found := fold_left (search_step path table) (seqZ 0 (Z.of_nat n)) (0, 0) in
  (found = (0, 0) /\
   forall i, 0 <= i < Z.of_nat n -> name_test path (file_at table i) = false) \/
  (exists j, found = (1, j) /\ 0 <= j < Z.of_nat n /\
     name_test path (file_at table j) = true /\
     forall k, j < k < Z.of_nat n -> name_test path (file_at table k) = false).
Proof.
  induction n as [| n IH].
  - left. split; [reflexivity | intros i Hi; lia].
  - rewrite seqZ_S, fold_left_app. simpl. rewrite search_step_test.
    rewrite Z.add_0_l.
    destruct (name_test path (file_at table (Z.of_nat n))) eqn:Htest.
    + right. exists (Z.of_nat n). repeat split; try lia. assumption.
    + destruct IH as [[Hfound Hnone] | (j & Hfound & Hj & Hpass & Hlast)].
      * left. split; [assumption |]. intros i Hi.
        destruct (Z.eq_dec i (Z.of_nat n)) as [-> | Hne]; [assumption |].
        apply Hnone. lia.
      * right. exists j. repeat split; try assumption; try lia.
        intros k Hk.
        destruct (Z.eq_dec k (Z.of_nat n)) as [-> | Hne]; [assumption |].
        apply Hlast. lia.
Qed.

Lemma search_existing_spec (path : string) (table : list CrudFileAllocationType) :
  (search_existing path table = (0, 0) /\
   forall i, in_table i -> ~ passes_name_test path (file_at table i)) \/
  (exists j, search_existing path table = (1, j) /\ in_table j /\
     passes_name_test path (file_at table j) /\
     forall k, j < k < CRUD_MAX_TOTAL_FILES ->
       ~ passes_name_test path (file_at table k)).
Proof.
  unfold search_existing, in_table.
  destruct (Z.le_gt_cases CRUD_MAX_TOTAL_FILES 0) as [Hle | Hgt].
  - left. rewrite seqZ_nil by assumption. split; [reflexivity |]. intros i Hi. lia.
  - pose proof (search_scan path table (Z.to_nat CRUD_MAX_TOTAL_FILES)) as Hscan.
    rewrite Z2Nat.id in Hscan by lia. simpl in Hscan.
    destruct Hscan as [[Hfound Hnone] | (j & Hfound & Hj & Hpass & Hlast)].
    + left. split; [assumption |]. intros i Hi Hp.
      apply name_test_spec in Hp. rewrite Hnone in Hp by assumption. discriminate.
    + right. exists j.
      split; [assumption |]. split; [lia |].
      split; [apply name_test_spec; assumption |].
      intros k Hk Hp. apply name_test_spec in Hp.
      rewrite Hlast in Hp by assumption. discriminate.
Qed.

(** [find] over a range of indices gives the first index that passes. *)
Lemma find_seqZ (test : Z -> bool) (n : nat) (m : Z) :
  match List.find test (seqZ m (Z.of_nat n)) with
  | Some i =>
      m <= i < m + Z.of_nat n /\ test i = true /\
      forall k, m <= k < i -> test k = false
  | None => forall k, m <= k < m + Z.of_nat n -> test k = false
  end.
Proof.
  revert m. induction n as [| n IH]; intros m.
  - simpl. intros k Hk. lia.
  - rewrite seqZ_cons by lia. simpl.
    replace (Z.pred (Z.of_nat (S n))) with (Z.of_nat n) by lia.
    destruct (test m) eqn:Hm.
    + repeat split; try lia. assumption.
    + specialize (IH (Z.succ m)).
      destruct (List.find test (seqZ (Z.succ m) (Z.of_nat n))) as [i |].
      * destruct IH as (Hi & Hpass & Hfirst). repeat split; try lia.
        -- assumption.
        -- intros k Hk. destruct (Z.eq_dec k m) as [-> | Hne]; [assumption |].
           apply Hfirst. lia.
      * intros k Hk. destruct (Z.eq_dec k m) as [-> | Hne]; [assumption |].
        apply IH. lia.
Qed.

Lemma find_unused_spec (table : list CrudFileAllocationType) :
  match find_unused table with
  | Some i =>
      in_table i /\ unused (file_at table i) /\
      forall k, 0 <= k < i -> ~ unused (file_at table k)
  | None => forall k, in_table k -> ~ unused (file_at table k)
  end.
Proof.
  unfold find_unused, in_table.
  destruct (Z.le_gt_cases CRUD_MAX_TOTAL_FILES 0) as [Hle | Hgt].
  - rewrite seqZ_nil by assumption. simpl. intros k Hk. lia.
  - pose proof (find_seqZ (fun i => unused_test (file_at table i))
                  (Z.to_nat CRUD_MAX_TOTAL_FILES) 0) as Hfind.
    rewrite Z2Nat.id in Hfind by lia. unfold unused_test in Hfind at 1.
    destruct (List.find _ (seqZ 0 CRUD_MAX_TOTAL_FILES)) as [i |].
    + destruct Hfind as (Hi & Hpass & Hfirst).
      split; [lia |]. split; [apply unused_test_spec; assumption |].
      intros k Hk Hu. apply unused_test_spec in Hu.
      rewrite Hfirst in Hu by lia. discriminate.
    + intros k Hk Hu. apply unused_test_spec in Hu.
      rewrite Hfind in Hu by lia. discriminate.
Qed.


Lemma int16_small (z : Z) : - 2 ^ 15 <= z < 2 ^ 15 -> int16 z = z.
Proof. intros Hz. unfold int16. rewrite Z.mod_small by lia. lia. Qed.

Lemma file_at_lookup (table : list CrudFileAllocationType) (i : Z)
    (f : CrudFileAllocationType) :
  table !! Z.to_nat i = Some f -> file_at table i = f.
Proof. intros Hf. unfold file_at. rewrite Hf. reflexivity. Qed.

(** An index past the end of the table reads as an entry without a name
    that is not open. *)
Lemma file_at_lookup_inv (table : list CrudFileAllocationType) (i : Z) :
  file_at table i <> zero_file ->
  table !! Z.to_nat i = Some (file_at table i).
Proof.
  unfold file_at. destruct (table !! Z.to_nat i); simpl; [reflexivity |].
  intros Hne. contradiction.
Qed.

Lemma file_at_set_file (table : list CrudFileAllocationType) (i : Z)
    (f g : CrudFileAllocationType) :
  table !! Z.to_nat i = Some g -> file_at (set_file table i f) i = f.
Proof.
  intros Hg. unfold file_at, set_file.
  rewrite list_lookup_insert_eq by (eapply lookup_lt_Some; eassumption).
  reflexivity.
Qed.

Lemma set_file_twice (table : list CrudFileAllocationType) (i : Z)
    (f g : CrudFileAllocationType) :
  set_file (set_file table i f) i g = set_file table i g.
Proof. unfold set_file. apply list_insert_insert_eq. Qed.

(** The INIT block: no exchange once the flag is set; otherwise one INIT
    exchange, and the flag is set when it succeeds. *)
Lemma init_store_cases (st : state) :
  (INITIALIZED st <> 0 /\ init_store st = (true, st)) \/
  (INITIALIZED st = 0 /\
   exists response buf' w,
     crud_client_operation (world st) (create_crud_request 0 CRUD_INIT 0 0 0)
       None = (response, buf', w) /\
     let log := wire st ++ [(create_crud_request 0 CRUD_INIT 0 0 0, response)] in
     init_store st =
     if f_result (extract_crud_response response) =? 0
     then (true, mkState (crud_file_table st) 1 w log)
     else (false, mkState (crud_file_table st) 0 w log)).
Proof.
  unfold init_store, bind, get_INITIALIZED, client, ret, set_INITIALIZED.
  destruct (INITIALIZED st =? 0) eqn:Hinit.
  - right. apply Z.eqb_eq in Hinit. split; [assumption |].
    destruct (crud_client_operation (world st) _ None) as [[response buf'] w].
    exists response, buf', w. split; [reflexivity |]. simpl.
    rewrite Hinit.
    destruct (f_result (extract_crud_response response) =? 0); reflexivity.
  - left. apply Z.eqb_neq in Hinit. split; [assumption | reflexivity].
Qed.

Lemma init_store_table (st : state) :
  crud_file_table (snd (init_store st)) = crud_file_table st.
Proof.
  destruct (init_store_cases st) as [[_ ->] | (_ & response & buf' & w & _ & ->)].
  - reflexivity.
  - destruct (f_result (extract_crud_response response) =? 0); reflexivity.
Qed.


(** What [crud_open] does once the INIT block let it through: it reuses
    the last entry that passes the name comparison, else claims the first
    entry that is closed and has no name, else fails. *)
Lemma crud_open_cases (path : string) (st : state) :
  let st1 := snd (init_store st) in
  let table := crud_file_table st in
  (fst (init_store st) = false -> crud_open path st = (-1, st1)) /\
  (fst (init_store st) = true ->
   (exists j, in_table j /\ passes_name_test path (file_at table j) /\
      table !! Z.to_nat j = Some (file_at table j) /\
      (forall k, j < k < CRUD_MAX_TOTAL_FILES ->
         ~ passes_name_test path (file_at table k)) /\
      crud_open path st =
      (int16 j, set_table st1
            (set_file table j
               (File.mk (File.filename (file_at table j))
                  (File.object_id (file_at table j)) 0
                  (File.length (file_at table j)) 1)))) \/
   ((forall j, in_table j -> ~ passes_name_test path (file_at table j)) /\
    exists i, in_table i /\ unused (file_at table i) /\
      (forall k, 0 <= k < i -> ~ unused (file_at table k)) /\
      crud_open path st =
      (int16 i, set_table st1 (claim_entry table i path))) \/
   ((forall j, in_table j ->
       ~ passes_name_test path (file_at table j) /\ ~ unused (file_at table j)) /\
    crud_open path st = (-1, st1))).
Proof.
  intros st1 table.
  pose proof (init_store_table st) as Htable. fold st1 in Htable.
  unfold crud_open, bind. destruct (init_store st) as [ok st'] eqn:Hinit.
  simpl in st1, Htable. subst st1.
  split.
  { simpl. intros ->. reflexivity. }
  simpl. intros ->. simpl.
  unfold get_table. rewrite Htable. fold table.
  destruct (search_existing_spec path table)
    as [[-> Hnone] | (j & -> & Hj & Hpass & Hlast)].
  - (* no entry passes the comparison *)
    cbn [Z.eqb negb].
    pose proof (find_unused_spec table) as Hfree.
    destruct (find_unused table) as [i |].
    + right. left. destruct Hfree as (Hi & Hunused & Hfirst).
      split; [assumption |].
      exists i. split; [assumption |]. split; [assumption |].
      split; [assumption |].
      unfold put_table, ret, set_table. reflexivity.
    + right. right. split.
      * intros j Hj. split; [apply Hnone | apply Hfree]; assumption.
      * reflexivity.
  - (* the last entry that passes the comparison *)
    cbn [Z.eqb negb]. left. exists j. split; [assumption |].
    split; [assumption |].
    assert (Hlook : table !! Z.to_nat j = Some (file_at table j)).
    { apply file_at_lookup_inv. intros Hz. destruct Hpass as [Hne _].
      rewrite Hz in Hne. apply Hne. reflexivity. }
    split; [assumption |]. split; [assumption |].
    unfold set_open, set_position, bind, get_file, put_file, ret, set_table.
    cbn [crud_file_table INITIALIZED world wire fst snd].
    rewrite Htable. fold table.
    rewrite (file_at_set_file table j _ _ Hlook).
    cbn [File.filename File.object_id File.position File.length File.open].
    rewrite set_file_twice. reflexivity.
Qed.

Lemma append_empty_r (s : string) : (s ++ "")%string = s.
Proof.
  induction s as [| c s IH]; [reflexivity |].
  rewrite append_String, IH. reflexivity.
Qed.

(** C3 (amended).  [crud_open path], for a path that fits the name array
    of an entry, and a table of at most [2 ^ 15] entries, whose indices
    the [int16_t] result holds.  It first runs the INIT block: when
    [INITIALIZED] is set there is no exchange; else there is one exchange, of the request INIT,
    and when its response reports a failure the call returns -1 with the
    table and the flag as they were, whatever the table holds; when it
    reports success the flag is set.  Then, on a table in which every entry
    that passes the name comparison of the code is called [path]: the last
    entry called [path], if there is one, open or closed, is reused (marked
    open, position 0, name, object and length kept, every other entry
    kept) and its index returned; else the first entry that is closed and
    has no name is claimed with name [path], no object, length 0,
    position 0, open, and its index returned; and -1 is returned, the table
    unchanged, exactly when no entry is called [path] and none is closed
    without a name.  Here [response] and [w] are the response and the world
    the INIT exchange gives. *)
Theorem crud_open_spec (path : string) (st : state) (response : Z)
    (buf' : option buffer) (w : World) :
  CRUD_MAX_TOTAL_FILES <= 2 ^ 15 ->
  Z.of_nat (strlen path) < CRUD_MAX_PATH_LENGTH ->
  let table := crud_file_table st in
  let request := create_crud_request 0 CRUD_INIT 0 0 0 in
  let log := wire st ++ [(request, response)] in
  let st1 := if INITIALIZED st =? 0 then mkState table 1 w log else st in
  crud_client_operation (world st) request None = (response, buf', w) ->
  (INITIALIZED st = 0 -> f_result (extract_crud_response response) <> 0 ->
   crud_open path st = (-1, mkState table 0 w log)) /\
  (INITIALIZED st <> 0 \/ f_result (extract_crud_response response) = 0 ->
   (forall i, in_table i -> passes_name_test path (file_at table i) ->
              File.filename (file_at table i) = path) ->
   (exists j, in_table j /\ named path (file_at table j) /\
      (forall k, j < k < CRUD_MAX_TOTAL_FILES -> ~ named path (file_at table k)) /\
      crud_open path st =
      (j, set_table st1
            (set_file table j
               (File.mk (File.filename (file_at table j))
                  (File.object_id (file_at table j)) 0
                  (File.length (file_at table j)) 1)))) \/
   ((forall j, in_table j -> ~ named path (file_at table j)) /\
    exists i, in_table i /\ unused (file_at table i) /\
      (forall k, 0 <= k < i -> ~ unused (file_at table k)) /\
      crud_open path st =
      (i, set_table st1 (set_file table i (File.mk path CRUD_NO_OBJECT 0 0 1)))) \/
   ((forall j, in_table j ->
       ~ named path (file_at table j) /\ ~ unused (file_at table j)) /\
    crud_open path st = (-1, st1))).
Proof.
  intros Hmax Hfits table request log st1 Hexchange.
  destruct (crud_open_cases path st) as [Hfail Hok].
  assert (Hinit :
    (INITIALIZED st <> 0 /\ init_store st = (true, st)) \/
    (INITIALIZED st = 0 /\
     init_store st =
     if f_result (extract_crud_response response) =? 0
     then (true, mkState table 1 w log)
     else (false, mkState table 0 w log))).
  { destruct (init_store_cases st)
      as [Hset | (Hzero & r & b & w1 & Hex & Heq)]; [left; exact Hset |].
    right. split; [exact Hzero |].
    fold request in Hex. rewrite Hexchange in Hex. injection Hex as <- _ <-.
    exact Heq. }
  split.
  { intros Hzero Hresult.
    destruct Hinit as [[Hset _] | [_ Heq]]; [contradiction |].
    replace (f_result (extract_crud_response response) =? 0) with false in Heq
      by lia.
    rewrite Heq in Hfail. exact (Hfail eq_refl). }
  intros Hgo Hexact.
  assert (Hstore : init_store st = (true, st1)).
  { subst st1. destruct Hinit as [[Hset Heq] | [Hzero Heq]].
    - replace (INITIALIZED st =? 0) with false by lia. exact Heq.
    - replace (INITIALIZED st =? 0) with true by lia.
      destruct Hgo as [Hset | Hresult]; [contradiction |].
      replace (f_result (extract_crud_response response) =? 0) with true in Heq
        by lia.
      exact Heq. }
  rewrite Hstore in Hok. cbn [fst snd] in Hok.
  assert (Hnamed : forall i, in_table i ->
            (passes_name_test path (file_at table i) <->
             named path (file_at table i))).
  { intros i Hi. split.
    - intros Hp. split; [apply Hp | apply Hexact; assumption].
    - intros [Hne Heq]. split; [assumption |]. exists ""%string.
      rewrite Heq, append_empty_r. reflexivity. }
  destruct (Hok eq_refl)
    as [(j & Hj & Hpass & _ & Hlast & Hopen) |
        [(Hnone & i & Hi & Hunused & Hfirst & Hopen) | (Hnone & Hopen)]].
  - rewrite int16_small in Hopen by (unfold in_table in Hj; lia).
    left. exists j. split; [assumption |].
    split; [apply Hnamed; assumption |].
    split; [| exact Hopen].
    intros k Hk Hn. apply (Hlast k Hk). apply Hnamed; [| assumption].
    unfold in_table in *. lia.
  - right. left. split.
    + intros j Hj Hn. apply (Hnone j Hj). apply Hnamed; assumption.
    + rewrite int16_small in Hopen by (unfold in_table in Hi; lia).
      unfold claim_entry in Hopen.
      replace (Z.of_nat (strlen path) <? CRUD_MAX_PATH_LENGTH) with true
        in Hopen by lia.
      exists i. repeat (split; [assumption |]). exact Hopen.
  - right. right. split; [| exact Hopen].
    intros j Hj. destruct (Hnone j Hj) as [Hnp Hnu]. split; [| assumption].
    intros Hn. apply Hnp. apply Hnamed; assumption.
Qed.

End OpenProperties.

(** ** Reading *)

Section ReadProperties.
Context `{CrudProtocol} `{CrudFileTable} `{CrudClient}.

(** The copy loop of lines 419-424, started with [count - i] rounds to go:
    it copies [min (count - i) (length - position)] bytes, none when the
    position is at or past the length. *)
Lemma read_loop_copies (fuel : nat) (count len : Z) (tempBuf : buffer) :
  forall (i position bytesRead : Z) (tempBuf2 : buffer),
    Z.of_nat fuel = count - i ->
    let n := Z.max 0 (Z.min (count - i) (len - position)) in
    exists filled,
      read_loop fuel count len tempBuf i position bytesRead tempBuf2 =
      (position + n, bytesRead + n, filled) /\
      forall k, filled k =
        if (i <=? k) && (k <? i + n) then tempBuf (position + (k - i))
        else tempBuf2 k.
Proof.
  induction fuel as [| fuel IH]; intros i position bytesRead tempBuf2 Hfuel n.
  - exists tempBuf2. subst n. replace (Z.max 0 _) with 0 by lia. simpl.
    rewrite !Z.add_0_r. split; [reflexivity |].
    intros k. destruct (i <=? k) eqn:Hik; simpl; [| reflexivity].
    replace (k <? i) with false by lia. reflexivity.
  - simpl. replace (i <? count) with true by lia.
    destruct (position <? len) eqn:Hpos; simpl.
    + destruct (IH (i + 1) (position + 1) (bytesRead + 1)
                  (memcpy tempBuf2 i tempBuf position 1) ltac:(lia))
        as (filled & Hloop & Hfilled).
      exists filled. rewrite Hloop. subst n. split.
      * f_equal; f_equal; lia.
      * intros k. rewrite Hfilled. unfold memcpy.
        set (m := Z.max 0 (Z.min (count - (i + 1)) (len - (position + 1)))).
        assert (Hm : Z.max 0 (Z.min (count - i) (len - position)) = m + 1)
          by (subst m; lia).
        rewrite Hm.
        destruct (Z.eq_dec k i) as [-> | Hne].
        -- replace ((i + 1 <=? i) && (i <? i + 1 + m)) with false
             by (symmetry; apply andb_false_iff; left; lia).
           replace ((i <=? i) && (i <? i + 1)) with true
             by (symmetry; apply andb_true_iff; split; lia).
           replace ((i <=? i) && (i <? i + (m + 1))) with true
             by (symmetry; apply andb_true_iff; subst m; split; lia).
           reflexivity.
        -- replace ((i <=? k) && (k <? i + 1)) with false
             by (symmetry; apply andb_false_iff; lia).
           replace ((i + 1 <=? k) && (k <? i + 1 + m))
             with ((i <=? k) && (k <? i + (m + 1))).
           ++ destruct ((i <=? k) && (k <? i + (m + 1))); [f_equal; lia | reflexivity].
           ++ apply eq_true_iff_eq. rewrite !andb_true_iff. lia.
    + exists tempBuf2. subst n. replace (Z.max 0 _) with 0 by lia.
      rewrite !Z.add_0_r. split; [reflexivity |].
      intros k. destruct (i <=? k) eqn:Hik; simpl; [| reflexivity].
      replace (k <? i) with false by lia. reflexivity.
Qed.


Lemma handle_in_range (fd : Z) :
  0 <= fd <= CRUD_MAX_TOTAL_FILES - 1 ->
  (fd <? 0) || (fd >? CRUD_MAX_TOTAL_FILES - 1) = false.
Proof. intros Hfd. apply orb_false_iff. split; lia. Qed.

Lemma open_test (f : CrudFileAllocationType) :
  File.open f <> 0 -> (File.open f =? 0) = false.
Proof. intros Hopen. apply Z.eqb_neq. assumption. Qed.

Lemma protocol_ok_read :
  protocol_ok -> 0 <= CRUD_READ < 2 ^ 4 /\ 0 <= CRUD_MAX_OBJECT_SIZE < 2 ^ 24.
Proof.
  intros [Hrange _ _ _ Hmax _]. split; [| assumption].
  rewrite !Forall_cons in Hrange. tauto.
Qed.

(** What [crud_read] does on an open handle. *)
Lemma crud_read_cases (st : state) (fd count : Z) (dst : buffer)
    (f : CrudFileAllocationType) :
  0 <= fd <= CRUD_MAX_TOTAL_FILES - 1 ->
  crud_file_table st !! Z.to_nat fd = Some f ->
  File.open f <> 0 ->
  (File.length f = 0 \/ count < 1 ->
   crud_read fd (Some dst) count st = ((0, Some dst), st)) /\
  (File.length f <> 0 -> 1 <= count ->
   forall response tempBuf w,
     let request :=
       create_crud_request (File.object_id f) CRUD_READ CRUD_MAX_OBJECT_SIZE
         0 0 in
     crud_client_operation (world st) request
       (Some (malloc CRUD_MAX_OBJECT_SIZE)) = (response, tempBuf, w) ->
     f_result (extract_crud_response response) = 0 ->
     let len := f_length (extract_crud_response response) in
     let n := Z.max 0 (Z.min count (len - File.position f)) in
     exists dst',
       crud_read fd (Some dst) count st =
       ((n, Some dst'),
        {| crud_file_table :=
             set_file (crud_file_table st) fd
               (File.mk (File.filename f)
                  (f_object_id (extract_crud_response response))
                  (File.position f + n) len (File.open f));
           INITIALIZED := INITIALIZED st; world := w;
           wire := wire st ++ [(request, response)] |}) /\
       (forall k, 0 <= k < n -> dst' k = deref tempBuf (File.position f + k)) /\
       (forall k, ~ 0 <= k < n -> dst' k = dst k) /\
       (forall objects,
          protocol_ok -> faithful_store objects ->
          0 <= File.object_id f < 2 ^ 32 -> 0 <= File.position f ->
          exists content,
            objects (world st) !! File.object_id f = Some content /\
            len = Z.of_nat (length content) /\
            forall k, 0 <= k < n ->
              dst' k = nth (Z.to_nat (File.position f + k)) content 0)).
Proof.
  intros Hfd Hf Hopen.
  pose proof (file_at_lookup _ _ _ Hf) as Hat.
  split.
  - intros Hzero. unfold crud_read, bind, get_file, ret.
    rewrite handle_in_range by assumption. rewrite Hat, open_test by assumption.
    destruct (File.length f =? 0) eqn:Hlen; [reflexivity |].
    destruct Hzero as [Hz | Hcount]; [lia |].
    replace (count <? 1) with true by lia. reflexivity.
  - intros Hlen Hcount response tempBuf w request Hexchange Hresult len n.
    destruct (read_loop_copies (Z.to_nat count) count len (deref tempBuf)
                0 (File.position f) 0 (malloc count) ltac:(lia))
      as (filled & Hloop & Hfilled).
    rewrite Z.sub_0_r, Z.add_0_l in Hloop. fold n in Hloop.
    rewrite Z.sub_0_r in Hfilled. fold n in Hfilled.
    exists (memcpy dst 0 filled 0 n).
    split; [| split; [| split]].
    + unfold crud_read, bind, get_file, ret.
      rewrite handle_in_range by assumption. rewrite Hat, open_test by assumption.
      replace (File.length f =? 0) with false by lia.
      replace (count <? 1) with false by lia.
      monad. fold request. rewrite Hexchange. monad.
      rewrite Hat, Hresult. cbn [Z.eqb negb]. fields.
      rewrite (file_at_set_file _ fd _ _ Hf). fields.
      fold len. rewrite Hloop. monad.
      rewrite (file_at_set_file _ fd _ _ Hf). fields.
      rewrite set_file_twice. reflexivity.
    + intros k Hk. unfold memcpy.
      replace ((0 <=? k) && (k <? 0 + n)) with true
        by (symmetry; apply andb_true_iff; split; lia).
      rewrite Hfilled.
      replace ((0 <=? 0 + (k - 0)) && (0 + (k - 0) <? 0 + n)) with true
        by (symmetry; apply andb_true_iff; split; lia).
      f_equal. lia.
    + intros k Hk. unfold memcpy.
      replace ((0 <=? k) && (k <? 0 + n)) with false
        by (symmetry; apply andb_false_iff; lia).
      reflexivity.
    + intros objects Hproto Hstore Hoid Hpos.
      destruct (protocol_ok_read Hproto) as [Hread Hmax].
      assert (Hq : extract_crud_response request =
                   mkFields (File.object_id f) CRUD_READ CRUD_MAX_OBJECT_SIZE 0 0).
      { subst request. apply codec_fields; lia. }
      destruct tempBuf as [filledBuf |].
      2:{ destruct (read_ok objects Hstore _ _ _ _ _ _ Hexchange)
            as (content & b' & _ & _ & _ & Hnone & _);
            rewrite ?Hq; try reflexivity; try assumption. discriminate. }
      destruct (read_ok objects Hstore _ _ _ _ _ _ Hexchange)
        as (content & b' & Hcontent & _ & Hlength & Hb' & Hbytes & _);
        rewrite ?Hq; try reflexivity; try assumption.
      rewrite Hq in Hcontent. cbn [f_object_id] in Hcontent.
      injection Hb' as <-.
      exists content. split; [assumption |]. split; [assumption |].
      intros k Hk. unfold memcpy.
      replace ((0 <=? k) && (k <? 0 + n)) with true
        by (symmetry; apply andb_true_iff; split; lia).
      rewrite Hfilled.
      replace ((0 <=? 0 + (k - 0)) && (0 + (k - 0) <? 0 + n)) with true
        by (symmetry; apply andb_true_iff; split; lia).
      cbn [deref default]. rewrite Hbytes. unfold store_bytes.
      fold len in Hlength.
      replace ((0 <=? File.position f + (0 + (k - 0) - 0)) &&
               (File.position f + (0 + (k - 0) - 0) <?
                0 + Z.of_nat (length content))) with true
        by (symmetry; apply andb_true_iff; split; lia).
      f_equal. lia.
Qed.


(** A READ that the store refuses makes [crud_read] fail. *)
Lemma crud_read_refused (st : state) (fd count : Z) (dst : buffer)
    (f : CrudFileAllocationType) :
  0 <= fd <= CRUD_MAX_TOTAL_FILES - 1 ->
  crud_file_table st !! Z.to_nat fd = Some f ->
  File.open f <> 0 -> File.length f <> 0 -> 1 <= count ->
  forall response tempBuf w,
    crud_client_operation (world st)
      (create_crud_request (File.object_id f) CRUD_READ CRUD_MAX_OBJECT_SIZE
         0 0)
      (Some (malloc CRUD_MAX_OBJECT_SIZE)) = (response, tempBuf, w) ->
    f_result (extract_crud_response response) <> 0 ->
    fst (fst (crud_read fd (Some dst) count st)) = -1.
Proof.
  intros Hfd Hf Hopen Hlen Hcount response tempBuf w Hexchange Hresult.
  pose proof (file_at_lookup _ _ _ Hf) as Hat.
  unfold crud_read. monad.
  rewrite handle_in_range by assumption. rewrite Hat, open_test by assumption.
  replace (File.length f =? 0) with false by lia.
  replace (count <? 1) with false by lia.
  rewrite Hexchange. monad.
  replace (f_result (extract_crud_response response) =? 0) with false by lia.
  reflexivity.
Qed.

(** C4.  For an open handle in range and a buffer that is not null,
    [crud_read] returns 0 without an exchange when the file is empty or
    [count < 1].  Otherwise it issues one READ of the whole object; when that
    succeeds, with [len] the length the response reports (which the code
    stores as the length of the file), it returns
    [min count (len - position)], or 0 when the position is at or past
    [len], copies that many bytes of the buffer the READ filled, from the
    position on, to the start of the caller's buffer, and advances the
    position by that amount.  With a store that keeps its contract the bytes
    are those of the object, and [len] is its length. *)
Theorem crud_read_postcondition (st : state) (fd count : Z) (dst : buffer)
    (f : CrudFileAllocationType) :
  0 <= fd <= CRUD_MAX_TOTAL_FILES - 1 ->
  crud_file_table st !! Z.to_nat fd = Some f ->
  File.open f <> 0 ->
  (File.length f = 0 \/ count < 1 ->
   crud_read fd (Some dst) count st = ((0, Some dst), st)) /\
  (File.length f <> 0 -> 1 <= count ->
   forall response tempBuf w,
     let request :=
       create_crud_request (File.object_id f) CRUD_READ CRUD_MAX_OBJECT_SIZE
         0 0 in
     crud_client_operation (world st) request
       (Some (malloc CRUD_MAX_OBJECT_SIZE)) = (response, tempBuf, w) ->
     f_result (extract_crud_response response) = 0 ->
     let len := f_length (extract_crud_response response) in
     let n := Z.max 0 (Z.min count (len - File.position f)) in
     exists dst',
       crud_read fd (Some dst) count st =
       ((n, Some dst'),
        {| crud_file_table :=
             set_file (crud_file_table st) fd
               (File.mk (File.filename f)
                  (f_object_id (extract_crud_response response))
                  (File.position f + n) len (File.open f));
           INITIALIZED := INITIALIZED st; world := w;
           wire := wire st ++ [(request, response)] |}) /\
       (forall k, 0 <= k < n -> dst' k = deref tempBuf (File.position f + k)) /\
       (forall k, ~ 0 <= k < n -> dst' k = dst k) /\
       (forall objects,
          protocol_ok -> faithful_store objects ->
          0 <= File.object_id f < 2 ^ 32 -> 0 <= File.position f ->
          exists content,
            objects (world st) !! File.object_id f = Some content /\
            len = Z.of_nat (length content) /\
            forall k, 0 <= k < n ->
              dst' k = nth (Z.to_nat (File.position f + k)) content 0)).
Proof. apply crud_read_cases. Qed.

End ReadProperties.

(** Runs the table accesses in [H], where [Hf] says what entry [fd] was. *)
Ltac table_in H fd Hf :=
  repeat progress
    (monad_in H;
     rewrite ?set_file_twice in H;
     rewrite ?(file_at_set_file _ fd _ _ Hf) in H;
     fields_in H).

(** ** Writing, over a store that keeps its contract *)

Section WriteProperties.
Context `{CrudProtocol} `{CrudFileTable} `{CrudClient}.
Variable objects : World -> gmap Z (list Z).
Hypothesis Hproto : protocol_ok.
Hypothesis Hstore : faithful_store objects.

Lemma protocol_ranges :
  0 <= CRUD_CREATE < 2 ^ 4 /\ 0 <= CRUD_READ < 2 ^ 4 /\
  0 <= CRUD_UPDATE < 2 ^ 4 /\ 0 <= CRUD_DELETE < 2 ^ 4 /\
  0 <= CRUD_MAX_OBJECT_SIZE < 2 ^ 24 /\ 0 <= CRUD_NO_OBJECT < 2 ^ 32.
Proof.
  destruct Hproto as [Hrange _ _ _ Hmax Hno].
  rewrite !Forall_cons in Hrange. tauto.
Qed.

Lemma response_id_range (w : Z) :
  0 <= f_object_id (extract_crud_response w) < 2 ^ 32.
Proof. destruct (extract_crud_response_bounds w) as [Hid _]. exact Hid. Qed.

Lemma response_length_range (w : Z) :
  0 <= f_length (extract_crud_response w) < 2 ^ 24.
Proof. destruct (extract_crud_response_bounds w) as (_ & _ & Hlen & _). exact Hlen. Qed.

Lemma uint32_small (z : Z) : 0 <= z < 2 ^ 32 -> uint32 z = z.
Proof. intros Hz. unfold uint32. apply Z.mod_small. assumption. Qed.

Lemma int32_small (z : Z) : - 2 ^ 31 <= z < 2 ^ 31 -> int32 z = z.
Proof. intros Hz. unfold int32. rewrite Z.mod_small by lia. lia. Qed.

Lemma bytes_of_memcpy_source (dst src : buffer) (n : Z) :
  bytes_of (memcpy dst 0 src 0 n) 0 n = bytes_of src 0 n.
Proof.
  apply bytes_of_ext. intros k Hk. unfold memcpy.
  replace ((0 <=? k) && (k <? 0 + n)) with true
    by (symmetry; apply andb_true_iff; split; lia).
  f_equal. lia.
Qed.

(** CASE 0 of [crud_write]: a file without an object.  A write that does
    not fail creates an object holding the [count] bytes under a new
    identifier and leaves the position at [count]. *)
Lemma write_create (st st' : state) (fd count r : Z) (src : buffer)
    (f : CrudFileAllocationType) :
  0 <= fd <= CRUD_MAX_TOTAL_FILES - 1 ->
  crud_file_table st !! Z.to_nat fd = Some f ->
  File.open f <> 0 ->
  File.object_id f = CRUD_NO_OBJECT ->
  1 <= count <= CRUD_MAX_OBJECT_SIZE ->
  crud_write fd (Some src) count st = (r, st') ->
  r <> -1 ->
  r = count /\
  exists oid response w,
    st' = mkState
            (set_file (crud_file_table st) fd
               (File.mk (File.filename f) oid count count (File.open f)))
            (INITIALIZED st) w
            (wire st ++ [(create_crud_request 0 CRUD_CREATE count 0 0, response)]) /\
    0 <= oid < 2 ^ 32 /\
    objects (world st) !! oid = None /\
    objects w = <[oid := bytes_of src 0 count]> (objects (world st)).
Proof.
  intros Hfd Hf Hopen Hno Hcount Hwrite Hr.
  pose proof (file_at_lookup _ _ _ Hf) as Hat.
  destruct protocol_ranges as (Hcreate & _ & _ & _ & Hmax & _).
  unfold crud_write in Hwrite. monad_in Hwrite.
  rewrite handle_in_range in Hwrite by assumption.
  rewrite Hat, open_test in Hwrite by assumption.
  replace (count <? 1) with false in Hwrite by lia.
  rewrite Hno, Z.eqb_refl in Hwrite.
  set (request := create_crud_request 0 CRUD_CREATE count 0 0) in *.
  set (tempBuf := memcpy (malloc count) 0 src 0 count) in *.
  destruct (crud_client_operation (world st) request (Some tempBuf))
    as [[response b] w] eqn:Hexchange.
  monad_in Hwrite. rewrite Hat in Hwrite.
  destruct (f_result (extract_crud_response response) =? 0) eqn:Hresult;
    cbn [negb] in Hwrite; [| injection Hwrite as <- _; contradiction].
  apply Z.eqb_eq in Hresult.
  monad_in Hwrite. rewrite (file_at_set_file _ fd _ _ Hf) in Hwrite.
  fields_in Hwrite. rewrite set_file_twice in Hwrite.
  injection Hwrite as <- <-. split; [reflexivity |].
  assert (Hq : extract_crud_response request = mkFields 0 CRUD_CREATE count 0 0)
    by (subst request; apply codec_fields; lia).
  destruct (create_ok objects Hstore _ _ _ _ _ _ Hexchange)
    as (Hfresh & Hobjects & Hlength);
    rewrite ?Hq; try reflexivity; try assumption.
  rewrite Hq in Hobjects, Hlength. cbn [f_length] in Hobjects, Hlength.
  exists (f_object_id (extract_crud_response response)), response, w.
  split.
  { rewrite Hlength, uint32_small by lia. reflexivity. }
  split; [apply response_id_range |].
  split; [assumption |].
  rewrite Hobjects. subst tempBuf. rewrite bytes_of_memcpy_source. reflexivity.
Qed.


(** The bytes of a buffer that agrees with [content] on its extent. *)
Lemma bytes_of_content (b : buffer) (content : list Z) (a n : Z) :
  (forall k, 0 <= k < Z.of_nat (length content) ->
             b k = nth (Z.to_nat k) content 0) ->
  0 <= a -> 0 <= n -> a + n <= Z.of_nat (length content) ->
  bytes_of b a n = take (Z.to_nat n) (drop (Z.to_nat a) content).
Proof.
  intros Hb Ha Hn Hlen. apply list_eq. intros i.
  unfold bytes_of. rewrite list_lookup_fmap.
  destruct (decide (i < Z.to_nat n)%nat) as [Hlt | Hge].
  - rewrite lookup_seqZ_lt by lia. simpl.
    rewrite lookup_take_lt by assumption. rewrite lookup_drop.
    rewrite Hb by lia.
    replace (Z.to_nat (a + Z.of_nat i)) with (Z.to_nat a + i)%nat by lia.
    rewrite nth_lookup.
    destruct (content !! (Z.to_nat a + i)%nat) eqn:Hc; [reflexivity |].
    apply lookup_ge_None in Hc. lia.
  - rewrite lookup_seqZ_ge by lia. simpl.
    symmetry. apply lookup_take_ge. lia.
Qed.

Lemma store_bytes_inside (dst : buffer) (content : list Z) (k : Z) :
  0 <= k < Z.of_nat (length content) ->
  store_bytes dst 0 content k = nth (Z.to_nat k) content 0.
Proof.
  intros Hk. unfold store_bytes.
  replace ((0 <=? k) && (k <? 0 + Z.of_nat (length content))) with true
    by (symmetry; apply andb_true_iff; split; lia).
  f_equal. lia.
Qed.

(** The bytes an in-place or growing write sends: the old content up to
    the position, the [count] new bytes, and whatever old content lies
    beyond them within [total]. *)
Lemma bytes_of_overwrite (b src : buffer) (content : list Z)
    (position count total : Z) :
  (forall k, 0 <= k < Z.of_nat (length content) ->
             b k = nth (Z.to_nat k) content 0) ->
  0 <= position <= Z.of_nat (length content) -> 0 <= count ->
  total = Z.max (Z.of_nat (length content)) (position + count) ->
  bytes_of (memcpy b position src 0 count) 0 total =
  take (Z.to_nat position) content ++ bytes_of src 0 count ++
  drop (Z.to_nat (position + count)) content.
Proof.
  intros Hb Hpos Hcount Htotal.
  replace total with (position + (count + (total - (position + count)))) by lia.
  rewrite bytes_of_app by lia. rewrite bytes_of_app by lia.
  rewrite Z.add_0_l. f_equal; [| f_equal].
  - rewrite (bytes_of_ext _ b).
    + rewrite (bytes_of_content b content 0 position); try lia.
      * rewrite drop_0. reflexivity.
      * assumption.
    + intros k Hk. unfold memcpy.
      replace ((position <=? k) && (k <? position + count)) with false
        by (symmetry; apply andb_false_iff; lia).
      reflexivity.
  - apply list_eq. intros i. unfold bytes_of. rewrite !list_lookup_fmap.
    destruct (decide (i < Z.to_nat count)%nat) as [Hlt | Hge].
    + rewrite !lookup_seqZ_lt by lia. simpl. unfold memcpy.
      replace ((position <=? position + Z.of_nat i) &&
               (position + Z.of_nat i <? position + count)) with true
        by (symmetry; apply andb_true_iff; split; lia).
      do 2 f_equal. lia.
    + rewrite !lookup_seqZ_ge by lia. reflexivity.
  - rewrite (bytes_of_ext _ b).
    + destruct (Z.le_gt_cases (total - (position + count)) 0) as [Hle | Hgt].
      * unfold bytes_of. rewrite seqZ_nil by assumption. simpl.
        symmetry. apply drop_ge. lia.
      * rewrite (bytes_of_content b content); try lia.
        -- replace (Z.to_nat (total - (position + count)))
             with (length (drop (Z.to_nat (position + count)) content))
             by (rewrite length_drop; lia).
           apply firstn_all.
        -- assumption.
    + intros k Hk. unfold memcpy.
      replace ((position <=? k) && (k <? position + count)) with false
        by (symmetry; apply andb_false_iff; lia).
      reflexivity.
Qed.


(** CASE 1 of [crud_write]: the bytes fit within the file.  A write that
    does not fail leaves the length as it is, replaces the [count] bytes at
    the position in the object and moves the position past them. *)
Lemma write_in_place (st st' : state) (fd count r : Z) (src : buffer)
    (f : CrudFileAllocationType) (content : list Z) :
  0 <= fd <= CRUD_MAX_TOTAL_FILES - 1 ->
  crud_file_table st !! Z.to_nat fd = Some f ->
  File.open f <> 0 ->
  File.object_id f <> CRUD_NO_OBJECT ->
  0 <= File.object_id f < 2 ^ 32 ->
  objects (world st) !! File.object_id f = Some content ->
  Z.of_nat (length content) = File.length f ->
  1 <= count -> 0 <= File.position f ->
  File.position f + count <= File.length f < 2 ^ 32 ->
  crud_write fd (Some src) count st = (r, st') ->
  r <> -1 ->
  r = count /\
  exists w log,
    st' = mkState
            (set_file (crud_file_table st) fd
               (File.mk (File.filename f) (File.object_id f)
                  (File.position f + count) (File.length f) (File.open f)))
            (INITIALIZED st) w log /\
    objects w =
      <[File.object_id f :=
          take (Z.to_nat (File.position f)) content ++ bytes_of src 0 count ++
          drop (Z.to_nat (File.position f + count)) content]>
        (objects (world st)).
Proof.
  intros Hfd Hf Hopen Hobj Hoid Hcontent Hlen Hcount Hpos Hfit Hwrite Hr.
  pose proof (file_at_lookup _ _ _ Hf) as Hat.
  destruct protocol_ranges as (_ & Hread & Hupdate & _ & Hmax & _).
  unfold crud_write in Hwrite. monad_in Hwrite.
  rewrite handle_in_range in Hwrite by assumption.
  rewrite Hat, open_test in Hwrite by assumption.
  replace (count <? 1) with false in Hwrite by lia.
  replace (File.object_id f =? CRUD_NO_OBJECT) with false in Hwrite by lia.
  rewrite (uint32_small (count + File.position f)) in Hwrite by lia.
  replace (File.length f >=? count + File.position f) with true in Hwrite by lia.
  (* READ *)
  set (request := create_crud_request (File.object_id f) CRUD_READ
                    CRUD_MAX_OBJECT_SIZE 0 0) in *.
  assert (Hq : extract_crud_response request =
               mkFields (File.object_id f) CRUD_READ CRUD_MAX_OBJECT_SIZE 0 0)
    by (subst request; apply codec_fields; lia).
  destruct (crud_client_operation (world st) request
              (Some (malloc CRUD_MAX_OBJECT_SIZE)))
    as [[response tempBuf2] w1] eqn:Hexchange.
  monad_in Hwrite. rewrite Hat in Hwrite.
  destruct (f_result (extract_crud_response response) =? 0) eqn:Hresult;
    cbn [negb] in Hwrite; [| injection Hwrite as <- _; contradiction].
  apply Z.eqb_eq in Hresult.
  destruct (read_ok objects Hstore _ _ _ _ _ _ Hexchange)
    as (content' & b' & Hcontent' & Hid & Hlength & -> & Hbytes & Hobjects1);
    rewrite ?Hq; try reflexivity; try assumption.
  rewrite Hq in Hcontent', Hid. cbn [f_object_id] in Hcontent', Hid.
  rewrite Hcontent in Hcontent'. injection Hcontent' as <-.
  rewrite Hid, Hlength, Hlen in Hwrite.
  table_in Hwrite fd Hf.
  (* UPDATE *)
  set (request2 := create_crud_request (File.object_id f) CRUD_UPDATE
                     (File.length f) 0 0) in *.
  pose proof (response_length_range response) as Hlrange.
  rewrite Hlength, Hlen in Hlrange.
  assert (Hq2 : extract_crud_response request2 =
                mkFields (File.object_id f) CRUD_UPDATE (File.length f) 0 0)
    by (subst request2; apply codec_fields; lia).
  set (tempBuf2 := memcpy (deref (Some b')) (File.position f) src 0 count) in *.
  destruct (crud_client_operation w1 request2 (Some tempBuf2))
    as [[response2 b2] w2] eqn:Hexchange2.
  table_in Hwrite fd Hf.
  destruct (f_result (extract_crud_response response2) =? 0) eqn:Hresult2;
    cbn [negb] in Hwrite; [| injection Hwrite as <- _; contradiction].
  apply Z.eqb_eq in Hresult2.
  destruct (update_ok objects Hstore _ _ _ _ _ _ Hexchange2)
    as (_ & Hid2 & Hlength2 & Hobjects2);
    rewrite ?Hq2; try reflexivity; try assumption.
  rewrite Hq2 in Hid2, Hlength2, Hobjects2.
  cbn [f_object_id f_length] in Hid2, Hlength2, Hobjects2.
  rewrite Hid2, Hlength2 in Hwrite.
  table_in Hwrite fd Hf.
  rewrite uint32_small in Hwrite by lia.
  injection Hwrite as <- <-. split; [reflexivity |].
  eexists _, _. split; [reflexivity |].
  rewrite Hobjects2, Hobjects1. f_equal.
  subst tempBuf2. cbn [deref default].
  apply bytes_of_overwrite with (total := File.length f); try lia.
  intros k Hk. rewrite Hbytes. apply store_bytes_inside. assumption.
Qed.


(** CASE 2 of [crud_write]: the bytes end past the end of the file.  A
    write that does not fail deletes the object and creates one that holds
    the old bytes up to the position followed by the [count] new bytes,
    under an identifier that is not in use once the old object is gone. *)
Lemma write_grow (st st' : state) (fd count r : Z) (src : buffer)
    (f : CrudFileAllocationType) (content : list Z) :
  0 <= fd <= CRUD_MAX_TOTAL_FILES - 1 ->
  crud_file_table st !! Z.to_nat fd = Some f ->
  File.open f <> 0 ->
  File.object_id f <> CRUD_NO_OBJECT ->
  0 <= File.object_id f < 2 ^ 32 ->
  objects (world st) !! File.object_id f = Some content ->
  Z.of_nat (length content) = File.length f ->
  1 <= count -> 0 <= File.position f <= File.length f ->
  File.length f < File.position f + count <= CRUD_MAX_OBJECT_SIZE ->
  crud_write fd (Some src) count st = (r, st') ->
  r <> -1 ->
  r = count /\
  exists oid w log,
    st' = mkState
            (set_file (crud_file_table st) fd
               (File.mk (File.filename f) oid (File.position f + count)
                  (File.position f + count) (File.open f)))
            (INITIALIZED st) w log /\
    0 <= oid < 2 ^ 32 /\
    delete (File.object_id f) (objects (world st)) !! oid = None /\
    objects w =
      <[oid := take (Z.to_nat (File.position f)) content ++ bytes_of src 0 count]>
        (delete (File.object_id f) (objects (world st))).
Proof.
  intros Hfd Hf Hopen Hobj Hoid Hcontent Hlen Hcount Hpos Hgrow Hwrite Hr.
  pose proof (file_at_lookup _ _ _ Hf) as Hat.
  destruct protocol_ranges as (Hcreate & Hread & _ & Hdelete & Hmax & _).
  unfold crud_write in Hwrite. monad_in Hwrite.
  rewrite handle_in_range in Hwrite by assumption.
  rewrite Hat, open_test in Hwrite by assumption.
  replace (count <? 1) with false in Hwrite by lia.
  replace (File.object_id f =? CRUD_NO_OBJECT) with false in Hwrite by lia.
  rewrite (uint32_small (count + File.position f)) in Hwrite by lia.
  replace (File.length f >=? count + File.position f) with false in Hwrite by lia.
  rewrite (int32_small (count + File.position f)) in Hwrite by lia.
  set (newLength := count + File.position f) in *.
  (* READ *)
  set (request := create_crud_request (File.object_id f) CRUD_READ newLength 0 0)
    in *.
  assert (Hq : extract_crud_response request =
               mkFields (File.object_id f) CRUD_READ newLength 0 0)
    by (subst request newLength; apply codec_fields; lia).
  destruct (crud_client_operation (world st) request (Some (malloc newLength)))
    as [[response tempBuf2] w1] eqn:Hexchange.
  monad_in Hwrite. rewrite Hat in Hwrite.
  destruct (f_result (extract_crud_response response) =? 0) eqn:Hresult;
    cbn [negb] in Hwrite; [| injection Hwrite as <- _; contradiction].
  apply Z.eqb_eq in Hresult.
  destruct (read_ok objects Hstore _ _ _ _ _ _ Hexchange)
    as (content' & b' & Hcontent' & Hid & Hlength & -> & Hbytes & Hobjects1);
    rewrite ?Hq; try reflexivity; try assumption.
  rewrite Hq in Hcontent', Hid. cbn [f_object_id] in Hcontent', Hid.
  rewrite Hcontent in Hcontent'. injection Hcontent' as <-.
  rewrite Hid, Hlength, Hlen in Hwrite.
  table_in Hwrite fd Hf.
  (* DELETE *)
  set (request2 := create_crud_request (File.object_id f) CRUD_DELETE 0 0 0) in *.
  assert (Hq2 : extract_crud_response request2 =
                mkFields (File.object_id f) CRUD_DELETE 0 0 0)
    by (subst request2; apply codec_fields; lia).
  set (tempBuf2 := memcpy (deref (Some b')) (File.position f) src 0 count) in *.
  destruct (crud_client_operation w1 request2 None)
    as [[response2 b2] w2] eqn:Hexchange2.
  table_in Hwrite fd Hf.
  destruct (f_result (extract_crud_response response2) =? 0) eqn:Hresult2;
    cbn [negb] in Hwrite; [| injection Hwrite as <- _; contradiction].
  apply Z.eqb_eq in Hresult2.
  pose proof (delete_ok objects Hstore _ _ _ _ _ _ Hexchange2) as Hobjects2.
  rewrite Hq2 in Hobjects2. cbn [f_request f_flag f_object_id] in Hobjects2.
  specialize (Hobjects2 eq_refl eq_refl Hresult2).
  table_in Hwrite fd Hf.
  (* CREATE *)
  set (request3 := create_crud_request 0 CRUD_CREATE newLength 0 0) in *.
  assert (Hq3 : extract_crud_response request3 =
                mkFields 0 CRUD_CREATE newLength 0 0)
    by (subst request3 newLength; apply codec_fields; lia).
  destruct (crud_client_operation w2 request3 (Some tempBuf2))
    as [[response3 b3] w3] eqn:Hexchange3.
  table_in Hwrite fd Hf.
  destruct (f_result (extract_crud_response response3) =? 0) eqn:Hresult3;
    cbn [negb] in Hwrite; [| injection Hwrite as <- _; contradiction].
  apply Z.eqb_eq in Hresult3.
  destruct (create_ok objects Hstore _ _ _ _ _ _ Hexchange3)
    as (Hfresh & Hobjects3 & Hlength3);
    rewrite ?Hq3; try reflexivity; try assumption.
  rewrite Hq3 in Hobjects3, Hlength3. cbn [f_length] in Hobjects3, Hlength3.
  rewrite Hlength3 in Hwrite.
  table_in Hwrite fd Hf.
  rewrite uint32_small in Hwrite by lia.
  injection Hwrite as <- <-. split; [reflexivity |].
  exists (f_object_id (extract_crud_response response3)). eexists _, _.
  split.
  { subst newLength. rewrite (Z.add_comm count). reflexivity. }
  split; [apply response_id_range |].
  rewrite Hobjects2, Hobjects1 in Hfresh, Hobjects3.
  split; [assumption |].
  rewrite Hobjects3. f_equal.
  subst tempBuf2 newLength. cbn [deref default].
  rewrite (bytes_of_overwrite b' src content (File.position f) count); try lia.
  - rewrite drop_ge by lia. rewrite app_nil_r. reflexivity.
  - intros k Hk. rewrite Hbytes. apply store_bytes_inside. assumption.
Qed.

(** [crud_seek] on an open handle. *)
Lemma crud_seek_cases (st : state) (fd loc : Z) (f : CrudFileAllocationType) :
  0 <= fd <= CRUD_MAX_TOTAL_FILES - 1 ->
  crud_file_table st !! Z.to_nat fd = Some f ->
  File.open f <> 0 ->
  (0 <= loc <= File.length f ->
   crud_seek fd loc st =
   (0, set_table st
         (set_file (crud_file_table st) fd
            (File.mk (File.filename f) (File.object_id f) loc (File.length f)
               (File.open f))))) /\
  (~ 0 <= loc <= File.length f -> crud_seek fd loc st = (-1, st)).
Proof.
  intros Hfd Hf Hopen.
  pose proof (file_at_lookup _ _ _ Hf) as Hat.
  unfold crud_seek. monad.
  rewrite handle_in_range by assumption. rewrite Hat, open_test by assumption.
  split; intros Hloc.
  - replace ((loc >? File.length f) || (loc <? 0)) with false
      by (symmetry; apply orb_false_iff; split; lia).
    monad. rewrite ?Hat. reflexivity.
  - replace ((loc >? File.length f) || (loc <? 0)) with true
      by (symmetry; apply orb_true_iff; lia).
    reflexivity.
Qed.

Lemma lookup_set_file (table : list CrudFileAllocationType) (fd : Z)
    (f g : CrudFileAllocationType) :
  table !! Z.to_nat fd = Some g ->
  set_file table fd f !! Z.to_nat fd = Some f.
Proof.
  intros Hg. unfold set_file. apply list_lookup_insert_eq.
  eapply lookup_lt_Some. eassumption.
Qed.

Lemma lookup_set_file_other (table : list CrudFileAllocationType) (fd : Z)
    (f : CrudFileAllocationType) (i : nat) :
  i <> Z.to_nat fd -> set_file table fd f !! i = table !! i.
Proof. intros Hne. unfold set_file. apply list_lookup_insert_ne. congruence. Qed.

(** C1 (amended).  On an open file without an object (length 0, position
    0), for a byte sequence [B] of at least one and at most
    [CRUD_MAX_OBJECT_SIZE] bytes, over a store that keeps its contract: if
    [crud_write] of [B] does not fail, [crud_seek] to 0 returns 0 and
    [crud_read] of [length B] bytes does not fail, then the read returns
    [length B] and the buffer holds [B]. *)
Theorem write_read_roundtrip (st st1 st2 st3 : state) (fd r1 r2 r3 : Z)
    (B : list Z) (src dst : buffer) (dst' : option buffer)
    (f : CrudFileAllocationType) :
  0 <= fd <= CRUD_MAX_TOTAL_FILES - 1 ->
  crud_file_table st !! Z.to_nat fd = Some f ->
  File.open f <> 0 ->
  File.object_id f = CRUD_NO_OBJECT ->
  File.length f = 0 -> File.position f = 0 ->
  1 <= Z.of_nat (length B) <= CRUD_MAX_OBJECT_SIZE ->
  bytes_of src 0 (Z.of_nat (length B)) = B ->
  crud_write fd (Some src) (Z.of_nat (length B)) st = (r1, st1) ->
  r1 <> -1 ->
  crud_seek fd 0 st1 = (r2, st2) ->
  r2 = 0 ->
  crud_read fd (Some dst) (Z.of_nat (length B)) st2 = ((r3, dst'), st3) ->
  r3 <> -1 ->
  r3 = Z.of_nat (length B) /\
  exists filled, dst' = Some filled /\
    bytes_of filled 0 (Z.of_nat (length B)) = B.
Proof.
  intros Hfd Hf Hopen Hno Hlen Hpos Hsize Hsrc Hwrite Hr1 Hseek Hr2 Hread Hr3.
  set (count := Z.of_nat (length B)) in *.
  destruct protocol_ranges as (_ & Hrd & _ & _ & Hmax & _).
  destruct (write_create st st1 fd count r1 src f Hfd Hf Hopen Hno Hsize Hwrite Hr1)
    as (_ & oid & response & w & Hst1 & Hoid & _ & Hobjects).
  (* the seek *)
  set (f1 := File.mk (File.filename f) oid count count (File.open f)) in *.
  assert (Hf1 : crud_file_table st1 !! Z.to_nat fd = Some f1)
    by (rewrite Hst1; eapply lookup_set_file; eassumption).
  destruct (crud_seek_cases st1 fd 0 f1 Hfd Hf1 Hopen) as [Hok _].
  rewrite Hok in Hseek by (cbn; lia). injection Hseek as _ <-.
  (* the read *)
  set (f2 := File.mk (File.filename f) oid 0 count (File.open f)) in *.
  set (st2 := set_table st1 (set_file (crud_file_table st1) fd f2)) in *.
  assert (Hf2 : crud_file_table st2 !! Z.to_nat fd = Some f2)
    by (eapply lookup_set_file; eassumption).
  assert (Hworld : world st2 = w) by (subst st2; rewrite Hst1; reflexivity).
  destruct (crud_client_operation (world st2)
              (create_crud_request (File.object_id f2) CRUD_READ
                 CRUD_MAX_OBJECT_SIZE 0 0)
              (Some (malloc CRUD_MAX_OBJECT_SIZE)))
    as [[response2 tempBuf] w2] eqn:Hexchange.
  destruct (Z.eq_dec (f_result (extract_crud_response response2)) 0)
    as [Hresult | Hresult].
  2:{ pose proof (crud_read_refused st2 fd count dst f2 Hfd Hf2 Hopen
                    ltac:(cbn; lia) ltac:(lia) _ _ _ Hexchange Hresult) as Hfail.
      rewrite Hread in Hfail. cbn in Hfail. contradiction. }
  destruct (crud_read_cases st2 fd count dst f2 Hfd Hf2 Hopen) as [_ Hcases].
  destruct (Hcases ltac:(cbn; lia) ltac:(lia) _ _ _ Hexchange Hresult)
    as (filled & Heq & _ & _ & Hcontent).
  rewrite Heq in Hread. injection Hread as <- <- _.
  destruct (Hcontent objects Hproto Hstore ltac:(cbn; lia) ltac:(cbn; lia))
    as (content & Hlook & Hlength & Hbytes).
  rewrite Hworld in Hlook. subst f2.
  cbn [File.object_id File.position] in Hlook, Hbytes, Hlength |- *.
  rewrite Hobjects, lookup_insert_eq in Hlook. injection Hlook as <-.
  rewrite length_bytes_of, Z2Nat.id in Hlength by lia.
  rewrite Hlength in Hbytes |- *.
  replace (Z.max 0 (Z.min count (count - 0))) with count in Hbytes |- * by lia.
  split; [reflexivity |].
  exists filled. split; [reflexivity |].
  transitivity (bytes_of src 0 count); [| exact Hsrc].
  apply bytes_of_ext. intros k Hk. rewrite Hbytes by lia.
  rewrite Z.add_0_l. unfold bytes_of. rewrite nth_lookup, list_lookup_fmap.
  rewrite lookup_seqZ_lt by lia. simpl. f_equal. lia.
Qed.

(** C5 (amended).  On an open file whose object holds [content], with the
    position at the end of the file, over a store that keeps its contract:
    a write of [count >= 1] bytes that ends within [CRUD_MAX_OBJECT_SIZE]
    and does not fail returns [count], makes the length grow by [count],
    moves the position by [count], and leaves the file with an object that
    holds the old content followed by the [count] bytes written; no other
    entry of the table changes. *)
Theorem growing_write (st st' : state) (fd count r : Z) (src : buffer)
    (f : CrudFileAllocationType) (content : list Z) :
  0 <= fd <= CRUD_MAX_TOTAL_FILES - 1 ->
  crud_file_table st !! Z.to_nat fd = Some f ->
  File.open f <> 0 ->
  File.object_id f <> CRUD_NO_OBJECT ->
  0 <= File.object_id f < 2 ^ 32 ->
  objects (world st) !! File.object_id f = Some content ->
  Z.of_nat (length content) = File.length f ->
  File.position f = File.length f ->
  1 <= count ->
  File.position f + count <= CRUD_MAX_OBJECT_SIZE ->
  crud_write fd (Some src) count st = (r, st') ->
  r <> -1 ->
  r = count /\
  (exists f',
     crud_file_table st' !! Z.to_nat fd = Some f' /\
     File.length f' = File.length f + count /\
     File.position f' = File.position f + count /\
     File.filename f' = File.filename f /\
     File.open f' = File.open f /\
     objects (world st') !! File.object_id f' =
       Some (content ++ bytes_of src 0 count)) /\
  (forall i, i <> Z.to_nat fd ->
     crud_file_table st' !! i = crud_file_table st !! i).
Proof.
  intros Hfd Hf Hopen Hobj Hoid Hcontent Hlen Hend Hcount Hsize Hwrite Hr.
  destruct (write_grow st st' fd count r src f content Hfd Hf Hopen Hobj Hoid
              Hcontent Hlen Hcount ltac:(lia) ltac:(lia) Hwrite Hr)
    as (-> & oid & w & log & -> & _ & _ & Hobjects).
  split; [reflexivity |]. split.
  - eexists. split; [eapply lookup_set_file; eassumption |].
    cbn [File.length File.position File.filename File.open File.object_id world].
    repeat (split; [lia || reflexivity |]).
    rewrite Hobjects, lookup_insert_eq. do 2 f_equal.
    apply firstn_all2. lia.
  - intros i Hi. cbn [crud_file_table]. apply lookup_set_file_other. assumption.
Qed.

(** *** Handles *)

Lemma handle_cases (fd : Z) (st : state) :
  bad_handle fd st \/
  (0 <= fd <= CRUD_MAX_TOTAL_FILES - 1 /\
   exists f, crud_file_table st !! Z.to_nat fd = Some f /\ File.open f <> 0).
Proof.
  unfold bad_handle.
  destruct (Z_lt_dec fd 0) as [Hneg | Hnn]; [left; lia |].
  destruct (Z_gt_dec fd (CRUD_MAX_TOTAL_FILES - 1)) as [Hbig | Hsmall];
    [left; lia |].
  destruct (Z.eq_dec (File.open (file_at (crud_file_table st) fd)) 0)
    as [Hclosed | Hopen]; [left; tauto |].
  right. split; [lia |]. exists (file_at (crud_file_table st) fd).
  split; [| assumption].
  apply file_at_lookup_inv. intros Hz. rewrite Hz in Hopen.
  apply Hopen. reflexivity.
Qed.

Lemma bad_handle_test (fd : Z) (st : state) :
  bad_handle fd st ->
  (fd <? 0) || (fd >? CRUD_MAX_TOTAL_FILES - 1) = true \/
  ((fd <? 0) || (fd >? CRUD_MAX_TOTAL_FILES - 1) = false /\
   (File.open (file_at (crud_file_table st) fd) =? 0) = true).
Proof.
  intros Hbad.
  destruct ((fd <? 0) || (fd >? CRUD_MAX_TOTAL_FILES - 1)) eqn:Hrange;
    [left; reflexivity | right].
  split; [reflexivity |]. apply orb_false_iff in Hrange.
  destruct Hbad as [Hneg | [Hbig | Hclosed]]; try lia.
Qed.

(** A handle out of range or not open: every call on it returns -1 and
    changes nothing. *)
Lemma bad_handle_fails (fd : Z) (st : state) :
  bad_handle fd st ->
  crud_close fd st = (-1, st) /\
  (forall loc, crud_seek fd loc st = (-1, st)) /\
  (forall buf count, crud_read fd buf count st = ((-1, buf), st)) /\
  (forall buf count, crud_write fd buf count st = (-1, st)).
Proof.
  intros Hbad.
  unfold crud_close, crud_seek, crud_read, crud_write. monad.
  destruct (bad_handle_test fd st Hbad) as [-> | [-> ->]];
    repeat split; reflexivity.
Qed.

Lemma crud_close_cases (st : state) (fd : Z) (f : CrudFileAllocationType) :
  0 <= fd <= CRUD_MAX_TOTAL_FILES - 1 ->
  crud_file_table st !! Z.to_nat fd = Some f ->
  File.open f <> 0 ->
  crud_close fd st =
  (0, set_table st
        (set_file (crud_file_table st) fd
           (File.mk (File.filename f) (File.object_id f) (File.position f)
              (File.length f) 0))).
Proof.
  intros Hfd Hf Hopen.
  pose proof (file_at_lookup _ _ _ Hf) as Hat.
  unfold crud_close. monad.
  rewrite handle_in_range by assumption. rewrite Hat, open_test by assumption.
  monad. rewrite ?Hat. reflexivity.
Qed.

(** A null buffer, and a count below 1. *)
Lemma crud_write_trivial (st : state) (fd count : Z) (buf : option buffer)
    (f : CrudFileAllocationType) :
  0 <= fd <= CRUD_MAX_TOTAL_FILES - 1 ->
  crud_file_table st !! Z.to_nat fd = Some f ->
  File.open f <> 0 ->
  (buf = None -> crud_write fd buf count st = (-1, st)) /\
  (buf <> None -> count < 1 -> crud_write fd buf count st = (0, st)).
Proof.
  intros Hfd Hf Hopen.
  pose proof (file_at_lookup _ _ _ Hf) as Hat.
  unfold crud_write. monad.
  rewrite handle_in_range by assumption. rewrite Hat, open_test by assumption.
  split.
  - intros ->. reflexivity.
  - intros Hbuf Hcount. destruct buf as [src |]; [| contradiction].
    replace (count <? 1) with true by lia. reflexivity.
Qed.

Lemma crud_read_null (st : state) (fd count : Z) (f : CrudFileAllocationType) :
  0 <= fd <= CRUD_MAX_TOTAL_FILES - 1 ->
  crud_file_table st !! Z.to_nat fd = Some f ->
  File.open f <> 0 ->
  crud_read fd None count st = ((-1, None), st).
Proof.
  intros Hfd Hf Hopen.
  pose proof (file_at_lookup _ _ _ Hf) as Hat.
  unfold crud_read. monad.
  rewrite handle_in_range by assumption. rewrite Hat, open_test by assumption.
  reflexivity.
Qed.

(** *** The invariant of the table and the store

    Every entry is within its object; entries that hold bytes have objects
    of their own; and nothing is open before the store is initialised. *)

Definition table_inv (st : state) : Prop :=
  (forall i f, crud_file_table st !! i = Some f ->
     file_backed (objects (world st)) f) /\
  (forall i j f g, i <> j ->
     crud_file_table st !! i = Some f -> crud_file_table st !! j = Some g ->
     File.length f <> 0 -> File.length g <> 0 ->
     File.object_id f <> File.object_id g) /\
  (INITIALIZED st = 0 ->
   forall i f, crud_file_table st !! i = Some f ->
     File.open f = 0 /\ File.length f = 0).

Lemma table_inv_initial (w0 : World) : table_inv (initial_state w0).
Proof.
  unfold table_inv, initial_state. fields.
  assert (Hzero : forall i f,
            replicate (Z.to_nat CRUD_MAX_TOTAL_FILES) zero_file !! i = Some f ->
            f = zero_file).
  { intros i f Hf. apply lookup_replicate in Hf. tauto. }
  split; [| split].
  - intros i f Hf. rewrite (Hzero i f Hf). unfold file_backed, unused. cbn.
    repeat split; try lia. intros _. right. split; reflexivity.
  - intros i j f g _ Hf _ Hlen. rewrite (Hzero i f Hf) in Hlen.
    cbn in Hlen. contradiction.
  - intros _ i f Hf. rewrite (Hzero i f Hf). split; reflexivity.
Qed.

(** Replacing one entry, and changing the store, in a way that keeps the
    other entries' objects. *)
Lemma table_inv_update (st : state) (fd : Z) (f f' : CrudFileAllocationType)
    (w' : World) (init' : Z) (log : list (Z * Z)) :
  table_inv st ->
  crud_file_table st !! Z.to_nat fd = Some f ->
  file_backed (objects w') f' ->
  (forall j g, j <> Z.to_nat fd -> crud_file_table st !! j = Some g ->
     File.length g <> 0 ->
     objects w' !! File.object_id g = objects (world st) !! File.object_id g /\
     (File.length f' <> 0 -> File.object_id g <> File.object_id f')) ->
  (init' = 0 -> File.open f' = 0 /\ File.length f' = 0 /\ INITIALIZED st = 0) ->
  table_inv (mkState (set_file (crud_file_table st) fd f') init' w' log).
Proof.
  intros (Hbacked & Hdistinct & Hclosed) Hf Hf' Hothers Hinit.
  unfold table_inv. fields.
  assert (Hlook : forall i g, set_file (crud_file_table st) fd f' !! i = Some g ->
            (i = Z.to_nat fd /\ g = f') \/
            (i <> Z.to_nat fd /\ crud_file_table st !! i = Some g)).
  { intros i g Hg. destruct (decide (i = Z.to_nat fd)) as [-> | Hne].
    - left. rewrite (lookup_set_file _ _ _ _ Hf) in Hg. split; congruence.
    - right. rewrite lookup_set_file_other in Hg by assumption. tauto. }
  split; [| split].
  - intros i g Hg. destruct (Hlook i g Hg) as [[_ ->] | [Hne Hold]]; [assumption |].
    destruct (Hbacked i g Hold) as (Hpos & Hlen & Hoid & Hnone & Hsome).
    repeat (split; [assumption |]). intros Hnz.
    destruct (Hothers i g Hne Hold Hnz) as [-> _]. auto.
  - intros i j g h Hij Hg Hh Hgl Hhl.
    destruct (Hlook i g Hg) as [[-> ->] | [Hi Hgo]];
      destruct (Hlook j h Hh) as [[-> ->] | [Hj Hho]].
    + contradiction.
    + intros Heq. destruct (Hothers j h Hj Hho Hhl) as [_ Hne].
      apply (Hne Hgl). congruence.
    + destruct (Hothers i g Hi Hgo Hgl) as [_ Hne]. apply Hne. assumption.
    + exact (Hdistinct i j g h Hij Hgo Hho Hgl Hhl).
  - intros Hzero i g Hg. destruct (Hinit Hzero) as (Hopen & Hlen & Hst).
    destruct (Hlook i g Hg) as [[_ ->] | [_ Hold]]; [tauto |].
    eapply Hclosed; eassumption.
Qed.

(** The same, when only the entry changes. *)
Lemma table_inv_entry (st : state) (fd : Z) (f f' : CrudFileAllocationType) :
  table_inv st ->
  crud_file_table st !! Z.to_nat fd = Some f ->
  file_backed (objects (world st)) f' ->
  (File.length f' <> 0 ->
   File.length f <> 0 /\ File.object_id f' = File.object_id f) ->
  INITIALIZED st <> 0 ->
  table_inv (set_table st (set_file (crud_file_table st) fd f')).
Proof.
  intros Hinv Hf Hf' Hsame Hinit. unfold set_table.
  apply (table_inv_update st fd f f'); try assumption.
  - intros j g Hj Hg Hgl. split; [reflexivity |]. intros Hnz.
    destruct (Hsame Hnz) as [Hfl ->].
    destruct Hinv as (_ & Hdistinct & _).
    exact (Hdistinct j (Z.to_nat fd) g f Hj Hg Hf Hgl Hfl).
  - intros Hzero. contradiction.
Qed.

(** The INIT block keeps the invariant, whatever INIT does to the store:
    before it, no entry holds bytes. *)
Lemma table_inv_init_store (st : state) :
  table_inv st -> table_inv (snd (init_store st)) /\
  (fst (init_store st) = true -> INITIALIZED (snd (init_store st)) <> 0).
Proof.
  intros Hinv.
  destruct (init_store_cases st)
    as [[Hinit ->] | (Hzero & response & buf' & w & _ & ->)].
  - split; [assumption | intros _; assumption].
  - destruct Hinv as (Hbacked & Hdistinct & Hclosed).
    specialize (Hclosed Hzero).
    assert (Hinv' : forall v log, table_inv (mkState (crud_file_table st) v w log)).
    { intros v log. unfold table_inv. fields. split; [| split].
      - intros i f Hf. destruct (Hclosed i f Hf) as [_ Hlen].
        destruct (Hbacked i f Hf) as (Hpos & Hl & Hoid & Hnone & _).
        repeat (split; [assumption |]). intros Hnz. contradiction.
      - intros i j f g _ Hf _ Hfl. destruct (Hclosed i f Hf) as [_ Hlen].
        contradiction.
      - intros _. assumption. }
    destruct (f_result (extract_crud_response response) =? 0); cbn [fst snd].
    + split; [apply Hinv' | intros _; cbn; lia].
    + split; [apply Hinv' | discriminate].
Qed.

Lemma set_table_same (st : state) : set_table st (crud_file_table st) = st.
Proof. destruct st. reflexivity. Qed.

Lemma table_inv_open (path : string) (st : state) :
  Z.of_nat (strlen path) < CRUD_MAX_PATH_LENGTH ->
  table_inv st -> table_inv (snd (crud_open path st)).
Proof.
  intros Hfits Hinv.
  destruct (table_inv_init_store st Hinv) as [Hinv1 Hflag].
  pose proof (init_store_table st) as Htable.
  destruct protocol_ranges as (_ & _ & _ & _ & _ & Hno).
  destruct (crud_open_cases path st) as [Hfail Hok].
  destruct (init_store st) as [ok st1]. cbn [fst snd] in *.
  rewrite <- Htable in Hok. clear Htable.
  destruct ok.
  2:{ rewrite Hfail by reflexivity. assumption. }
  specialize (Hflag eq_refl).
  destruct (Hok eq_refl)
    as [(j & Hj & Hpass & Hlook & _ & ->) |
        [(_ & i & Hi & Hunused & _ & ->) | (_ & ->)]];
    cbn [snd]; [| | assumption].
  - (* an entry is reused *)
    set (f := file_at (crud_file_table st1) j) in *.
    apply (table_inv_entry _ j f); try assumption.
    + destruct Hinv1 as (Hbacked & _ & _).
      destruct (Hbacked _ _ Hlook) as (Hpos & Hlen & Hoid & Hnone & Hsome).
      unfold file_backed. cbn.
      split; [lia |]. split; [assumption |]. split; [assumption |].
      split; [| assumption].
      intros Hz. destruct (Hnone Hz) as [Hn | [_ Hname]]; [left; assumption |].
      destruct Hpass as [Hne _]. contradiction.
    + cbn. intros Hnz. split; [assumption | reflexivity].
  - (* an unused entry is claimed *)
    unfold claim_entry.
    replace (Z.of_nat (strlen path) <? CRUD_MAX_PATH_LENGTH) with true by lia.
    destruct (crud_file_table st1 !! Z.to_nat i) as [f |] eqn:Hlook.
    + apply (table_inv_entry _ i f); try assumption.
      * unfold file_backed. cbn.
        repeat split; try lia; try (intros _; left; reflexivity).
      * cbn. intros Hnz. contradiction.
    + unfold set_file. rewrite list_insert_ge
        by (apply lookup_ge_None; assumption).
      rewrite set_table_same. assumption.
Qed.

Lemma table_inv_close (fd : Z) (st : state) :
  table_inv st -> table_inv (snd (crud_close fd st)).
Proof.
  intros Hinv.
  destruct (handle_cases fd st) as [Hbad | (Hfd & f & Hf & Hopen)].
  - destruct (bad_handle_fails fd st Hbad) as (-> & _). assumption.
  - rewrite (crud_close_cases st fd f Hfd Hf Hopen). cbn [snd].
    pose proof Hinv as (Hbacked & _ & Hclosed).
    destruct (Hbacked _ _ Hf) as (Hpos & Hlen & Hoid & Hnone & Hsome).
    apply (table_inv_entry _ fd f); try assumption.
    + unfold file_backed. cbn. repeat (split; [assumption |]).
      split; [| assumption].
      intros Hz. destruct (Hnone Hz) as [Hn | [Hun _]]; [left; assumption |].
      contradiction.
    + cbn. intros Hnz. split; [assumption | reflexivity].
    + intros Hzero. destruct (Hclosed Hzero _ _ Hf) as [Hc _]. contradiction.
Qed.

Lemma table_inv_seek (fd loc : Z) (st : state) :
  table_inv st -> table_inv (snd (crud_seek fd loc st)).
Proof.
  intros Hinv.
  destruct (handle_cases fd st) as [Hbad | (Hfd & f & Hf & Hopen)].
  - destruct (bad_handle_fails fd st Hbad) as (_ & -> & _). assumption.
  - destruct (crud_seek_cases st fd loc f Hfd Hf Hopen) as [Hin Hout].
    destruct (decide (0 <= loc <= File.length f)) as [Hloc | Hloc].
    2:{ rewrite (Hout Hloc). assumption. }
    rewrite (Hin Hloc). cbn [snd].
    pose proof Hinv as (Hbacked & _ & Hclosed).
    destruct (Hbacked _ _ Hf) as (Hpos & Hlen & Hoid & Hnone & Hsome).
    apply (table_inv_entry _ fd f); try assumption.
    + unfold file_backed. cbn. split; [assumption |].
      repeat (split; [assumption |]). assumption.
    + cbn. intros Hnz. split; [assumption | reflexivity].
    + intros Hzero. destruct (Hclosed Hzero _ _ Hf) as [Hc _]. contradiction.
Qed.

Lemma table_inv_read (fd count : Z) (buf : option buffer) (st : state) :
  table_inv st ->
  fst (fst (crud_read fd buf count st)) <> -1 ->
  table_inv (snd (crud_read fd buf count st)).
Proof.
  intros Hinv Hok.
  destruct (handle_cases fd st) as [Hbad | (Hfd & f & Hf & Hopen)].
  { destruct (bad_handle_fails fd st Hbad) as (_ & _ & -> & _). assumption. }
  destruct buf as [dst |].
  2:{ rewrite (crud_read_null st fd count f Hfd Hf Hopen). assumption. }
  destruct (crud_read_cases st fd count dst f Hfd Hf Hopen) as [Hnothing Hcases].
  destruct (decide (File.length f = 0 \/ count < 1)) as [Htrivial | Hwork].
  { rewrite (Hnothing Htrivial). assumption. }
  assert (Hlen : File.length f <> 0) by lia.
  assert (Hcount : 1 <= count) by lia.
  destruct protocol_ranges as (_ & Hread & _ & _ & Hmax & _).
  pose proof Hinv as (Hbacked & Hdistinct & Hclosed).
  destruct (Hbacked _ _ Hf) as (Hpos & Hlen24 & Hoid & _ & Hsome).
  destruct (Hsome Hlen) as (content & Hcontent & Hlength).
  set (request := create_crud_request (File.object_id f) CRUD_READ
                    CRUD_MAX_OBJECT_SIZE 0 0) in *.
  destruct (crud_client_operation (world st) request
              (Some (malloc CRUD_MAX_OBJECT_SIZE)))
    as [[response tempBuf] w] eqn:Hexchange.
  destruct (Z.eq_dec (f_result (extract_crud_response response)) 0)
    as [Hresult | Hresult].
  2:{ exfalso. apply Hok.
      exact (crud_read_refused st fd count dst f Hfd Hf Hopen Hlen Hcount
               _ _ _ Hexchange Hresult). }
  destruct (Hcases Hlen Hcount _ _ _ Hexchange Hresult) as (dst' & -> & _).
  cbn [snd].
  assert (Hq : extract_crud_response request =
               mkFields (File.object_id f) CRUD_READ CRUD_MAX_OBJECT_SIZE 0 0)
    by (subst request; apply codec_fields; lia).
  destruct (read_ok objects Hstore _ _ _ _ _ _ Hexchange)
    as (content' & b' & Hcontent' & Hid & Hlength' & _ & _ & Hobjects);
    rewrite ?Hq; try reflexivity; try assumption.
  rewrite Hq in Hcontent', Hid. cbn [f_object_id] in Hcontent', Hid.
  rewrite Hcontent in Hcontent'. injection Hcontent' as <-.
  rewrite Hid, Hlength', Hlength.
  apply (table_inv_update st fd f); try assumption.
  - unfold file_backed. cbn. rewrite Hobjects.
    split; [lia |]. split; [assumption |]. split; [assumption |].
    split; [intros Hz; contradiction |].
    intros _. exists content. split; assumption.
  - intros j g Hj Hg Hgl. rewrite Hobjects. split; [reflexivity |].
    cbn. intros _. exact (Hdistinct j (Z.to_nat fd) g f Hj Hg Hf Hgl Hlen).
  - intros Hzero. destruct (Hclosed Hzero _ _ Hf) as [Hc _]. contradiction.
Qed.

Lemma table_inv_write (fd count : Z) (buf : option buffer) (st : state) :
  table_inv st ->
  within_object_size (Write fd buf count) st ->
  fst (crud_write fd buf count st) <> -1 ->
  table_inv (snd (crud_write fd buf count st)).
Proof.
  intros Hinv Hsize Hok.
  destruct (handle_cases fd st) as [Hbad | (Hfd & f & Hf & Hopen)].
  { destruct (bad_handle_fails fd st Hbad) as (_ & _ & _ & ->). assumption. }
  destruct (crud_write_trivial st fd count buf f Hfd Hf Hopen) as [Hnull Hnothing].
  destruct buf as [src |].
  2:{ rewrite (Hnull eq_refl). assumption. }
  destruct (Z_lt_dec count 1) as [Hsmall | Hcount].
  { rewrite (Hnothing ltac:(discriminate) Hsmall). assumption. }
  cbn in Hsize. rewrite (file_at_lookup _ _ _ Hf) in Hsize.
  destruct protocol_ranges as (_ & _ & _ & _ & Hmax & Hno).
  pose proof Hinv as (Hbacked & Hdistinct & Hclosed).
  destruct (Hbacked _ _ Hf) as (Hpos & Hlen24 & Hoid & Hnone & Hsome).
  assert (Hinit : INITIALIZED st <> 0).
  { intros Hzero. destruct (Hclosed Hzero _ _ Hf) as [Hc _]. contradiction. }
  destruct (crud_write fd (Some src) count st) as [r st'] eqn:Hwrite.
  cbn [fst snd] in *.
  destruct (Z.eq_dec (File.object_id f) CRUD_NO_OBJECT) as [Hfresh | Hobject].
  - (* CASE 0 *)
    destruct (write_create st st' fd count r src f Hfd Hf Hopen Hfresh
                ltac:(lia) Hwrite Hok)
      as (_ & oid & response & w & -> & Hoidr & Hnew & Hobjects).
    apply (table_inv_update st fd f); try assumption.
    + unfold file_backed. cbn. rewrite Hobjects, lookup_insert_eq.
      repeat split; try lia.
      intros _. eexists. split; [reflexivity |].
      rewrite length_bytes_of. lia.
    + intros j g Hj Hg Hgl. cbn.
      destruct (Hbacked _ _ Hg) as (_ & _ & _ & _ & Hgsome).
      destruct (Hgsome Hgl) as (cg & Hcg & _).
      assert (Hne : File.object_id g <> oid) by congruence.
      split; [| intros _; assumption].
      rewrite Hobjects. apply lookup_insert_ne. congruence.
    + intros Hzero. contradiction.
  - assert (Hlen : File.length f <> 0).
    { intros Hz. destruct (Hnone Hz) as [Hn | [Hc _]]; contradiction. }
    destruct (Hsome Hlen) as (content & Hcontent & Hlength).
    destruct (Z_le_dec (File.position f + count) (File.length f)) as [Hfit | Hgrow].
    + (* CASE 1 *)
      destruct (write_in_place st st' fd count r src f content Hfd Hf Hopen
                  Hobject Hoid Hcontent Hlength ltac:(lia) ltac:(lia)
                  ltac:(lia) Hwrite Hok)
        as (_ & w & log & -> & Hobjects).
      apply (table_inv_update st fd f); try assumption.
      * unfold file_backed. cbn. rewrite Hobjects, lookup_insert_eq.
        split; [lia |]. split; [assumption |]. split; [assumption |].
        split; [intros Hz; contradiction |].
        intros _. eexists. split; [reflexivity |].
        rewrite !length_app, length_take, length_drop, length_bytes_of. lia.
      * intros j g Hj Hg Hgl. cbn.
        pose proof (Hdistinct j (Z.to_nat fd) g f Hj Hg Hf Hgl Hlen) as Hne.
        split; [| intros _; assumption].
        rewrite Hobjects. apply lookup_insert_ne. congruence.
      * intros Hzero. contradiction.
    + (* CASE 2 *)
      destruct (write_grow st st' fd count r src f content Hfd Hf Hopen
                  Hobject Hoid Hcontent Hlength ltac:(lia) ltac:(lia)
                  ltac:(lia) Hwrite Hok)
        as (_ & oid & w & log & -> & Hoidr & Hnew & Hobjects).
      apply (table_inv_update st fd f); try assumption.
      * unfold file_backed. cbn. rewrite Hobjects, lookup_insert_eq.
        repeat split; try lia.
        intros _. eexists. split; [reflexivity |].
        rewrite length_app, length_take, length_bytes_of. lia.
      * intros j g Hj Hg Hgl. cbn.
        pose proof (Hdistinct j (Z.to_nat fd) g f Hj Hg Hf Hgl Hlen) as Hne.
        destruct (Hbacked _ _ Hg) as (_ & _ & _ & _ & Hgsome).
        destruct (Hgsome Hgl) as (cg & Hcg & _).
        assert (Hne' : File.object_id g <> oid).
        { intros Heq. rewrite <- Heq, lookup_delete_ne in Hnew by congruence.
          congruence. }
        split; [| intros _; assumption].
        rewrite Hobjects, lookup_insert_ne, lookup_delete_ne by congruence.
        reflexivity.
      * intros Hzero. contradiction.
Qed.

(** A state of a steady run satisfies the invariant. *)
Lemma steady_table_inv (w0 : World) (st : state) :
  steady w0 st -> table_inv st.
Proof.
  induction 1 as [| st c _ IH Hcall Hfits Hsize Hok].
  - apply table_inv_initial.
  - destruct c; try contradiction;
      cbn [path_fits read_write_settled validation_failure] in *;
      unfold returned in Hok; unfold exec in *; monad_in Hok; monad.
    + destruct (crud_open path st) as [r st'] eqn:Hopen.
      pose proof (table_inv_open path st Hfits IH) as Hinv.
      rewrite Hopen in Hinv. exact Hinv.
    + destruct (crud_close fd st) as [r st'] eqn:Hclose.
      pose proof (table_inv_close fd st IH) as Hinv.
      rewrite Hclose in Hinv. exact Hinv.
    + destruct Hok as [Hok | Hfail]; [apply table_inv_read; assumption |].
      assert (Hsame : snd (crud_read fd buf count st) = st).
      { destruct (handle_cases fd st) as [Hbad | (Hfd & f & Hf & Hopen)].
        - destruct (bad_handle_fails fd st Hbad) as (_ & _ & -> & _).
          reflexivity.
        - destruct Hfail as [Hbad | ->].
          + destruct (bad_handle_fails fd st Hbad) as (_ & _ & -> & _).
            reflexivity.
          + rewrite (crud_read_null st fd count f Hfd Hf Hopen). reflexivity. }
      rewrite Hsame. exact IH.
    + destruct (crud_write fd buf count st) as [r st'] eqn:Hwrite.
      cbn [fst snd] in *.
      destruct Hok as [Hok | Hfail].
      * pose proof (table_inv_write fd count buf st IH Hsize) as Hinv.
        rewrite Hwrite in Hinv. apply Hinv. exact Hok.
      * assert (Hsame : crud_write fd buf count st = (-1, st)).
        { destruct (handle_cases fd st) as [Hbad | (Hfd & f & Hf & Hopen)].
          - destruct (bad_handle_fails fd st Hbad) as (_ & _ & _ & Heq).
            apply Heq.
          - destruct Hfail as [Hbad | ->].
            + destruct (bad_handle_fails fd st Hbad) as (_ & _ & _ & Heq).
              apply Heq.
            + destruct (crud_write_trivial st fd count None f Hfd Hf Hopen)
                as [Heq _].
              apply Heq. reflexivity. }
        rewrite Hsame in Hwrite. injection Hwrite as _ <-. exact IH.
    + destruct (crud_seek fd loc st) as [r st'] eqn:Hseek.
      pose proof (table_inv_seek fd loc st IH) as Hinv.
      rewrite Hseek in Hinv. exact Hinv.
Qed.

(** C2 (amended).  Over a store that keeps its contract, in every run of
    [crud_open], [crud_close], [crud_read], [crud_write] and [crud_seek]
    from the empty table in which every path fits the name array of an
    entry, every write ends within [CRUD_MAX_OBJECT_SIZE], and every
    [crud_read] and [crud_write] either returns success or fails validation
    (none is refused by the store), every entry of the table has
    [0 <= position <= length] after every call, whatever the call
    returned. *)
Theorem cursor_invariant (w0 : World) (st : state) (i : nat)
    (f : CrudFileAllocationType) :
  steady w0 st ->
  crud_file_table st !! i = Some f ->
  0 <= File.position f <= File.length f.
Proof.
  intros Hsteady Hf.
  destruct (steady_table_inv w0 st Hsteady) as (Hbacked & _).
  destruct (Hbacked i f Hf) as (Hpos & _). exact Hpos.
Qed.

End WriteProperties.

(** ** Failures of validation *)

Section Atomicity.
Context `{CrudProtocol} `{CrudFileTable} `{CrudClient}.

(** Splits the goal along the tests and the exchanges of the code. *)
Ltac branches :=
  repeat
    (monad;
     match goal with
     | |- context [crud_client_operation ?w ?r ?b] =>
         destruct (crud_client_operation w r b) as [[? ?] ?] eqn:?
     | |- context [if ?b then _ else _] => destruct b eqn:?
     | |- context [match ?x with _ => _ end] => is_var x; destruct x
     | |- context [match ?x with _ => _ end] => destruct x eqn:?
     end).

Lemma init_store_flag (st : state) :
  INITIALIZED (snd (init_store st)) = INITIALIZED st \/
  INITIALIZED (snd (init_store st)) = 1.
Proof.
  destruct (init_store_cases st) as [[_ ->] | (Hzero & r & b & w & _ & ->)].
  - left. reflexivity.
  - destruct (f_result (extract_crud_response r) =? 0); cbn; auto.
Qed.

Lemma crud_open_flag (path : string) (st : state) :
  INITIALIZED (snd (crud_open path st)) = INITIALIZED (snd (init_store st)).
Proof.
  destruct (crud_open_cases path st) as [Hfail Hok].
  destruct (fst (init_store st)).
  - destruct (Hok eq_refl)
      as [(j & _ & _ & _ & _ & ->) | [(_ & i & _ & _ & _ & ->) | (_ & ->)]];
      reflexivity.
  - rewrite Hfail by reflexivity. reflexivity.
Qed.

(** No call clears the flag. *)
Lemma INITIALIZED_kept (c : call) (st : state) :
  INITIALIZED (snd (exec c st)) = INITIALIZED st \/
  INITIALIZED (snd (exec c st)) = 1.
Proof.
  destruct c.
  4:{ unfold exec. monad.
      destruct (crud_open path st) as [r st'] eqn:Hopen. cbn [snd].
      pose proof (crud_open_flag path st) as Hflag. rewrite Hopen in Hflag.
      cbn [snd] in Hflag. rewrite Hflag. apply init_store_flag. }
  all: unfold exec, crud_format, crud_mount, crud_unmount,
    crud_close, crud_read, crud_write, crud_seek, init_store;
    branches; monad; auto.
Qed.

Lemma file_at_zero_table (i : Z) : file_at zero_table i = zero_file.
Proof.
  unfold file_at, zero_table.
  destruct (replicate _ zero_file !! Z.to_nat i) as [f |] eqn:Hf; [| reflexivity].
  apply lookup_replicate in Hf. simpl. tauto.
Qed.

(** On the table the program starts with, no handle is valid. *)
Lemma zero_table_bad_handle (fd : Z) (st : state) :
  crud_file_table st = zero_table -> bad_handle fd st.
Proof.
  intros Hzero. unfold bad_handle. rewrite Hzero, file_at_zero_table.
  right. right. reflexivity.
Qed.

(** While the flag is clear the table is the one the program starts
    with. *)
Definition untouched (st : state) : Prop :=
  INITIALIZED st = 0 -> crud_file_table st = zero_table.

Lemma untouched_step (c : call) (st : state) :
  untouched st -> untouched (snd (exec c st)).
Proof.
  intros Hst Hclear.
  assert (Hzero : INITIALIZED st = 0).
  { destruct (INITIALIZED_kept c st) as [Heq | Heq]; rewrite Heq in Hclear;
      [assumption | discriminate]. }
  specialize (Hst Hzero).
  destruct c.
  - (* format *)
    revert Hclear. unfold exec, crud_format, init_store. monad.
    rewrite Hzero. cbn [Z.eqb]. branches; monad; cbn; intros; try lia;
      assumption.
  - revert Hclear. unfold exec, crud_mount, init_store. monad.
    rewrite Hzero. cbn [Z.eqb]. branches; monad; cbn; intros; try lia;
      assumption.
  - unfold exec, crud_unmount. branches; monad; assumption.
  - unfold exec in *. monad_in Hclear. monad.
    destruct (crud_open path st) as [r st'] eqn:Hopen. cbn [snd] in *.
    pose proof (crud_open_flag path st) as Hflag. rewrite Hopen in Hflag.
    cbn [snd] in Hflag. rewrite Hclear in Hflag.
    destruct (crud_open_cases path st) as [Hfail _].
    destruct (init_store_cases st)
      as [[Hset _] | (_ & response & b & w & _ & Hinit)]; [contradiction |].
    rewrite Hinit in Hflag, Hfail.
    destruct (f_result (extract_crud_response response) =? 0);
      cbn [fst snd INITIALIZED] in *; [discriminate |].
    rewrite Hfail in Hopen by reflexivity. injection Hopen as _ <-. assumption.
  - unfold exec. monad.
    destruct (bad_handle_fails fd st (zero_table_bad_handle fd st Hst)) as (-> & _).
    assumption.
  - unfold exec.
    destruct (bad_handle_fails fd st (zero_table_bad_handle fd st Hst))
      as (_ & _ & -> & _).
    assumption.
  - unfold exec. monad.
    destruct (bad_handle_fails fd st (zero_table_bad_handle fd st Hst))
      as (_ & _ & _ & ->).
    assumption.
  - unfold exec. monad.
    destruct (bad_handle_fails fd st (zero_table_bad_handle fd st Hst))
      as (_ & -> & _).
    assumption.
Qed.

Lemma reachable_untouched (w0 : World) (st : state) :
  reachable w0 st -> untouched st.
Proof.
  induction 1 as [| st c _ IH].
  - intros _. reflexivity.
  - apply untouched_step. assumption.
Qed.

(** X17.  In every state the program can reach, a call that fails
    validation returns -1 and leaves the whole state as it was: the table,
    the flag, the connection and the store, and the record of exchanges, to
    which nothing is added.  The failures of validation are: a handle out
    of range or not open, a null buffer, a seek target past the end, and
    for [crud_open] a table on which no entry has a name that is not empty
    and starts with the path (the comparison of line 305) and no entry is
    closed and without a name. *)
Theorem validation_failure_atomic (w0 : World) (st : state) (c : call) :
  0 < CRUD_MAX_TOTAL_FILES ->
  reachable w0 st ->
  validation_failure c st ->
  exec c st = ((-1, caller_buffer c), st).
Proof.
  intros Hsize Hreach Hfail.
  destruct c; cbn [validation_failure caller_buffer] in *; try contradiction.
  - (* open *)
    unfold exec. monad.
    destruct (init_store_cases st) as [[Hset Hinit] | [Hzero _]].
    + destruct (crud_open_cases path st) as [_ Hok].
      rewrite Hinit in Hok. cbn [fst snd] in Hok.
      destruct (Hok eq_refl)
        as [(j & Hj & Hpass & _) |
            [(_ & i & Hi & Hunused & _) | (_ & ->)]]; [| | reflexivity].
      * destruct (Hfail j Hj) as [Hno _]. contradiction.
      * destruct (Hfail i Hi) as [_ Hno]. contradiction.
    + exfalso. pose proof (reachable_untouched w0 st Hreach Hzero) as Htable.
      destruct (Hfail 0 ltac:(unfold in_table; lia)) as [_ Hno].
      apply Hno. rewrite Htable, file_at_zero_table. split; reflexivity.
  - unfold exec. monad.
    destruct (bad_handle_fails fd st Hfail) as (-> & _). reflexivity.
  - unfold exec.
    destruct (handle_cases fd st) as [Hbad | (Hfd & f & Hf & Hopen)].
    + destruct (bad_handle_fails fd st Hbad) as (_ & _ & -> & _). reflexivity.
    + destruct Hfail as [Hbad | ->].
      * destruct (bad_handle_fails fd st Hbad) as (_ & _ & -> & _). reflexivity.
      * apply (crud_read_null st fd count f Hfd Hf Hopen).
  - unfold exec. monad.
    destruct (handle_cases fd st) as [Hbad | (Hfd & f & Hf & Hopen)].
    + destruct (bad_handle_fails fd st Hbad) as (_ & _ & _ & ->). reflexivity.
    + destruct Hfail as [Hbad | ->].
      * destruct (bad_handle_fails fd st Hbad) as (_ & _ & _ & ->). reflexivity.
      * destruct (crud_write_trivial st fd count None f Hfd Hf Hopen) as [-> _];
          reflexivity.
  - unfold exec. monad.
    destruct (handle_cases fd st) as [Hbad | (Hfd & f & Hf & Hopen)].
    + destruct (bad_handle_fails fd st Hbad) as (_ & -> & _). reflexivity.
    + destruct Hfail as [Hbad | Hpast].
      * destruct (bad_handle_fails fd st Hbad) as (_ & -> & _). reflexivity.
      * rewrite (file_at_lookup _ _ _ Hf) in Hpast.
        destruct (crud_seek_cases st fd loc f Hfd Hf Hopen) as [_ ->];
          [reflexivity | lia].
Qed.

End Atomicity.

(** ** INIT exchanges *)

Section InitOnce.
Context `{CrudProtocol} `{CrudFileTable} `{CrudClient}.
Hypothesis Hproto : protocol_ok.
Hypothesis Hfits : table_fits.

Ltac branches :=
  repeat
    (monad;
     match goal with
     | |- context [crud_client_operation ?w ?r ?b] =>
         destruct (crud_client_operation w r b) as [[? ?] ?] eqn:?
     | |- context [if ?b then _ else _] => destruct b eqn:?
     | |- context [match ?x with _ => _ end] => is_var x; destruct x
     | |- context [match ?x with _ => _ end] => destruct x eqn:?
     end).

(** The record is in order for a flag value [flag]: no INIT follows an
    INIT that succeeded, and no INIT has succeeded while the flag is
    clear. *)
Definition log_ok (flag : Z) (log : list (Z * Z)) : Prop :=
  init_settled log /\
  (flag = 0 -> Forall (fun x => init_exchange x -> ~ succeeded x) log).

Lemma snoc_split {A : Type} (before after log : list A) (x y : A) :
  before ++ y :: after = log ++ [x] ->
  (after = [] /\ y = x /\ before = log) \/
  (exists after', after = after' ++ [x] /\ log = before ++ y :: after').
Proof.
  intros Heq.
  destruct (decide (after = [])) as [-> | Hne].
  - left. apply app_inj_tail in Heq. tauto.
  - right. destruct (exists_last Hne) as (after' & z & ->).
    exists after'. change (y :: after' ++ [z]) with ((y :: after') ++ [z]) in Heq.
    rewrite app_assoc in Heq. apply app_inj_tail in Heq.
    destruct Heq as [Hlog ->]. split; [reflexivity | congruence].
Qed.

Lemma log_ok_other (flag : Z) (log : list (Z * Z)) (y : Z * Z) :
  log_ok flag log -> ~ init_exchange y -> log_ok flag (log ++ [y]).
Proof.
  intros [Hsettled Hclear] Hy. split.
  - intros before x after Heq Hinit Hsucc. symmetry in Heq.
    destruct (snoc_split _ _ _ _ _ Heq) as [(_ & -> & _) | (after' & -> & ->)];
      [contradiction |].
    apply Forall_app. split; [| apply Forall_singleton; assumption].
    eapply Hsettled; [reflexivity | assumption | assumption].
  - intros Hflag. apply Forall_app. split; [apply Hclear; assumption |].
    apply Forall_singleton. intros Hinit. contradiction.
Qed.

Lemma log_ok_init (flag : Z) (log : list (Z * Z)) (x : Z * Z) :
  log_ok 0 log -> (flag = 0 -> ~ succeeded x) -> log_ok flag (log ++ [x]).
Proof.
  intros [Hsettled Hclear] Hx. specialize (Hclear eq_refl). split.
  - intros before y after Heq Hinit Hsucc. symmetry in Heq.
    destruct (snoc_split _ _ _ _ _ Heq) as [(-> & _ & _) | (after' & -> & ->)];
      [constructor |].
    exfalso. rewrite Forall_app, Forall_cons in Hclear.
    destruct Hclear as (_ & Hy & _). exact (Hy Hinit Hsucc).
  - intros Hflag. apply Forall_app. split; [assumption |].
    apply Forall_singleton. intros _. exact (Hx Hflag).
Qed.

Lemma log_ok_raise (flag : Z) (log : list (Z * Z)) :
  flag <> 0 -> log_ok 0 log -> log_ok flag log.
Proof. intros Hflag [Hsettled _]. split; [assumption | intros; contradiction]. Qed.

Lemma protocol_codes :
  0 <= CRUD_INIT < 2 ^ 4 /\ 0 <= CRUD_FORMAT < 2 ^ 4 /\
  0 <= CRUD_CREATE < 2 ^ 4 /\ 0 <= CRUD_READ < 2 ^ 4 /\
  CRUD_FORMAT <> CRUD_INIT /\ CRUD_CREATE <> CRUD_INIT /\
  CRUD_READ <> CRUD_INIT.
Proof.
  destruct Hproto as [Hrange Hdistinct _ _ _ _].
  rewrite !Forall_cons in Hrange.
  rewrite !NoDup_cons in Hdistinct. rewrite !not_elem_of_cons in Hdistinct.
  repeat split; try tauto; intros Heq; symmetry in Heq; tauto.
Qed.

Lemma not_init (oid req len flag : Z) (response : Z) :
  0 <= oid < 2 ^ 32 -> 0 <= req < 2 ^ 4 -> 0 <= len < 2 ^ 24 ->
  0 <= flag < 2 ^ 3 -> req <> CRUD_INIT ->
  ~ init_exchange (create_crud_request oid req len flag 0, response).
Proof.
  intros Ho Hr Hl Hf Hne. unfold init_exchange. cbn [fst].
  rewrite codec_fields by (assumption || lia). assumption.
Qed.

Lemma table_size : int32 (sizeof_CrudFileAllocationType * CRUD_MAX_TOTAL_FILES) =
                   sizeof_CrudFileAllocationType * CRUD_MAX_TOTAL_FILES.
Proof. apply int32_small. unfold table_fits in Hfits. lia. Qed.

Lemma log_ok_init_store (st : state) :
  log_ok (INITIALIZED st) (wire st) ->
  log_ok (INITIALIZED (snd (init_store st))) (wire (snd (init_store st))).
Proof.
  intros Hlog.
  destruct (init_store_cases st)
    as [[_ ->] | (Hzero & response & b & w & _ & ->)]; [assumption |].
  rewrite Hzero in Hlog.
  destruct (f_result (extract_crud_response response) =? 0) eqn:Hresult;
    cbn [fst snd INITIALIZED wire]; apply log_ok_init; try assumption.
  - intros Hflag. discriminate.
  - intros _. unfold succeeded. cbn [snd]. lia.
Qed.

Lemma log_ok_step (c : call) (st : state) :
  init_call c ->
  log_ok (INITIALIZED st) (wire st) ->
  log_ok (INITIALIZED (snd (exec c st))) (wire (snd (exec c st))).
Proof.
  intros Hcall Hlog. apply log_ok_init_store in Hlog.
  destruct protocol_codes as (Hi & Hf & Hc & Hr & Hfi & Hci & Hri).
  pose proof (null_flag_range Hproto) as Hnull.
  pose proof (priority_flag_range Hproto) as Hprio.
  pose proof Hfits as Hsize. unfold table_fits in Hsize.
  destruct c; try contradiction.
  - (* format *)
    unfold exec, crud_format. rewrite table_size. monad.
    destruct (init_store st) as [ok st1]. cbn [snd] in Hlog.
    branches; monad; repeat apply log_ok_other; try assumption;
      apply not_init; assumption || lia.
  - (* mount *)
    unfold exec, crud_mount. rewrite table_size. monad.
    destruct (init_store st) as [ok st1]. cbn [snd] in Hlog.
    branches; monad; repeat apply log_ok_other; try assumption;
      apply not_init; assumption || lia.
  - (* open *)
    unfold exec. monad.
    destruct (crud_open_cases path st) as [Hfail Hok].
    destruct (fst (init_store st)).
    + destruct (Hok eq_refl)
        as [(j & _ & _ & _ & _ & ->) | [(_ & i & _ & _ & _ & ->) | (_ & ->)]];
        assumption.
    + rewrite Hfail by reflexivity. assumption.
Qed.

(** An INIT exchange that succeeded. *)
Definition init_done (x : Z * Z) : Prop := init_exchange x /\ succeeded x.

Lemma init_request_code (response : Z) :
  init_exchange (create_crud_request 0 CRUD_INIT 0 0 0, response).
Proof.
  destruct protocol_codes as (Hi & _).
  unfold init_exchange. cbn [fst]. rewrite codec_fields by lia. reflexivity.
Qed.

(** What an INIT block adds to the record and does to the flag. *)
Lemma init_store_log (st : state) :
  (INITIALIZED st <> 0 -> init_store st = (true, st)) /\
  (INITIALIZED st = 0 ->
   exists response,
     wire (snd (init_store st)) =
       wire st ++ [(create_crud_request 0 CRUD_INIT 0 0 0, response)] /\
     (INITIALIZED (snd (init_store st)) <> 0 <->
      f_result (extract_crud_response response) = 0)).
Proof.
  destruct (init_store_cases st)
    as [[Hset Heq] | (Hzero & response & b & w & _ & Heq)].
  - split; [intros _; exact Heq | contradiction].
  - split; [contradiction |]. intros _. exists response. rewrite Heq.
    destruct (f_result (extract_crud_response response) =? 0) eqn:Hresult;
      cbn [fst snd wire INITIALIZED]; (split; [reflexivity |]); split; lia.
Qed.

(** After its INIT block a call sends no INIT and leaves the flag. *)
Lemma init_call_log (c : call) (st : state) :
  init_call c ->
  exists more,
    wire (snd (exec c st)) = wire (snd (init_store st)) ++ more /\
    Forall (fun y => ~ init_exchange y) more /\
    INITIALIZED (snd (exec c st)) = INITIALIZED (snd (init_store st)).
Proof.
  intros Hcall.
  destruct protocol_codes as (Hi & Hf & Hc & Hr & Hfi & Hci & Hri).
  pose proof (null_flag_range Hproto) as Hnull.
  pose proof (priority_flag_range Hproto) as Hprio.
  pose proof Hfits as Hsize. unfold table_fits in Hsize.
  assert (Hnil : forall l : list (Z * Z), l = l ++ []) by
    (intros l; rewrite app_nil_r; reflexivity).
  destruct c; try contradiction.
  - unfold exec, crud_format. rewrite table_size. monad.
    destruct (init_store st) as [ok st1]. cbn [snd].
    branches; monad; rewrite <- ?app_assoc;
      (eexists; split; [first [reflexivity | apply Hnil] |]);
      (split; [| reflexivity]);
      repeat constructor; apply not_init; assumption || lia.
  - unfold exec, crud_mount. rewrite table_size. monad.
    destruct (init_store st) as [ok st1]. cbn [snd].
    branches; monad; rewrite <- ?app_assoc;
      (eexists; split; [first [reflexivity | apply Hnil] |]);
      (split; [| reflexivity]);
      repeat constructor; apply not_init; assumption || lia.
  - unfold exec. monad.
    pose proof (crud_open_flag path st) as Hflag.
    assert (Hwire : wire (snd (crud_open path st)) = wire (snd (init_store st))).
    { destruct (crud_open_cases path st) as [Hfail Hok].
      destruct (fst (init_store st)).
      - destruct (Hok eq_refl)
          as [(j & _ & _ & _ & _ & ->) | [(_ & i & _ & _ & _ & ->) | (_ & ->)]];
          reflexivity.
      - rewrite Hfail by reflexivity. reflexivity. }
    destruct (crud_open path st) as [r st']. cbn [snd] in *.
    exists []. rewrite app_nil_r.
    split; [exact Hwire | split; [apply Forall_nil_2 | exact Hflag]].
Qed.

(** The flag is set only when an INIT has succeeded. *)
Lemma flag_backed_step (c : call) (st : state) :
  init_call c ->
  (INITIALIZED st <> 0 -> Exists init_done (wire st)) ->
  INITIALIZED (snd (exec c st)) <> 0 ->
  Exists init_done (wire (snd (exec c st))).
Proof.
  intros Hcall Hbacked Hflag.
  destruct (init_call_log c st Hcall) as (more & -> & _ & Heq).
  rewrite Heq in Hflag. apply Exists_app. left.
  destruct (init_store_log st) as [Hset Hclear].
  destruct (Z.eq_dec (INITIALIZED st) 0) as [Hzero | Hnz].
  - destruct (Hclear Hzero) as (response & -> & Hiff).
    apply Exists_app. right. constructor. split.
    + apply init_request_code.
    + unfold succeeded. cbn [snd]. apply Hiff. assumption.
  - rewrite (Hset Hnz). cbn [snd]. auto.
Qed.


End InitOnce.

(** ** The client: failures of the transport *)

Section ClientProperties.
Context `{CrudProtocol}.

Lemma error_word_result :
  f_result (extract_crud_response Client.ERROR_WORD) = 1.
Proof.
  unfold Client.ERROR_WORD.
  rewrite extract_crud_response_spec by apply uint64_range.
  unfold uint64. reflexivity.
Qed.

(** The loop of lines 96-99 when every [write] accepts some bytes: it
    stops when exactly [length] bytes have gone, in order. *)
Lemma send_payload_partial (tempBuf : buffer) (len : Z)
    (calls rest : list (Z * list Z)) :
  forall (bytesWritten : Z) (net : Client.Net),
    0 <= bytesWritten -> len < 2 ^ 31 ->
    Forall (fun c => 0 < fst c) calls ->
    bytesWritten + sum_returns calls = len ->
    Client.send_payload tempBuf len bytesWritten net (calls ++ rest) =
    Some (len,
          Client.mkNet (Client.CONNECTED net) (Client.socket_fd net) rest
            (Client.sent net ++ bytes_of tempBuf bytesWritten (len - bytesWritten))).
Proof.
  induction calls as [| [r data] calls IH];
    intros bytesWritten net Hbw Hlen Hpos Hsum.
  - cbn in Hsum. rewrite Z.add_0_r in Hsum. subst len.
    rewrite app_nil_l.
    assert (Htest : (uint32 bytesWritten =? bytesWritten) = true).
    { apply Z.eqb_eq. unfold uint32. apply Z.mod_small. lia. }
    destruct rest; cbn [Client.send_payload]; rewrite Htest;
      rewrite Z.sub_diag; unfold bytes_of; cbn [seqZ]; rewrite app_nil_r;
      reflexivity.
  - apply Forall_cons in Hpos. destruct Hpos as [Hr Hpos]. cbn [fst] in Hr.
    cbn [sum_returns foldr fst] in Hsum. fold (sum_returns calls) in Hsum.
    assert (Hrest : 0 <= sum_returns calls).
    { clear -Hpos. unfold sum_returns.
      induction Hpos as [| c l Hc _ IHl]; cbn [foldr]; lia. }
    rewrite <- app_comm_cons. cbn [Client.send_payload].
    replace (uint32 bytesWritten =? len) with false
      by (symmetry; apply Z.eqb_neq; unfold uint32;
          rewrite Z.mod_small by lia; lia).
    rewrite int32_small by lia.
    rewrite IH by (assumption || lia).
    unfold Client.accept_bytes. cbn [Client.CONNECTED Client.socket_fd Client.sent].
    rewrite <- app_assoc.
    replace (len - bytesWritten) with (r + (len - (bytesWritten + r))) by lia.
    rewrite bytes_of_app by lia. reflexivity.
Qed.

#[local] Arguments Client.htonll64 : simpl never.
#[local] Arguments Client.ntohll64 : simpl never.

Ltac client_step :=
  cbn [mbind option_bind negb Z.eqb Pos.eqb app Client.CONNECTED
       Client.socket_fd Client.pending Client.sent].

Lemma bytes_of_memcpy_whole (dst src : buffer) (n : Z) :
  bytes_of (memcpy dst 0 src 0 n) 0 n = bytes_of src 0 n.
Proof.
  apply bytes_of_ext. intros k Hk. unfold memcpy.
  replace ((0 <=? k) && (k <? 0 + n)) with true
    by (symmetry; apply andb_true_iff; split; lia).
  f_equal. lia.
Qed.

(** X18.  In an exchange over an established connection: when the
    [write] of the 8-byte request word returns anything but 8, or, the
    payload of a CREATE or UPDATE having gone out in [write] calls that
    each accepted at least one byte, the [read] of the 8-byte response word
    returns anything but 8, the exchange ends there with the error word,
    whose result bit is 1, and makes no further socket call: nothing is
    retried.  A [write] of the payload that accepts only a part of it does
    not end the exchange: while every [write] accepts at least one byte,
    the loop goes on from the bytes accepted so far and stops when exactly
    [length] bytes have been sent. *)
Theorem transport_failure_semantics :
  (forall op buf net r data rest,
     Client.CONNECTED net <> 0 ->
     Client.pending net = (r, data) :: rest ->
     r <> 8 ->
     Client.crud_client_operation op buf net =
     Some (Client.ERROR_WORD, buf,
           Client.mkNet (Client.CONNECTED net) (Client.socket_fd net) rest
             (Client.sent net ++ take (Z.to_nat r) (Client.htonll64 op)))) /\
  (forall op buf net d0 calls r data rest src,
     Client.CONNECTED net <> 0 ->
     let request := f_request (extract_crud_response op) in
     let len := f_length (extract_crud_response op) in
     ((request = CRUD_CREATE \/ request = CRUD_UPDATE) /\ buf = Some src /\
      Forall (fun c => 0 < fst c) calls /\ sum_returns calls = len) \/
     (request <> CRUD_CREATE /\ request <> CRUD_UPDATE /\ calls = []) ->
     Client.pending net = (8, d0) :: calls ++ (r, data) :: rest ->
     r <> 8 ->
     exists net',
       Client.crud_client_operation op buf net =
         Some (Client.ERROR_WORD, buf, net') /\
       Client.pending net' = rest /\
       Client.sent net' =
         Client.sent net ++ Client.htonll64 op ++
         (if (request =? CRUD_CREATE) || (request =? CRUD_UPDATE)
          then bytes_of src 0 len else [])) /\
  f_result (extract_crud_response Client.ERROR_WORD) = 1 /\
  (forall tempBuf len calls rest net,
     0 <= len < 2 ^ 24 ->
     Forall (fun c => 0 < fst c) calls ->
     sum_returns calls = len ->
     Client.send_payload tempBuf len 0 net (calls ++ rest) =
     Some (len,
           Client.mkNet (Client.CONNECTED net) (Client.socket_fd net) rest
             (Client.sent net ++ bytes_of tempBuf 0 len))).
Proof.
  split; [| split; [| split]].
  - intros op buf net r data rest Hconn Hpending Hr.
    unfold Client.crud_client_operation.
    replace (Client.CONNECTED net =? 0) with false by lia. client_step.
    unfold Client.syscall. rewrite Hpending. client_step.
    replace (r =? 8) with false by lia. client_step.
    unfold Client.accept_bytes. client_step. reflexivity.
  - intros op buf net d0 calls r data rest src Hconn request len Hcase
      Hpending Hr.
    unfold Client.crud_client_operation.
    replace (Client.CONNECTED net =? 0) with false by lia. client_step.
    unfold Client.syscall. rewrite Hpending. client_step.
    rewrite client_request_field, client_length_field.
    fold request len. unfold Client.accept_bytes. client_step.
    assert (Hword : take (Z.to_nat 8) (Client.htonll64 op) = Client.htonll64 op).
    { apply firstn_all2. unfold Client.htonll64.
      rewrite length_fmap, length_seqZ. lia. }
    rewrite Hword.
    destruct Hcase as [(Hpayload & -> & Hpos & Hsum) | (Hn1 & Hn2 & ->)].
    + replace ((request =? CRUD_CREATE) || (request =? CRUD_UPDATE)) with true
        by (symmetry; apply orb_true_iff; lia).
      client_step.
      pose proof (response_length_range op) as Hlen. fold len in Hlen.
      rewrite (send_payload_partial _ len calls ((r, data) :: rest) 0)
        by (cbn [Client.sent]; lia || assumption).
      client_step.
      replace (r =? 8) with false by lia. client_step.
      eexists. split; [reflexivity |]. client_step.
      split; [reflexivity |].
      rewrite Z.sub_0_r, bytes_of_memcpy_whole, <- app_assoc. reflexivity.
    + replace ((request =? CRUD_CREATE) || (request =? CRUD_UPDATE)) with false
        by (symmetry; apply orb_false_iff; lia).
      client_step.
      replace (r =? 8) with false by lia. client_step.
      eexists. split; [reflexivity |]. client_step.
      split; [reflexivity |]. rewrite app_nil_r. reflexivity.
  - apply error_word_result.
  - intros tempBuf len calls rest net Hlen Hpos Hsum.
    rewrite (send_payload_partial tempBuf len calls rest 0 net)
      by (lia || assumption).
    rewrite Z.sub_0_r. reflexivity.
Qed.

End ClientProperties.

(** ** The reference store keeps the contract *)

Section RefStoreProperties.
Context `{CrudProtocol}.
Hypothesis Hproto : protocol_ok.

Lemma foldr_max_bound (l : list Z) (x : Z) :
  x ∈ l -> x <= foldr Z.max 0 l.
Proof.
  induction l as [| y l IH]; intros Hx.
  - apply elem_of_nil in Hx. contradiction.
  - apply elem_of_cons in Hx. cbn [foldr]. destruct Hx as [-> | Hx]; [lia |].
    specialize (IH Hx). lia.
Qed.

Lemma fresh_id_fresh (m : gmap Z (list Z)) : m !! RefStore.fresh_id m = None.
Proof.
  destruct (m !! RefStore.fresh_id m) as [c |] eqn:Hc; [| reflexivity].
  exfalso. apply elem_of_map_to_list in Hc.
  assert (Hin : RefStore.fresh_id m ∈ (fst <$> map_to_list m)).
  { apply list_elem_of_fmap. exists (RefStore.fresh_id m, c). split; [reflexivity | assumption]. }
  apply foldr_max_bound in Hin. unfold RefStore.fresh_id in Hin at 1. lia.
Qed.

Lemma reply_fields (q : CrudFields) (op oid len res : Z) :
  q = extract_crud_response op ->
  0 <= oid < 2 ^ 32 -> 0 <= len < 2 ^ 24 -> 0 <= res < 2 ->
  extract_crud_response (RefStore.reply q oid len res) =
  mkFields oid (f_request q) len (f_flag q) res.
Proof.
  intros -> Ho Hl Hr. unfold RefStore.reply.
  destruct (extract_crud_response_bounds op) as (_ & Hreq & _ & Hflag & _).
  apply codec_fields; assumption.
Qed.

Lemma refuse_result (op : Z) :
  f_result (extract_crud_response (RefStore.refuse (extract_crud_response op))) = 1.
Proof.
  unfold RefStore.refuse.
  destruct (extract_crud_response_bounds op) as (Hoid & _ & Hlen & _).
  rewrite (reply_fields _ op) by (reflexivity || assumption || lia).
  reflexivity.
Qed.

(** Settles a comparison of two request codes. *)
Ltac code_test :=
  match goal with
  | H : context [?a =? ?b] |- _ =>
      destruct (Z.eqb_spec a b) as [Hsame | _];
      [ exfalso; pose proof (requests_distinct Hproto) as Hdistinct;
        rewrite !NoDup_cons, !not_elem_of_cons in Hdistinct;
        clear -Hsame Hdistinct; intuition congruence
      | cbn [negb andb orb] in H ]
  end.

Lemma refstore_create_ok (w w' : RefStore.Store) (op resp : Z)
    (buf : buffer) (buf' : option buffer) :
  RefStore.serve w op (Some buf) = (resp, buf', w') ->
  f_request (extract_crud_response op) = CRUD_CREATE ->
  f_flag (extract_crud_response op) = 0 ->
  f_result (extract_crud_response resp) = 0 ->
  RefStore.objects w !! f_object_id (extract_crud_response resp) = None /\
  RefStore.objects w' =
    <[f_object_id (extract_crud_response resp) :=
        bytes_of buf 0 (f_length (extract_crud_response op))]>
      (RefStore.objects w) /\
  f_length (extract_crud_response resp) = f_length (extract_crud_response op).
Proof.
  intros Hserve Hreq Hflag Hresult. unfold RefStore.serve in Hserve.
  rewrite Hreq, Hflag in Hserve. cbn [Z.eqb negb andb] in Hserve.
  destruct (extract_crud_response_bounds op) as (_ & _ & Hlen & _).
  destruct (default false (head (RefStore.faults w))).
  { injection Hserve as <- _ _. rewrite refuse_result in Hresult. discriminate. }
  do 3 code_test. rewrite Z.eqb_refl in Hserve.
  destruct (RefStore.fresh_id (RefStore.objects w) <? 2 ^ 32) eqn:Hfresh.
  2:{ injection Hserve as <- _ _. rewrite refuse_result in Hresult. discriminate. }
  injection Hserve as <- _ <-.
  assert (Hid : 0 <= RefStore.fresh_id (RefStore.objects w) < 2 ^ 32).
  { split; [| lia]. unfold RefStore.fresh_id.
    assert (0 <= foldr Z.max 0 (fst <$> map_to_list (RefStore.objects w))).
    { generalize (fst <$> map_to_list (RefStore.objects w)).
      intros l. induction l; cbn [foldr]; lia. }
    lia. }
  rewrite (reply_fields _ op) by (reflexivity || assumption || lia).
  cbn [f_object_id f_length RefStore.objects].
  split; [apply fresh_id_fresh |]. split; reflexivity.
Qed.

Lemma refstore_read_ok (w w' : RefStore.Store) (op resp : Z)
    (buf : buffer) (buf' : option buffer) :
  RefStore.serve w op (Some buf) = (resp, buf', w') ->
  f_request (extract_crud_response op) = CRUD_READ ->
  f_flag (extract_crud_response op) = 0 ->
  f_result (extract_crud_response resp) = 0 ->
  exists content b',
    RefStore.objects w !! f_object_id (extract_crud_response op) = Some content /\
    f_object_id (extract_crud_response resp) =
      f_object_id (extract_crud_response op) /\
    f_length (extract_crud_response resp) = Z.of_nat (length content) /\
    buf' = Some b' /\
    (forall k, b' k = store_bytes buf 0 content k) /\
    RefStore.objects w' = RefStore.objects w.
Proof.
  intros Hserve Hreq Hflag Hresult. unfold RefStore.serve in Hserve.
  rewrite Hreq, Hflag in Hserve. cbn [Z.eqb negb andb] in Hserve.
  destruct (extract_crud_response_bounds op) as (Hoid & _ & _).
  destruct (default false (head (RefStore.faults w))).
  { injection Hserve as <- _ _. rewrite refuse_result in Hresult. discriminate. }
  do 4 code_test. rewrite Z.eqb_refl in Hserve.
  destruct (RefStore.objects w !! f_object_id (extract_crud_response op))
    as [content |] eqn:Hcontent.
  2:{ injection Hserve as <- _ _. rewrite refuse_result in Hresult. discriminate. }
  destruct (Z.of_nat (length content) <? 2 ^ 24) eqn:Hsize.
  2:{ injection Hserve as <- _ _. rewrite refuse_result in Hresult. discriminate. }
  injection Hserve as <- <- <-.
  rewrite (reply_fields _ op) by (reflexivity || assumption || lia).
  cbn [f_object_id f_length RefStore.objects].
  exists content, (store_bytes buf 0 content).
  do 4 (split; [reflexivity |]).
  split; [intros k; reflexivity | reflexivity].
Qed.

Lemma refstore_update_ok (w w' : RefStore.Store) (op resp : Z)
    (buf : buffer) (buf' : option buffer) :
  RefStore.serve w op (Some buf) = (resp, buf', w') ->
  f_request (extract_crud_response op) = CRUD_UPDATE ->
  f_flag (extract_crud_response op) = 0 ->
  f_result (extract_crud_response resp) = 0 ->
  is_Some (RefStore.objects w !! f_object_id (extract_crud_response op)) /\
  f_object_id (extract_crud_response resp) =
    f_object_id (extract_crud_response op) /\
  f_length (extract_crud_response resp) = f_length (extract_crud_response op) /\
  RefStore.objects w' =
    <[f_object_id (extract_crud_response op) :=
        bytes_of buf 0 (f_length (extract_crud_response op))]>
      (RefStore.objects w).
Proof.
  intros Hserve Hreq Hflag Hresult. unfold RefStore.serve in Hserve.
  rewrite Hreq, Hflag in Hserve. cbn [Z.eqb negb andb] in Hserve.
  destruct (extract_crud_response_bounds op) as (Hoid & _ & Hlen & _).
  destruct (default false (head (RefStore.faults w))).
  { injection Hserve as <- _ _. rewrite refuse_result in Hresult. discriminate. }
  do 5 code_test. rewrite Z.eqb_refl in Hserve.
  destruct (RefStore.objects w !! f_object_id (extract_crud_response op))
    as [content |] eqn:Hcontent.
  2:{ injection Hserve as <- _ _. rewrite refuse_result in Hresult. discriminate. }
  injection Hserve as <- _ <-.
  rewrite (reply_fields _ op) by (reflexivity || assumption || lia).
  cbn [f_object_id f_length RefStore.objects].
  split; [eexists; reflexivity |]. repeat split; reflexivity.
Qed.

Lemma refstore_delete_ok (w w' : RefStore.Store) (op resp : Z)
    (buf buf' : option buffer) :
  RefStore.serve w op buf = (resp, buf', w') ->
  f_request (extract_crud_response op) = CRUD_DELETE ->
  f_flag (extract_crud_response op) = 0 ->
  f_result (extract_crud_response resp) = 0 ->
  RefStore.objects w' =
    delete (f_object_id (extract_crud_response op)) (RefStore.objects w).
Proof.
  intros Hserve Hreq Hflag Hresult. unfold RefStore.serve in Hserve.
  rewrite Hreq, Hflag in Hserve. cbn [Z.eqb negb andb] in Hserve.
  destruct (default false (head (RefStore.faults w))).
  { injection Hserve as <- _ _. rewrite refuse_result in Hresult. discriminate. }
  do 6 code_test. rewrite Z.eqb_refl in Hserve.
  destruct (RefStore.objects w !! f_object_id (extract_crud_response op))
    as [content |] eqn:Hcontent.
  2:{ injection Hserve as <- _ _. rewrite refuse_result in Hresult. discriminate. }
  injection Hserve as _ _ <-. reflexivity.
Qed.

(** The reference store keeps the contract the file layer relies on. *)
Lemma refstore_faithful :
  @faithful_store _ RefStore.client RefStore.objects.
Proof.
  split.
  - intros w op buf resp buf' w'. apply refstore_create_ok.
  - intros w op buf resp buf' w'. apply refstore_read_ok.
  - intros w op buf resp buf' w'. apply refstore_update_ok.
  - intros w op buf resp buf' w'. apply refstore_delete_ok.
Qed.

End RefStoreProperties.

(** * Further properties of the code *)

(** ** Writes and reads over a store that keeps its contract *)

Section FurtherWrites.
Context `{CrudProtocol} `{CrudFileTable} `{CrudClient}.
Variable objects : World -> gmap Z (list Z).
Hypothesis Hproto : protocol_ok.
Hypothesis Hstore : faithful_store objects.

(** X1.  A write that ends inside the file ([position + count <= length],
    lines 505-537) and does not fail returns [count], keeps the length and
    the object of the file, moves the position by [count], and replaces the
    bytes of the object from the position on by the [count] bytes written:
    the bytes before and after them stay, and so does every other entry of
    the table. *)
Theorem overwrite_in_place (st st' : state) (fd count r : Z) (src : buffer)
    (f : CrudFileAllocationType) (content : list Z) :
  0 <= fd <= CRUD_MAX_TOTAL_FILES - 1 ->
  crud_file_table st !! Z.to_nat fd = Some f ->
  File.open f <> 0 ->
  File.object_id f <> CRUD_NO_OBJECT ->
  0 <= File.object_id f < 2 ^ 32 ->
  objects (world st) !! File.object_id f = Some content ->
  Z.of_nat (length content) = File.length f ->
  File.length f < 2 ^ 32 ->
  1 <= count -> 0 <= File.position f ->
  File.position f + count <= File.length f ->
  crud_write fd (Some src) count st = (r, st') ->
  r <> -1 ->
  let content' :=
    take (Z.to_nat (File.position f)) content ++ bytes_of src 0 count ++
    drop (Z.to_nat (File.position f + count)) content in
  r = count /\
  crud_file_table st' =
    set_file (crud_file_table st) fd
      (File.mk (File.filename f) (File.object_id f)
         (File.position f + count) (File.length f) (File.open f)) /\
  objects (world st') = <[File.object_id f := content']> (objects (world st)) /\
  length content' = length content.
Proof.
  intros Hfd Hf Hopen Hobj Hoid Hcontent Hlen Hsmall Hcount Hpos Hend Hwrite Hr
    content'.
  destruct (write_in_place objects Hproto Hstore st st' fd count r src f content
              Hfd Hf Hopen Hobj Hoid Hcontent Hlen Hcount Hpos ltac:(lia)
              Hwrite Hr)
    as (-> & w & log & -> & Hobjects).
  split; [reflexivity |]. split; [reflexivity |]. split; [exact Hobjects |].
  subst content'.
  rewrite !length_app, length_take, length_drop, length_bytes_of. lia.
Qed.

(** X2.  A write that starts inside the file and ends past its end (lines
    540-583), within the size of an object, and does not fail: the file
    keeps its bytes before the position, and the bytes written follow;
    length and position both become [position + count]; the old object is
    deleted and a new one created, and no other object of the store
    changes. *)
Theorem extending_write_replaces_object (st st' : state) (fd count r : Z)
    (src : buffer) (f : CrudFileAllocationType) (content : list Z) :
  0 <= fd <= CRUD_MAX_TOTAL_FILES - 1 ->
  crud_file_table st !! Z.to_nat fd = Some f ->
  File.open f <> 0 ->
  File.object_id f <> CRUD_NO_OBJECT ->
  0 <= File.object_id f < 2 ^ 32 ->
  objects (world st) !! File.object_id f = Some content ->
  Z.of_nat (length content) = File.length f ->
  1 <= count -> 0 <= File.position f <= File.length f ->
  File.length f < File.position f + count <= CRUD_MAX_OBJECT_SIZE ->
  crud_write fd (Some src) count st = (r, st') ->
  r <> -1 ->
  r = count /\
  exists f',
    crud_file_table st' !! Z.to_nat fd = Some f' /\
    File.length f' = File.position f + count /\
    File.position f' = File.position f + count /\
    objects (world st') !! File.object_id f' =
      Some (take (Z.to_nat (File.position f)) content ++ bytes_of src 0 count) /\
    (File.object_id f' <> File.object_id f ->
     objects (world st') !! File.object_id f = None) /\
    (forall o, o <> File.object_id f -> o <> File.object_id f' ->
       objects (world st') !! o = objects (world st) !! o).
Proof.
  intros Hfd Hf Hopen Hobj Hoid Hcontent Hlen Hcount Hpos Hend Hwrite Hr.
  destruct (write_grow objects Hproto Hstore st st' fd count r src f content
              Hfd Hf Hopen Hobj Hoid Hcontent Hlen Hcount Hpos Hend Hwrite Hr)
    as (-> & oid & w & log & -> & _ & _ & Hobjects).
  split; [reflexivity |].
  eexists. split; [eapply lookup_set_file; eassumption |].
  cbn [File.length File.position File.object_id world].
  split; [reflexivity |]. split; [reflexivity |].
  rewrite Hobjects. split; [apply lookup_insert_eq |]. split.
  - intros Hne. rewrite lookup_insert_ne by congruence. apply lookup_delete_eq.
  - intros o Hold Hnew.
    rewrite lookup_insert_ne by congruence. apply lookup_delete_ne. congruence.
Qed.

(** X3.  Two writes in a row to a file that had no object, the second
    starting where the first ended, of [a] and [b] bytes with
    [a + b <= CRUD_MAX_OBJECT_SIZE]: when neither fails, and the store did
    not give the object the identifier [CRUD_NO_OBJECT], the file holds the
    bytes of the first write followed by those of the second, and length
    and position are the sum of the two counts. *)
Theorem sequential_writes_concatenate (st st1 st2 : state)
    (fd a b r1 r2 : Z) (srcA srcB : buffer) (f f1 : CrudFileAllocationType) :
  0 <= fd <= CRUD_MAX_TOTAL_FILES - 1 ->
  crud_file_table st !! Z.to_nat fd = Some f ->
  File.open f <> 0 ->
  File.object_id f = CRUD_NO_OBJECT ->
  1 <= a -> 1 <= b -> a + b <= CRUD_MAX_OBJECT_SIZE ->
  crud_write fd (Some srcA) a st = (r1, st1) ->
  r1 <> -1 ->
  crud_file_table st1 !! Z.to_nat fd = Some f1 ->
  File.object_id f1 <> CRUD_NO_OBJECT ->
  crud_write fd (Some srcB) b st1 = (r2, st2) ->
  r2 <> -1 ->
  r1 = a /\ r2 = b /\
  exists f2,
    crud_file_table st2 !! Z.to_nat fd = Some f2 /\
    File.length f2 = a + b /\ File.position f2 = a + b /\
    objects (world st2) !! File.object_id f2 =
      Some (bytes_of srcA 0 a ++ bytes_of srcB 0 b).
Proof.
  intros Hfd Hf Hopen Hno Ha Hb Hsum Hw1 Hr1 Hf1 Hid1 Hw2 Hr2.
  destruct (write_create objects Hproto Hstore st st1 fd a r1 srcA f Hfd Hf Hopen
              Hno ltac:(lia) Hw1 Hr1)
    as (-> & oid & response & w & Hst1 & Hoid & _ & Hobjects).
  assert (Hentry : f1 = File.mk (File.filename f) oid a a (File.open f)).
  { rewrite Hst1 in Hf1. cbn [crud_file_table] in Hf1.
    rewrite (lookup_set_file _ _ _ _ Hf) in Hf1. congruence. }
  assert (Hworld : objects (world st1) !! oid = Some (bytes_of srcA 0 a)).
  { rewrite Hst1. cbn [world]. rewrite Hobjects. apply lookup_insert_eq. }
  subst f1. cbn [File.object_id] in Hid1.
  destruct (write_grow objects Hproto Hstore st1 st2 fd b r2 srcB _
              (bytes_of srcA 0 a) Hfd Hf1 Hopen Hid1 Hoid Hworld)
    as (-> & oid2 & w2 & log2 & -> & _ & _ & Hobjects2);
    cbn [File.length File.position]; try lia; try assumption.
  { rewrite length_bytes_of. lia. }
  split; [reflexivity |]. split; [reflexivity |].
  eexists. split; [eapply lookup_set_file; eassumption |].
  cbn [File.length File.position File.object_id world].
  split; [reflexivity |]. split; [reflexivity |].
  rewrite Hobjects2, lookup_insert_eq. do 2 f_equal.
  apply firstn_all2. rewrite length_bytes_of. cbn [File.position]. lia.
Qed.

(** X4.  In every run of file calls from the start of the program in
    which every path opened fits in the name of an entry with its
    terminator, every write stays within the size of an object and no
    read or write is refused by the store: each entry that has content refers to an object of the store
    that holds exactly [length] bytes, and two entries that have content
    never refer to the same object. *)
Theorem files_own_their_objects (w0 : World) (st : state) (i j : nat)
    (f g : CrudFileAllocationType) :
  steady w0 st ->
  crud_file_table st !! i = Some f ->
  crud_file_table st !! j = Some g ->
  File.length f <> 0 ->
  (exists content,
     objects (world st) !! File.object_id f = Some content /\
     Z.of_nat (length content) = File.length f) /\
  (i <> j -> File.length g <> 0 -> File.object_id f <> File.object_id g).
Proof.
  intros Hsteady Hf Hg Hlen.
  destruct (steady_table_inv objects Hproto Hstore w0 st Hsteady)
    as (Hbacked & Hdistinct & _).
  split.
  - destruct (Hbacked i f Hf) as (_ & _ & _ & _ & Hcontent). auto.
  - intros Hij Hg0. exact (Hdistinct i j f g Hij Hf Hg Hlen Hg0).
Qed.

(** The bytes a buffer holds when its first [n] cells are the cells of
    [content] from [a] on. *)
Lemma bytes_of_slice (b : buffer) (content : list Z) (a n : Z) :
  0 <= a -> 0 <= n -> a + n <= Z.of_nat (length content) ->
  (forall k, 0 <= k < n -> b k = nth (Z.to_nat (a + k)) content 0) ->
  bytes_of b 0 n = take (Z.to_nat n) (drop (Z.to_nat a) content).
Proof.
  intros Ha Hn Hfit Hb.
  rewrite <- (bytes_of_content (fun k => nth (Z.to_nat k) content 0) content a n)
    by (auto; lia).
  unfold bytes_of.
  replace (seqZ a n) with (Z.add a <$> seqZ 0 n)
    by (rewrite fmap_add_seqZ; f_equal; lia).
  rewrite <- list_fmap_compose. apply list_eq. intros i.
  rewrite !list_lookup_fmap.
  destruct (seqZ 0 n !! i) as [k |] eqn:Hk; [| reflexivity].
  apply lookup_seqZ in Hk. cbn. f_equal. apply Hb. lia.
Qed.

(** X5.  Random access: after [crud_seek] to [loc] within the file, a
    [crud_read] of [count >= 1] bytes that does not fail returns
    [min count (length - loc)] and fills the buffer with that many bytes of
    the object from offset [loc] on; the seek returns 0, and the read
    leaves the objects of the store as they were. *)
Theorem seek_then_read (st st' : state) (fd loc count r : Z) (dst : buffer)
    (res : option buffer) (f : CrudFileAllocationType) (content : list Z) :
  0 <= fd <= CRUD_MAX_TOTAL_FILES - 1 ->
  crud_file_table st !! Z.to_nat fd = Some f ->
  File.open f <> 0 ->
  0 <= File.object_id f < 2 ^ 32 ->
  objects (world st) !! File.object_id f = Some content ->
  Z.of_nat (length content) = File.length f ->
  File.length f <> 0 ->
  0 <= loc <= File.length f -> 1 <= count ->
  crud_read fd (Some dst) count (snd (crud_seek fd loc st)) = ((r, res), st') ->
  r <> -1 ->
  fst (crud_seek fd loc st) = 0 /\
  r = Z.min count (File.length f - loc) /\
  (exists filled,
     res = Some filled /\
     bytes_of filled 0 r = take (Z.to_nat r) (drop (Z.to_nat loc) content)) /\
  objects (world st') = objects (world st).
Proof.
  intros Hfd Hf Hopen Hoid Hcontent Hlen Hdata Hloc Hcount Hread Hr.
  destruct (crud_seek_cases st fd loc f Hfd Hf Hopen) as [Hseek _].
  rewrite (Hseek Hloc) in Hread |- *. cbn [fst snd] in Hread |- *.
  split; [reflexivity |].
  set (f1 := File.mk (File.filename f) (File.object_id f) loc (File.length f)
               (File.open f)) in *.
  set (st1 := set_table st (set_file (crud_file_table st) fd f1)) in *.
  assert (Hf1 : crud_file_table st1 !! Z.to_nat fd = Some f1)
    by (eapply lookup_set_file; eassumption).
  destruct (crud_client_operation (world st1)
              (create_crud_request (File.object_id f1) CRUD_READ
                 CRUD_MAX_OBJECT_SIZE 0 0)
              (Some (malloc CRUD_MAX_OBJECT_SIZE)))
    as [[response tempBuf] w] eqn:Hexchange.
  destruct (Z.eq_dec (f_result (extract_crud_response response)) 0)
    as [Hresult | Hresult].
  2:{ pose proof (crud_read_refused st1 fd count dst f1 Hfd Hf1 Hopen
                    ltac:(cbn; lia) ltac:(lia) _ _ _ Hexchange Hresult) as Hfail.
      rewrite Hread in Hfail. cbn in Hfail. contradiction. }
  destruct (crud_read_cases st1 fd count dst f1 Hfd Hf1 Hopen) as [_ Hcases].
  destruct (Hcases ltac:(cbn; lia) ltac:(lia) _ _ _ Hexchange Hresult)
    as (filled & Heq & _ & _ & Hbytes).
  rewrite Heq in Hread. injection Hread as <- <- <-.
  destruct (Hbytes objects Hproto Hstore ltac:(cbn; lia) ltac:(cbn; lia))
    as (content1 & Hlook & Hlength & Hfilled).
  change (world st1) with (world st) in Hlook, Hexchange.
  cbn [File.object_id File.position f1] in Hlook, Hfilled, Hlength, Hexchange |- *.
  rewrite Hcontent in Hlook. injection Hlook as <-.
  rewrite Hlength, Hlen in *.
  replace (Z.max 0 (Z.min count (File.length f - loc)))
    with (Z.min count (File.length f - loc)) in * by lia.
  split; [reflexivity |]. split.
  - exists filled. split; [reflexivity |].
    apply bytes_of_slice; [lia | lia | lia | exact Hfilled].
  - cbn [world].
    destruct (protocol_ok_read Hproto) as [Hrd Hmax].
    destruct (read_ok _ Hstore _ _ _ _ _ _ Hexchange)
      as (c & b' & _ & _ & _ & _ & _ & Hsame).
    + rewrite codec_fields by lia. reflexivity.
    + rewrite codec_fields by lia. reflexivity.
    + exact Hresult.
    + exact Hsame.
Qed.

End FurtherWrites.

(** ** Opening, closing and the table *)

Section FurtherTable.
Context `{CrudProtocol} `{CrudFileTable} `{CrudClient}.

(** Once the store is initialised, [crud_open] takes the last entry that
    passes the comparison of line 305. *)
Lemma crud_open_last_match (path : string) (st : state) (j : Z) :
  CRUD_MAX_TOTAL_FILES <= 2 ^ 15 ->
  INITIALIZED st <> 0 ->
  in_table j ->
  passes_name_test path (file_at (crud_file_table st) j) ->
  (forall k, j < k < CRUD_MAX_TOTAL_FILES ->
     ~ passes_name_test path (file_at (crud_file_table st) k)) ->
  crud_open path st =
  (j, set_table st
        (set_file (crud_file_table st) j
           (File.mk (File.filename (file_at (crud_file_table st) j))
              (File.object_id (file_at (crud_file_table st) j)) 0
              (File.length (file_at (crud_file_table st) j)) 1))).
Proof.
  intros Hmax Hinit Hj Hpass Hlast.
  destruct (init_store_cases st) as [[_ Hstore] | [Hzero _]]; [| contradiction].
  destruct (crud_open_cases path st) as [_ Hok].
  rewrite Hstore in Hok. cbn [fst snd] in Hok.
  destruct (Hok eq_refl)
    as [(i & Hi & Hpi & _ & Hli & Hopen) |
        [(Hnone & _) | (Hnone & _)]].
  - assert (i = j) as ->.
    { destruct (Z.lt_trichotomy i j) as [Hlt | [Heq | Hgt]]; [| assumption |].
      - destruct (Hli j); [unfold in_table in Hj; lia | assumption].
      - destruct (Hlast i); [unfold in_table in Hi; lia | assumption]. }
    rewrite int16_small in Hopen by (unfold in_table in Hj; lia).
    exact Hopen.
  - destruct (Hnone j Hj Hpass).
  - destruct (Hnone j Hj) as [Hnot _]. destruct (Hnot Hpass).
Qed.

(** X6.  What [crud_open] does with names (lines 301-319), the store
    being initialised: it takes the last entry whose name is not empty and
    starts with [path], whether or not the name is [path] itself; that
    entry is marked open with position 0, its name, object and length are
    kept, and its index is returned. *)
Theorem crud_open_prefix_match (path : string) (st : state) (j : Z) :
  CRUD_MAX_TOTAL_FILES <= 2 ^ 15 ->
  INITIALIZED st <> 0 ->
  in_table j ->
  File.filename (file_at (crud_file_table st) j) <> ""%string ->
  (exists rest,
     File.filename (file_at (crud_file_table st) j) = (path ++ rest)%string) ->
  (forall k rest, j < k < CRUD_MAX_TOTAL_FILES ->
     File.filename (file_at (crud_file_table st) k) <> ""%string ->
     File.filename (file_at (crud_file_table st) k) <> (path ++ rest)%string) ->
  crud_open path st =
  (j, set_table st
        (set_file (crud_file_table st) j
           (File.mk (File.filename (file_at (crud_file_table st) j))
              (File.object_id (file_at (crud_file_table st) j)) 0
              (File.length (file_at (crud_file_table st) j)) 1))).
Proof.
  intros Hmax Hinit Hj Hname Hprefix Hlast.
  apply crud_open_last_match; try assumption.
  - split; assumption.
  - intros k Hk [Hne [rest Hrest]]. exact (Hlast k rest Hk Hne Hrest).
Qed.

Lemma file_at_set_file_other (table : list CrudFileAllocationType) (i k : Z)
    (f : CrudFileAllocationType) :
  0 <= i -> 0 <= k -> k <> i -> file_at (set_file table i f) k = file_at table k.
Proof.
  intros Hi Hk Hne. unfold file_at, set_file.
  rewrite list_lookup_insert_ne by lia. reflexivity.
Qed.

(** X7.  Closing a file and opening it again by its name gives the same
    handle back, with the object and the length of the file kept and the
    position at 0, when no later entry of the table has a name that starts
    with the name of the file. *)
Theorem close_then_reopen (st : state) (fd : Z) (f : CrudFileAllocationType) :
  CRUD_MAX_TOTAL_FILES <= 2 ^ 15 ->
  0 <= fd <= CRUD_MAX_TOTAL_FILES - 1 ->
  crud_file_table st !! Z.to_nat fd = Some f ->
  File.open f <> 0 ->
  INITIALIZED st <> 0 ->
  File.filename f <> ""%string ->
  (forall k, fd < k < CRUD_MAX_TOTAL_FILES ->
     ~ passes_name_test (File.filename f) (file_at (crud_file_table st) k)) ->
  fst (crud_close fd st) = 0 /\
  crud_open (File.filename f) (snd (crud_close fd st)) =
  (fd, set_table st
         (set_file (crud_file_table st) fd
            (File.mk (File.filename f) (File.object_id f) 0 (File.length f) 1))).
Proof.
  intros Hmax Hfd Hf Hopen Hinit Hname Hlast.
  rewrite (crud_close_cases st fd f Hfd Hf Hopen). cbn [fst snd].
  split; [reflexivity |].
  set (closed := File.mk (File.filename f) (File.object_id f) (File.position f)
                   (File.length f) 0).
  assert (Hentry : file_at (set_file (crud_file_table st) fd closed) fd = closed)
    by (eapply file_at_set_file; eassumption).
  set (st1 := set_table st (set_file (crud_file_table st) fd closed)).
  assert (Htable : crud_file_table st1 =
                   set_file (crud_file_table st) fd closed) by reflexivity.
  rewrite (crud_open_last_match (File.filename f) st1 fd).
  - rewrite Htable, Hentry, set_file_twice. reflexivity.
  - assumption.
  - assumption.
  - unfold in_table. lia.
  - rewrite Htable, Hentry. split; [assumption |].
    exists ""%string. cbn [File.filename closed]. rewrite append_empty_r.
    reflexivity.
  - intros k Hk. rewrite Htable.
    rewrite file_at_set_file_other by lia. apply Hlast. assumption.
Qed.

(** X8.  No call clears the [INITIALIZED] flag: once it is set it stays
    set through any sequence of calls, [crud_unmount] included, so that no
    later call sends INIT again. *)
Theorem initialized_stays_set (calls : list call) (st : state) :
  INITIALIZED st <> 0 ->
  INITIALIZED (run calls st) <> 0 /\
  init_store (run calls st) = (true, run calls st).
Proof.
  intros Hinit.
  assert (Hrun : INITIALIZED (run calls st) <> 0).
  { revert st Hinit. induction calls as [| c calls IH]; intros st Hinit.
    - exact Hinit.
    - cbn [run fold_left]. apply IH.
      destruct (INITIALIZED_kept c st) as [Heq | Heq]; rewrite Heq;
        [assumption | discriminate]. }
  split; [exact Hrun |].
  destruct (init_store_cases (run calls st)) as [[_ Heq] | [Hzero _]];
    [exact Heq | contradiction].
Qed.

(** The loop of lines 142-149 over the first [k] entries. *)
Lemma wipe_table (e : CrudFileAllocationType)
    (table : list CrudFileAllocationType) (k : nat) :
  (k <= length table)%nat ->
  fold_left (fun table i => set_file table i e) (seqZ 0 (Z.of_nat k)) table =
  replicate k e ++ drop k table.
Proof.
  induction k as [| k IH]; intros Hk.
  - rewrite drop_0. reflexivity.
  - rewrite Nat2Z.inj_succ, <- Z.add_1_r, seqZ_app by lia.
    rewrite fold_left_app, IH by lia. cbn [seqZ fold_left].
    change (seqZ (0 + Z.of_nat k) 1) with [0 + Z.of_nat k].
    cbn [fold_left]. unfold set_file. rewrite Z.add_0_l, Nat2Z.id.
    destruct (lookup_lt_is_Some_2 table k ltac:(lia)) as [y Hy].
    rewrite (drop_S _ _ _ Hy).
    rewrite insert_app_r_alt by (rewrite length_replicate; lia).
    rewrite length_replicate, Nat.sub_diag. cbn [list_insert insert].
    rewrite replicate_S_end, <- app_assoc. reflexivity.
Qed.

(** Splits the goal along the tests and the exchanges of the code. *)
Ltac branches :=
  repeat
    (monad;
     match goal with
     | |- context [crud_client_operation ?w ?r ?b] =>
         destruct (crud_client_operation w r b) as [[? ?] ?] eqn:?
     | |- context [if ?b then _ else _] => destruct b eqn:?
     end).


(** X10.  [crud_format], [crud_mount] and [crud_unmount] return 0 or
    65535: their [return -1] goes through the return type [uint16_t], so
    that none of them ever returns a negative value. *)
Theorem mount_calls_return_uint16 (st : state) :
  (fst (crud_format st) = 0 \/ fst (crud_format st) = 65535) /\
  (fst (crud_mount st) = 0 \/ fst (crud_mount st) = 65535) /\
  (fst (crud_unmount st) = 0 \/ fst (crud_unmount st) = 65535).
Proof.
  assert (Hfail : uint16 (-1) = 65535) by reflexivity.
  split; [| split]; unfold crud_format, crud_mount, crud_unmount, init_store;
    branches; rewrite ?Hfail; auto.
Qed.

End FurtherTable.

(** ** The wire codec, from the word to the fields and back *)

(** X11.  Unpacking any 64-bit word and packing the five fields again
    gives the word back: the five fields cover the 64 bits, and
    [extract_crud_response] loses none of them. *)
Theorem unpack_pack_identity (w : Z) :
  0 <= w < 2 ^ 64 ->
  create_crud_request
    (f_object_id (extract_crud_response w))
    (f_request (extract_crud_response w))
    (f_length (extract_crud_response w))
    (f_flag (extract_crud_response w))
    (f_result (extract_crud_response w)) = w.
Proof.
  intros Hw.
  destruct (extract_crud_response_bounds w) as (Hid & Hreq & Hlen & Hflag & Hres).
  rewrite create_crud_request_sum by assumption.
  rewrite extract_crud_response_spec by assumption.
  cbn [f_object_id f_request f_length f_flag f_result].
  pose proof (Z.div_mod w 2 ltac:(lia)) as H1.
  pose proof (Z.div_mod (w / 2) (2 ^ 3) ltac:(lia)) as H2.
  pose proof (Z.div_mod (w / 2 ^ 4) (2 ^ 24) ltac:(lia)) as H3.
  pose proof (Z.div_mod (w / 2 ^ 28) (2 ^ 4) ltac:(lia)) as H4.
  rewrite Z.div_div in H2 by lia. change (2 * 2 ^ 3) with (2 ^ 4) in H2.
  rewrite Z.div_div in H3 by lia. change (2 ^ 4 * 2 ^ 24) with (2 ^ 28) in H3.
  rewrite Z.div_div in H4 by lia. change (2 ^ 28 * 2 ^ 4) with (2 ^ 32) in H4.
  lia.
Qed.

(** ** The client: connections and payloads *)

Section FurtherClient.
Context `{CrudProtocol}.

#[local] Arguments Client.htonll64 : simpl never.
#[local] Arguments Client.ntohll64 : simpl never.

Ltac client_step :=
  cbn [mbind option_bind negb Z.eqb Pos.eqb app Client.CONNECTED
       Client.socket_fd Client.pending Client.sent Client.syscall
       Client.set_connection Client.accept_bytes].

(** X12.  An operation on a client that is not connected first makes the
    connection (lines 55-76): when [inet_aton], [socket] and [connect]
    succeed, it then proceeds exactly as on a connected client whose
    socket is the one [socket] returned. *)
Theorem connects_then_exchanges (op : Z) (buf : option buffer)
    (fd0 r1 r2 r3 : Z) (d1 d2 d3 : list Z) (rest : list (Z * list Z))
    (out : list Z) :
  r1 <> 0 -> int32 r2 <> -1 -> int32 r3 <> -1 ->
  Client.crud_client_operation op buf
    (Client.mkNet 0 fd0 ((r1, d1) :: (r2, d2) :: (r3, d3) :: rest) out) =
  Client.crud_client_operation op buf (Client.mkNet 1 (int32 r2) rest out).
Proof.
  intros H1 H2 H3. unfold Client.crud_client_operation. client_step.
  replace (r1 =? 0) with false by lia. client_step.
  replace (int32 r2 =? -1) with false by lia. client_step.
  replace (int32 r3 =? -1) with false by lia. client_step.
  reflexivity.
Qed.

(** X13.  When the connection cannot be made ([inet_aton] returns 0, or
    [socket] or [connect] returns -1), the operation returns the error
    word, writes nothing to the socket, and leaves the client
    unconnected, so that the next operation tries to connect again. *)
Theorem connection_failure_sends_nothing (op : Z) (buf : option buffer)
    (fd0 : Z) (script : list (Z * list Z)) (out : list Z) :
  (exists d rest, script = (0, d) :: rest) \/
  (exists r1 d1 r2 d2 rest,
     script = (r1, d1) :: (r2, d2) :: rest /\ r1 <> 0 /\ int32 r2 = -1) \/
  (exists r1 d1 r2 d2 r3 d3 rest,
     script = (r1, d1) :: (r2, d2) :: (r3, d3) :: rest /\
     r1 <> 0 /\ int32 r2 <> -1 /\ int32 r3 = -1) ->
  exists net',
    Client.crud_client_operation op buf (Client.mkNet 0 fd0 script out) =
      Some (Client.ERROR_WORD, buf, net') /\
    Client.CONNECTED net' = 0 /\ Client.sent net' = out.
Proof.
  intros [(d & rest & ->) |
          [(r1 & d1 & r2 & d2 & rest & -> & H1 & H2) |
           (r1 & d1 & r2 & d2 & r3 & d3 & rest & -> & H1 & H2 & H3)]];
    unfold Client.crud_client_operation; client_step.
  - eexists. split; [reflexivity |]. split; reflexivity.
  - replace (r1 =? 0) with false by lia. client_step.
    replace (int32 r2 =? -1) with true by lia. client_step.
    eexists. split; [reflexivity |]. split; reflexivity.
  - replace (r1 =? 0) with false by lia. client_step.
    replace (int32 r2 =? -1) with false by lia. client_step.
    replace (int32 r3 =? -1) with true by lia. client_step.
    eexists. split; [reflexivity |]. split; reflexivity.
Qed.

Lemma take_htonll64 (op : Z) :
  take (Z.to_nat 8) (Client.htonll64 op) = Client.htonll64 op.
Proof.
  apply firstn_all2. unfold Client.htonll64.
  rewrite length_fmap, length_seqZ. lia.
Qed.

(** X14.  An exchange without payload over an established connection
    (the request is neither CREATE nor UPDATE, the response not READ), both
    words transferred whole: the operation returns the response word and
    leaves the buffer alone; it closes the socket and marks the client
    unconnected exactly when the response word carries the request code
    CLOSE, whatever request was sent and whatever the result bit says. *)
Theorem exchange_without_payload (op : Z) (buf : option buffer)
    (net : Client.Net) (d0 data : list Z) (rest : list (Z * list Z)) :
  Client.CONNECTED net <> 0 ->
  f_request (extract_crud_response op) <> CRUD_CREATE ->
  f_request (extract_crud_response op) <> CRUD_UPDATE ->
  Client.pending net = (8, d0) :: (8, data) :: rest ->
  f_request (extract_crud_response (Client.ntohll64 data)) <> CRUD_READ ->
  let closing :=
    f_request (extract_crud_response (Client.ntohll64 data)) =? CRUD_CLOSE in
  Client.crud_client_operation op buf net =
  Some (Client.ntohll64 data, buf,
        Client.mkNet (if closing then 0 else Client.CONNECTED net)
          (if closing then -1 else Client.socket_fd net) rest
          (Client.sent net ++ Client.htonll64 op)).
Proof.
  intros Hconn Hcreate Hupdate Hpending Hread closing.
  unfold Client.crud_client_operation.
  replace (Client.CONNECTED net =? 0) with false by lia. client_step.
  unfold Client.syscall. rewrite Hpending. client_step.
  rewrite !client_request_field, !client_length_field, take_htonll64.
  replace ((f_request (extract_crud_response op) =? CRUD_CREATE) ||
           (f_request (extract_crud_response op) =? CRUD_UPDATE)) with false
    by (symmetry; apply orb_false_iff; lia).
  client_step.
  rewrite ?client_request_field, ?client_length_field.
  replace (f_request (extract_crud_response (Client.ntohll64 data)) =? CRUD_READ)
    with false by lia.
  client_step. rewrite ?client_request_field. fold closing.
  destruct closing; reflexivity.
Qed.

Lemma bytes_of_store_bytes_before (dst : buffer) (off : Z) (data : list Z) (n : Z) :
  0 <= n <= off ->
  bytes_of (store_bytes dst off data) 0 n = bytes_of dst 0 n.
Proof.
  intros Hn. apply bytes_of_ext. intros k Hk. unfold store_bytes.
  replace ((off <=? k) && (k <? off + Z.of_nat (length data))) with false
    by (symmetry; apply andb_false_iff; lia).
  reflexivity.
Qed.

(** The pieces the [read] calls of a script deliver. *)
Definition delivered (calls : list (Z * list Z)) : list Z :=
  concat (map (fun c => take (Z.to_nat (fst c)) (snd c)) calls).

(** The loop of lines 119-122 when every [read] delivers some bytes. *)
Lemma receive_payload_pieces (len : Z) (calls rest : list (Z * list Z)) :
  forall (tempBuf : buffer) (bytesRead : Z) (net : Client.Net),
    0 <= bytesRead -> len < 2 ^ 31 ->
    Forall (fun c => 0 < fst c <= Z.of_nat (length (snd c))) calls ->
    bytesRead + sum_returns calls = len ->
    exists filled,
      Client.receive_payload tempBuf len bytesRead net (calls ++ rest) =
        Some (filled, len,
              Client.mkNet (Client.CONNECTED net) (Client.socket_fd net) rest
                (Client.sent net)) /\
      bytes_of filled 0 len = bytes_of tempBuf 0 bytesRead ++ delivered calls.
Proof.
  induction calls as [| [r data] calls IH];
    intros tempBuf bytesRead net Hbr Hlen Hpos Hsum.
  - cbn in Hsum. rewrite Z.add_0_r in Hsum. subst len.
    rewrite app_nil_l.
    assert (Htest : (uint32 bytesRead =? bytesRead) = true).
    { apply Z.eqb_eq. unfold uint32. apply Z.mod_small. lia. }
    exists tempBuf. unfold delivered. cbn [map concat]. rewrite app_nil_r.
    split; [| reflexivity].
    destruct rest; cbn [Client.receive_payload]; rewrite Htest; reflexivity.
  - apply Forall_cons in Hpos. destruct Hpos as [Hr Hpos]. cbn [fst snd] in Hr.
    cbn [sum_returns foldr fst] in Hsum. fold (sum_returns calls) in Hsum.
    assert (Hrest : 0 <= sum_returns calls).
    { clear -Hpos. unfold sum_returns.
      induction Hpos as [| c l Hc _ IHl]; cbn [foldr]; lia. }
    rewrite <- app_comm_cons. cbn [Client.receive_payload].
    replace (uint32 bytesRead =? len) with false
      by (symmetry; apply Z.eqb_neq; unfold uint32;
          rewrite Z.mod_small by lia; lia).
    rewrite int32_small by lia.
    destruct (IH (store_bytes tempBuf bytesRead (take (Z.to_nat r) data))
                (bytesRead + r) net ltac:(lia) Hlen Hpos ltac:(lia))
      as (filled & Heq & Hbytes).
    exists filled. split; [exact Heq |].
    rewrite Hbytes. unfold delivered. cbn [map concat fst snd].
    rewrite app_assoc. f_equal.
    rewrite bytes_of_app by lia.
    rewrite bytes_of_store_bytes_before by lia. f_equal.
    assert (Hpiece : Z.of_nat (length (take (Z.to_nat r) data)) = r)
      by (rewrite length_take; lia).
    rewrite <- Hpiece at 2. apply bytes_of_store_bytes.
Qed.

(** X15.  A READ whose payload arrives in pieces (lines 113-124): the
    [read] loop goes on until the [length] bytes the response word
    announces have come, and the caller's buffer then starts with exactly
    the bytes delivered, in order; the cells after them are not touched. *)
Theorem read_exchange_in_pieces (op : Z) (dst : buffer) (net : Client.Net)
    (d0 data : list Z) (calls rest : list (Z * list Z)) :
  Client.CONNECTED net <> 0 ->
  f_request (extract_crud_response op) <> CRUD_CREATE ->
  f_request (extract_crud_response op) <> CRUD_UPDATE ->
  Client.pending net = (8, d0) :: (8, data) :: calls ++ rest ->
  let response := Client.ntohll64 data in
  let len := f_length (extract_crud_response response) in
  f_request (extract_crud_response response) = CRUD_READ ->
  CRUD_READ <> CRUD_CLOSE ->
  Forall (fun c => 0 < fst c <= Z.of_nat (length (snd c))) calls ->
  sum_returns calls = len ->
  exists filled,
    Client.crud_client_operation op (Some dst) net =
    Some (response, Some filled,
          Client.mkNet (Client.CONNECTED net) (Client.socket_fd net) rest
            (Client.sent net ++ Client.htonll64 op)) /\
    bytes_of filled 0 len = delivered calls /\
    (forall k, len <= k -> filled k = dst k).
Proof.
  intros Hconn Hcreate Hupdate Hpending response len Hread Hclose Hpos Hsum.
  unfold Client.crud_client_operation.
  replace (Client.CONNECTED net =? 0) with false by lia. client_step.
  unfold Client.syscall. rewrite Hpending. client_step.
  rewrite !client_request_field, !client_length_field, take_htonll64.
  replace ((f_request (extract_crud_response op) =? CRUD_CREATE) ||
           (f_request (extract_crud_response op) =? CRUD_UPDATE)) with false
    by (symmetry; apply orb_false_iff; lia).
  client_step.
  rewrite ?client_request_field, ?client_length_field.
  fold response. fold len.
  replace (f_request (extract_crud_response response) =? CRUD_READ)
    with true by lia.
  client_step.
  pose proof (response_length_range response) as Hlen. fold len in Hlen.
  destruct (receive_payload_pieces len calls rest (malloc len) 0
              (Client.mkNet (Client.CONNECTED net) (Client.socket_fd net)
                 (calls ++ rest) (Client.sent net ++ Client.htonll64 op))
              ltac:(lia) ltac:(lia) Hpos ltac:(lia))
    as (tempBuf & Heq & Hbytes).
  rewrite Heq. client_step.
  rewrite ?client_request_field. fold response.
  replace (f_request (extract_crud_response response) =? CRUD_CLOSE)
    with false by lia.
  eexists. split; [reflexivity |]. split.
  - rewrite bytes_of_memcpy_whole. rewrite Hbytes.
    unfold bytes_of at 1. cbn [seqZ]. reflexivity.
  - intros k Hk. unfold memcpy.
    replace ((0 <=? k) && (k <? 0 + len)) with false
      by (symmetry; apply andb_false_iff; lia).
    reflexivity.
Qed.

End FurtherClient.

(** ** A READ that the store refuses *)

Section RefusedRead.
Context `{CrudProtocol} `{CrudFileTable} `{CrudClient}.

(** X16.  When the READ of [crud_read] comes back with result 1, the call
    returns -1 and leaves the caller's buffer alone, but the entry of the
    file has taken the object identifier and the length of that response
    (lines 413-416 unpack the response into the table before the result is
    tested).  After the error word of the client, which stands for a
    failure of the transport, the entry has object [2 ^ 32 - 1] and length
    [2 ^ 24 - 1]. *)
Theorem refused_read_overwrites_entry (st : state) (fd count : Z)
    (dst : buffer) (f : CrudFileAllocationType) (response : Z)
    (tempBuf : option buffer) (w : World) :
  0 <= fd <= CRUD_MAX_TOTAL_FILES - 1 ->
  crud_file_table st !! Z.to_nat fd = Some f ->
  File.open f <> 0 -> File.length f <> 0 -> 1 <= count ->
  let request :=
    create_crud_request (File.object_id f) CRUD_READ CRUD_MAX_OBJECT_SIZE 0 0 in
  crud_client_operation (world st) request (Some (malloc CRUD_MAX_OBJECT_SIZE)) =
    (response, tempBuf, w) ->
  f_result (extract_crud_response response) <> 0 ->
  crud_read fd (Some dst) count st =
    ((-1, Some dst),
     mkState
       (set_file (crud_file_table st) fd
          (File.mk (File.filename f)
             (f_object_id (extract_crud_response response)) (File.position f)
             (f_length (extract_crud_response response)) (File.open f)))
       (INITIALIZED st) w (wire st ++ [(request, response)])) /\
  (response = Client.ERROR_WORD ->
   crud_file_table (snd (crud_read fd (Some dst) count st)) !! Z.to_nat fd =
   Some (File.mk (File.filename f) (2 ^ 32 - 1) (File.position f)
           (2 ^ 24 - 1) (File.open f))).
Proof.
  intros Hfd Hf Hopen Hlen Hcount request Hexchange Hresult.
  pose proof (file_at_lookup _ _ _ Hf) as Hat.
  assert (Hread :
    crud_read fd (Some dst) count st =
    ((-1, Some dst),
     mkState
       (set_file (crud_file_table st) fd
          (File.mk (File.filename f)
             (f_object_id (extract_crud_response response)) (File.position f)
             (f_length (extract_crud_response response)) (File.open f)))
       (INITIALIZED st) w (wire st ++ [(request, response)]))).
  { unfold crud_read. monad.
    rewrite handle_in_range by assumption. rewrite Hat, open_test by assumption.
    replace (File.length f =? 0) with false by lia.
    replace (count <? 1) with false by lia.
    fold request. rewrite Hexchange. monad. rewrite Hat.
    replace (f_result (extract_crud_response response) =? 0) with false by lia.
    reflexivity. }
  split; [exact Hread |].
  intros ->. rewrite Hread. cbn [snd crud_file_table].
  rewrite (lookup_set_file _ _ _ _ Hf). do 2 f_equal.
  all: unfold Client.ERROR_WORD;
    rewrite extract_crud_response_spec by apply uint64_range;
    unfold uint64; reflexivity.
Qed.

End RefusedRead.

(** * The sample constants and the reference store, run

    The statements above are general.  Here they are applied with the sample
    constants over the reference store, and the code is evaluated on the
    inputs that separate it from the specification. *)

Lemma sample_protocol_ok : @protocol_ok sample_protocol.
Proof.
  split; cbn.
  - repeat constructor; lia.
  - apply (bool_decide_unpack _). vm_compute. exact I.
  - lia.
  - lia.
  - lia.
  - lia.
Qed.

Lemma sample_table_fits : @table_fits sample_table.
Proof. unfold table_fits. cbn. lia. Qed.

Module Scenario.

#[local] Existing Instance sample_protocol.
#[local] Existing Instance sample_table.
#[local] Existing Instance RefStore.client.

Import Sample.

Lemma opened_entry : crud_file_table opened !! 0%nat = Some fresh_entry.
Proof. vm_compute. reflexivity. Qed.

Lemma written_entry : crud_file_table written !! 0%nat = Some hello_entry.
Proof. vm_compute. reflexivity. Qed.

Lemma store_ok : faithful_store RefStore.objects.
Proof. exact (refstore_faithful sample_protocol_ok). Qed.

(** Finishes a goal that evaluation decides. *)
Ltac evaluated :=
  vm_compute; repeat split; try reflexivity; try discriminate.

(** ** The statements at work *)

Lemma triple_eta {A B C : Type} (x : A * B * C) :
  x = (fst (fst x), snd (fst x), snd x).
Proof. destruct x as [[a b] c]. reflexivity. Qed.

(** C1, witness: ["hello"] written to the fresh file ["a.txt"], the cursor
    set back to 0, five bytes read. *)
Lemma write_read_roundtrip_witness :
  fst (fst read_back) = 5 /\
  exists filled,
    snd (fst read_back) = Some filled /\ bytes_of filled 0 5 = greeting.
Proof.
  apply (write_read_roundtrip (H1 := RefStore.client) RefStore.objects
           sample_protocol_ok store_ok
           opened (snd hello_written) (snd hello_rewound) (snd read_back)
           0 (fst hello_written) (fst hello_rewound) (fst (fst read_back))
           greeting hello zeros (snd (fst read_back)) fresh_entry).
  - cbn. lia.
  - exact opened_entry.
  - cbn. lia.
  - reflexivity.
  - reflexivity.
  - reflexivity.
  - cbn. lia.
  - vm_compute. reflexivity.
  - apply surjective_pairing.
  - vm_compute. lia.
  - apply surjective_pairing.
  - vm_compute. reflexivity.
  - apply triple_eta.
  - vm_compute. lia.
Defined.

(** C5, witness: ["!!"] written at the end of the five bytes of
    ["a.txt"]. *)
Lemma growing_write_witness :
  fst appended = 2 /\
  (exists f',
     crud_file_table (snd appended) !! 0%nat = Some f' /\
     File.length f' = 5 + 2 /\
     File.position f' = 5 + 2 /\
     File.filename f' = "a.txt"%string /\
     File.open f' = 1 /\
     RefStore.objects (world (snd appended)) !! File.object_id f' =
       Some (greeting ++ bytes_of bangs 0 2)) /\
  (forall i, i <> 0%nat ->
     crud_file_table (snd appended) !! i = crud_file_table written !! i).
Proof.
  apply (growing_write (H1 := RefStore.client) RefStore.objects sample_protocol_ok store_ok
           written (snd appended) 0 2 (fst appended) bangs hello_entry
           greeting).
  - cbn. lia.
  - exact written_entry.
  - cbn. lia.
  - cbn. lia.
  - cbn. lia.
  - vm_compute. reflexivity.
  - reflexivity.
  - reflexivity.
  - lia.
  - cbn. lia.
  - apply surjective_pairing.
  - vm_compute. lia.
Defined.

(** C2, witness: ["a.txt"] opened, ["hello"] written, and a read into a
    null buffer, which fails validation. *)
Lemma cursor_invariant_witness :
  0 <= File.position hello_entry <= File.length hello_entry.
Proof.
  apply (cursor_invariant (H1 := RefStore.client) RefStore.objects
           sample_protocol_ok store_ok (RefStore.mk ∅ None [])
           (snd (exec (Read 0 None 3) written)) 0%nat hello_entry).
  - apply steady_step.
    + change written with
        (snd (exec (Write 0 (Some hello) 5)
                (snd (exec (Open "a.txt")
                        (initial_state (RefStore.mk ∅ None [])))))).
      apply steady_step.
      * apply steady_step.
        -- apply steady_start.
        -- exact I.
        -- vm_compute. reflexivity.
        -- exact I.
        -- exact I.
      * exact I.
      * exact I.
      * evaluated.
      * left. vm_compute. lia.
    + exact I.
    + exact I.
    + exact I.
    + right. right. reflexivity.
  - vm_compute. reflexivity.
Defined.

(** X17, witness: a seek past the end of the five bytes of ["a.txt"],
    and on the full table of two entries, ["ab"] and ["cd"], the open of
    ["zz"]. *)
Lemma validation_failure_atomic_witness :
  exec (Seek 0 100) written = ((-1, None), written) /\
  exec (H0 := tiny_table) (Open "zz") full_table = ((-1, None), full_table).
Proof.
  split.
  - apply (validation_failure_atomic (H1 := RefStore.client)
             (RefStore.mk ∅ None []) written (Seek 0 100)).
    + cbn. lia.
    + change written with
        (snd (exec (Write 0 (Some hello) 5)
                (snd (exec (Open "a.txt")
                        (initial_state (RefStore.mk ∅ None [])))))).
      apply reachable_step. apply reachable_step. apply reachable_start.
    + right. vm_compute. reflexivity.
  - apply (validation_failure_atomic (H0 := tiny_table)
             (H1 := RefStore.client) (RefStore.mk ∅ None []) full_table
             (Open "zz")).
    + cbn. lia.
    + change full_table with
        (snd (exec (H0 := tiny_table) (Open "cd")
           (snd (exec (H0 := tiny_table) (Write 0 (Some hello) 5)
              (snd (exec (H0 := tiny_table) (Open "ab")
                      (initial_state (H0 := tiny_table)
                         (RefStore.mk ∅ None [])))))))).
      apply reachable_step. apply reachable_step. apply reachable_step.
      apply reachable_start.
    + intros i Hi. unfold in_table in Hi. cbn in Hi.
      assert (Hcases : i = 0 \/ i = 1) by lia.
      destruct Hcases as [-> | ->]; split; intros Hp.
      * apply name_test_spec in Hp. vm_compute in Hp. discriminate Hp.
      * destruct Hp as [Hopen _]. vm_compute in Hopen. discriminate Hopen.
      * apply name_test_spec in Hp. vm_compute in Hp. discriminate Hp.
      * destruct Hp as [Hopen _]. vm_compute in Hopen. discriminate Hopen.
Defined.


(** The entries of a table from [n] on are zeroed when the table is [n]
    entries followed by zeroed ones. *)
Lemma file_at_beyond (table named_part : list CrudFileAllocationType)
    (m : nat) (k : Z) :
  table = named_part ++ replicate m zero_file ->
  Z.of_nat (length named_part) <= k ->
  file_at table k = zero_file.
Proof.
  intros -> Hk. unfold file_at.
  rewrite lookup_app_r by lia.
  destruct (replicate m zero_file !! _) as [f |] eqn:Hf; [| reflexivity].
  apply lookup_replicate in Hf. destruct Hf as [-> _]. reflexivity.
Qed.

Lemma two_named_table :
  crud_file_table two_named =
  [hello_entry; File.mk "b.txt" 0 0 0 1] ++ replicate 1022 zero_file.
Proof. vm_compute. reflexivity. Qed.

(** The entries of [two_named], by index. *)
Lemma two_named_entries (i : Z) :
  0 <= i ->
  (i = 0 /\ file_at (crud_file_table two_named) i = hello_entry) \/
  (i = 1 /\ file_at (crud_file_table two_named) i = File.mk "b.txt" 0 0 0 1) \/
  (2 <= i /\ file_at (crud_file_table two_named) i = zero_file).
Proof.
  intros Hi.
  destruct (Z.eq_dec i 0) as [-> | H0];
    [left; split; [reflexivity | vm_compute; reflexivity] |].
  destruct (Z.eq_dec i 1) as [-> | H1];
    [right; left; split; [reflexivity | vm_compute; reflexivity] |].
  right. right. split; [lia |].
  apply (file_at_beyond _ _ _ i two_named_table). cbn. lia.
Qed.

(** C3, witness: on the table with ["a.txt"] (five bytes written, cursor
    at 5) and ["b.txt"], opening ["a.txt"] again reuses entry 0 and sets its
    cursor back to 0, and opening ["c.txt"] claims entry 2, the first entry
    that is not in use. *)
Lemma crud_open_spec_witness :
  crud_open "a.txt" two_named =
  (0, set_table two_named
        (set_file (crud_file_table two_named) 0 (File.mk "a.txt" 1 0 5 1))) /\
  crud_open "c.txt" two_named =
  (2, set_table two_named
        (set_file (crud_file_table two_named) 2
           (File.mk "c.txt" CRUD_NO_OBJECT 0 0 1))).
Proof.
  assert (Hflag : (INITIALIZED two_named =? 0) = false)
    by (vm_compute; reflexivity).
  assert (Hset : INITIALIZED two_named <> 0) by (vm_compute; lia).
  set (X := crud_client_operation (world two_named)
              (create_crud_request 0 CRUD_INIT 0 0 0) None).
  split.
  - destruct (crud_open_spec "a.txt" two_named (fst (fst X)) (snd (fst X))
                (snd X)) as [_ Hopen].
    { cbn. lia. }
    { vm_compute. reflexivity. }
    { apply triple_eta. }
    rewrite Hflag in Hopen.
    destruct Hopen
      as [(j & Hj & [_ Hname] & _ & Heq) |
          [(Hnone & _) | (Hnone & _)]].
    + left. exact Hset.
    + intros i [Hi _] Hpass. apply name_test_spec in Hpass.
      destruct (two_named_entries i Hi) as [[_ Hf] | [[_ Hf] | [_ Hf]]];
        rewrite Hf in Hpass |- *.
      * reflexivity.
      * vm_compute in Hpass. discriminate Hpass.
      * vm_compute in Hpass. discriminate Hpass.
    + assert (j = 0) as ->.
      { destruct Hj as [Hj _].
        destruct (two_named_entries j Hj) as [[-> _] | [[_ Hf] | [_ Hf]]];
          [reflexivity | |]; rewrite Hf in Hname; cbn in Hname;
          discriminate Hname. }
      exact Heq.
    + exfalso. apply (Hnone 0); [unfold in_table; cbn; lia |].
      split; [vm_compute; discriminate | vm_compute; reflexivity].
    + exfalso. destruct (Hnone 0) as [Hno _]; [unfold in_table; cbn; lia |].
      apply Hno. split; [vm_compute; discriminate | vm_compute; reflexivity].
  - destruct (crud_open_spec "c.txt" two_named (fst (fst X)) (snd (fst X))
                (snd X)) as [_ Hopen].
    { cbn. lia. }
    { vm_compute. reflexivity. }
    { apply triple_eta. }
    rewrite Hflag in Hopen.
    destruct Hopen
      as [(j & [Hj _] & [_ Hname] & _) |
          [(_ & i & [Hi _] & Hunused & Hfirst & Heq) | (Hnone & _)]].
    + left. exact Hset.
    + intros i [Hi _] Hpass. apply name_test_spec in Hpass.
      destruct (two_named_entries i Hi) as [[_ Hf] | [[_ Hf] | [_ Hf]]];
        rewrite Hf in Hpass; vm_compute in Hpass; discriminate Hpass.
    + exfalso.
      destruct (two_named_entries j Hj) as [[_ Hf] | [[_ Hf] | [_ Hf]]];
        rewrite Hf in Hname; cbn in Hname; discriminate Hname.
    + assert (i = 2) as ->; [| exact Heq].
      destruct (two_named_entries i Hi) as [[_ Hf] | [[_ Hf] | [Hge _]]].
      * rewrite Hf in Hunused. destruct Hunused as [Hopen0 _].
        cbn in Hopen0. discriminate Hopen0.
      * rewrite Hf in Hunused. destruct Hunused as [Hopen0 _].
        cbn in Hopen0. discriminate Hopen0.
      * destruct (Z.eq_dec i 2) as [| Hne]; [assumption |].
        destruct (Hfirst 2); [lia |].
        rewrite (file_at_beyond _ _ _ 2 two_named_table) by (cbn; lia).
        split; reflexivity.
    + exfalso. destruct (Hnone 2) as [_ Hused]; [unfold in_table; cbn; lia |].
      apply Hused.
      rewrite (file_at_beyond _ _ _ 2 two_named_table) by (cbn; lia).
      split; reflexivity.
Defined.

(** C4, witness: a read of 100 bytes with the cursor at 2 of the five
    bytes of ["a.txt"] returns the three that remain. *)
Lemma crud_read_postcondition_witness :
  exists dst',
    fst (crud_read 0 (Some zeros) 100 midway) = (3, Some dst') /\
    bytes_of dst' 0 3 = [108; 108; 111].
Proof.
  destruct (crud_read_postcondition midway 0 100 zeros
              (File.mk "a.txt" 1 2 5 1)) as [_ Hread].
  { cbn. lia. }
  { vm_compute. reflexivity. }
  { cbn. lia. }
  set (X := crud_client_operation (world midway)
              (create_crud_request 1 CRUD_READ CRUD_MAX_OBJECT_SIZE 0 0)
              (Some (malloc CRUD_MAX_OBJECT_SIZE))).
  destruct (Hread ltac:(cbn; lia) ltac:(lia)
              (fst (fst X)) (snd (fst X)) (snd X))
    as (dst' & Heq & Hin & _).
  { apply triple_eta. }
  { vm_compute. reflexivity. }
  exists dst'. rewrite Heq. cbn [fst]. split.
  - apply (f_equal (fun n => (n, Some dst'))). vm_compute. reflexivity.
  - change (bytes_of dst' 0 3) with [dst' 0; dst' 1; dst' 2].
    pose proof (Hin 0 ltac:(evaluated)) as H0.
    pose proof (Hin 1 ltac:(evaluated)) as H1.
    pose proof (Hin 2 ltac:(evaluated)) as H2.
    rewrite H0, H1, H2. vm_compute. reflexivity.
Defined.

(** X18, witness: a [write] of the request word that accepts three
    bytes; a CREATE of four bytes whose payload goes out in two [write]
    calls, of one byte and of three, and whose response arrives cut to five
    bytes; and the send loop on those two [write] calls. *)
Lemma transport_failure_semantics_witness :
  Client.crud_client_operation 0 None (Client.mkNet 1 3 [(3, [])] []) =
    Some (Client.ERROR_WORD, None,
          Client.mkNet 1 3 [] (take 3 (Client.htonll64 0))) /\
  (exists net',
     Client.crud_client_operation create_four (Some hello)
       (Client.mkNet 1 3 [(8, []); (1, []); (3, []); (5, [])] []) =
       Some (Client.ERROR_WORD, Some hello, net') /\
     Client.pending net' = [] /\
     Client.sent net' = Client.htonll64 create_four ++ [104; 101; 108; 108]) /\
  Client.send_payload hello 4 0 (Client.mkNet 1 3 [] [])
    [(1, []); (3, []); (8, [])] =
    Some (4, Client.mkNet 1 3 [(8, [])] [104; 101; 108; 108]).
Proof.
  destruct transport_failure_semantics as (Hrequest & Hresponse & _ & Hloop).
  split; [| split].
  - apply (Hrequest 0 None (Client.mkNet 1 3 [(3, [])] []) 3 [] []).
    + cbn. lia.
    + reflexivity.
    + lia.
  - destruct (Hresponse create_four (Some hello)
                (Client.mkNet 1 3 [(8, []); (1, []); (3, []); (5, [])] [])
                [] [(1, []); (3, [])] 5 [] [] hello)
      as (net' & Heq & Hpending & Hsent).
    + cbn. lia.
    + left. split; [left; vm_compute; reflexivity |].
      split; [reflexivity |].
      split; [| vm_compute; reflexivity].
      repeat constructor.
    + reflexivity.
    + lia.
    + exists net'. split; [exact Heq |]. split; [exact Hpending |].
      rewrite Hsent. vm_compute. reflexivity.
  - apply (Hloop hello 4 [(1, []); (3, [])] [(8, [])]
             (Client.mkNet 1 3 [] [])).
    + lia.
    + repeat constructor.
    + reflexivity.
Defined.

(** ** Where the code and the specification part *)

Lemma overwritten_entry : crud_file_table overwritten !! 0%nat = Some short_entry.
Proof. vm_compute. reflexivity. Qed.

(** C1, counterexample: a write of [oversize] bytes to the fresh file
    ["a.txt"], a seek to 0 and a read of [oversize] bytes all succeed over
    the reference store, and the read returns 5. *)
Lemma roundtrip_oversize_counterexample :
  crud_file_table opened !! 0%nat = Some fresh_entry /\
  returned (Write 0 (Some hello) oversize) opened = oversize /\
  returned (Seek 0 0) overwritten = 0 /\
  returned (Read 0 (Some zeros) oversize) overwritten_rewound = 5 /\
  5 < oversize.
Proof.
  split; [exact opened_entry |].
  split; [vm_compute; reflexivity |].
  split; [vm_compute; reflexivity |].
  split; [| vm_compute; reflexivity].
  unfold returned. cbn [exec].
  destruct (crud_read_cases overwritten_rewound 0 oversize zeros
              (File.mk "a.txt" 1 0 5 1)) as [_ Hread].
  { cbn. lia. }
  { vm_compute. reflexivity. }
  { cbn. lia. }
  set (X := crud_client_operation (world overwritten_rewound)
              (create_crud_request 1 CRUD_READ CRUD_MAX_OBJECT_SIZE 0 0)
              (Some (malloc CRUD_MAX_OBJECT_SIZE))).
  destruct (Hread ltac:(cbn; lia) ltac:(vm_compute; discriminate)
              (fst (fst X)) (snd (fst X)) (snd X))
    as (dst' & Heq & _).
  { apply triple_eta. }
  { vm_compute. reflexivity. }
  rewrite Heq. cbn [fst]. vm_compute. reflexivity.
Qed.

(** C2, counterexample.  The open and the oversize write both succeed,
    and leave the cursor of ["a.txt"] past its length.  And with writes of
    ordinary size: the store refuses the DELETE of the second write, which
    returns -1 with the length of the entry set to the 0 of the refusing
    response; the close that follows succeeds, and leaves position 5 and
    length 0.  And with a read: a store refuses the READ with a response
    whose length field is 0; the read returns -1, the close that follows
    succeeds, and leaves position 5 and length 0. *)
Lemma cursor_counterexample :
  (returned (Open "a.txt") (start []) = 0 /\
   returned (Write 0 (Some hello) oversize) opened = oversize /\
   crud_file_table overwritten !! 0%nat = Some short_entry /\
   File.length short_entry < File.position short_entry) /\
  (returned (Open "a.txt") (start [false; false; false; true]) = 0 /\
   returned (Write 0 (Some hello) 5)
     (run [Open "a.txt"] (start [false; false; false; true])) = 5 /\
   returned (Write 0 (Some bangs) 2) before_refusal = -1 /\
   returned (Close 0) after_refusal = 0 /\
   File.position <$> crud_file_table closed_after_refusal !! 0%nat = Some 5 /\
   File.length <$> crud_file_table closed_after_refusal !! 0%nat = Some 0) /\
  (returned (H1 := answering) (Open "a.txt")
     (initial_state (H1 := answering) answers) = 0 /\
   returned (H1 := answering) (Write 0 (Some hello) 5)
     (run (H1 := answering) [Open "a.txt"]
        (initial_state (H1 := answering) answers)) = 5 /\
   returned (H1 := answering) (Read 0 (Some zeros) 3) before_refused_read
     = -1 /\
   returned (H1 := answering) (Close 0) after_refused_read = 0 /\
   File.position <$> crud_file_table closed_after_refused_read !! 0%nat
     = Some 5 /\
   File.length <$> crud_file_table closed_after_refused_read !! 0%nat
     = Some 0).
Proof.
  split; [| split].
  - split; [vm_compute; reflexivity |].
    split; [vm_compute; reflexivity |].
    split; [exact overwritten_entry |].
    vm_compute. reflexivity.
  - split; [vm_compute; reflexivity |].
    split; [vm_compute; reflexivity |].
    split; [vm_compute; reflexivity |].
    split; [vm_compute; reflexivity |].
    split; vm_compute; reflexivity.
  - split; [vm_compute; reflexivity |].
    split; [vm_compute; reflexivity |].
    split; [vm_compute; reflexivity |].
    split; [vm_compute; reflexivity |].
    split; vm_compute; reflexivity.
Qed.

(** C3, counterexample: when the store refuses the INIT, [crud_open]
    returns -1 on a table whose every entry is unused. *)
Lemma open_init_refused_counterexample :
  unused (file_at (crud_file_table (start [true])) 0) /\
  fst (crud_open "a.txt" (start [true])) = -1 /\
  crud_file_table (snd (crud_open "a.txt" (start [true]))) =
  crud_file_table (start [true]).
Proof.
  split; [split; reflexivity |].
  split; vm_compute; reflexivity.
Qed.

(** C5, counterexample: [2 ^ 28] bytes written at the end of the five
    bytes of ["a.txt"]: the write returns [2 ^ 28] and the length stays
    5. *)
Lemma growing_oversize_counterexample :
  crud_file_table written !! 0%nat = Some hello_entry /\
  RefStore.objects (world written) !! 1 = Some greeting /\
  fst overgrown = 2 ^ 28 /\
  File.length <$> crud_file_table (snd overgrown) !! 0%nat = Some 5 /\
  File.position <$> crud_file_table (snd overgrown) !! 0%nat = Some (5 + 2 ^ 28).
Proof.
  split; [exact written_entry |].
  split; [vm_compute; reflexivity |].
  split; [vm_compute; reflexivity |].
  split; vm_compute; reflexivity.
Qed.

(** The [write] calls of the payload accept one byte, then three; the
    exchange goes on and returns the response of the server, whose result
    bit is 0. *)
Lemma short_payload_write_continues :
  Client.crud_client_operation create_four (Some hello)
    (Client.mkNet 1 3
       [(8, []); (1, []); (3, []); (8, Client.htonll64 created_four)] []) =
  Some (created_four, Some hello,
        Client.mkNet 1 3 []
          (Client.htonll64 create_four ++ [104; 101; 108; 108])) /\
  f_result (extract_crud_response created_four) = 0.
Proof. split; vm_compute; reflexivity. Qed.

(** C7.  The table of two entries is full: ["ab"], with five bytes and
    its position at 5, and ["cd"], both open, none named ["a"].
    [crud_open "a"] does not return -1: the comparison of line 305 takes
    ["ab"] for the file, the call returns its handle 0 and sets its position
    back to 0. *)
Theorem full_table_open_divergence :
  crud_file_table full_table =
    [File.mk "ab" 1 5 5 1; File.mk "cd" CRUD_NO_OBJECT 0 0 1] /\
  fst (crud_open (H0 := tiny_table) "a" full_table) = 0 /\
  crud_file_table (snd (crud_open (H0 := tiny_table) "a" full_table)) =
    [File.mk "ab" 1 0 5 1; File.mk "cd" CRUD_NO_OBJECT 0 0 1].
Proof.
  split; [vm_compute; reflexivity |].
  split; vm_compute; reflexivity.
Qed.

(** C8.  A CREATE of four bytes over an established connection: the
    first [write] of the payload fails with -1, which line 98 adds to
    [bytesWritten]; the loop goes on, the second [write] starts one byte
    before [tempBuf] and accepts five bytes, and the exchange returns the
    response of the server, whose result bit is 0: five bytes of payload
    have gone out for a length of four, and no error is returned. *)
Theorem failed_payload_write_divergence :
  exists below,
    Client.crud_client_operation create_four (Some hello)
      (Client.mkNet 1 3
         [(8, []); (-1, []); (5, []); (8, Client.htonll64 created_four)] []) =
    Some (created_four, Some hello,
          Client.mkNet 1 3 []
            (Client.htonll64 create_four ++ below :: [104; 101; 108; 108])) /\
    f_length (extract_crud_response create_four) = 4 /\
    f_result (extract_crud_response created_four) = 0.
Proof.
  exists 0. split; [vm_compute; reflexivity |].
  split; vm_compute; reflexivity.
Qed.


(** C9.  On the table with the closed files ["a"] (entry 0) and ["ab"]
    (entry 1), [crud_open "a"] returns 1: it leaves entry 0 closed, and
    marks entry 1, the file ["ab"], open with its position set to 0. *)
Theorem reopen_prefix_divergence :
  crud_file_table two_files !! 0%nat = Some (File.mk "a" 0 0 0 0) /\
  crud_file_table two_files !! 1%nat = Some (File.mk "ab" 1 5 5 0) /\
  fst (crud_open "a" two_files) = 1 /\
  crud_file_table (snd (crud_open "a" two_files)) !! 0%nat =
    Some (File.mk "a" 0 0 0 0) /\
  crud_file_table (snd (crud_open "a" two_files)) !! 1%nat =
    Some (File.mk "ab" 1 0 5 1).
Proof.
  split; [vm_compute; reflexivity |].
  split; [vm_compute; reflexivity |].
  split; [vm_compute; reflexivity |].
  split; vm_compute; reflexivity.
Qed.

(** ** The further properties at work *)

Lemma midway_lookup : crud_file_table midway !! 0%nat = Some midway_entry.
Proof. vm_compute. reflexivity. Qed.

Lemma midway_object : RefStore.objects (world midway) !! 1 = Some greeting.
Proof. vm_compute. reflexivity. Qed.

(** X1, witness: ["!!"] written over the third and fourth byte of
    ["hello"]. *)
Lemma overwrite_in_place_witness :
  fst patched = 2 /\
  crud_file_table (snd patched) =
    set_file (crud_file_table midway) 0 (File.mk "a.txt" 1 (2 + 2) 5 1) /\
  RefStore.objects (world (snd patched)) =
    <[1 := take 2 greeting ++ bytes_of bangs 0 2 ++ drop 4 greeting]>
      (RefStore.objects (world midway)) /\
  length (take 2 greeting ++ bytes_of bangs 0 2 ++ drop 4 greeting) =
  length greeting.
Proof.
  apply (overwrite_in_place (H1 := RefStore.client) RefStore.objects
           sample_protocol_ok store_ok midway (snd patched) 0 2 (fst patched)
           bangs midway_entry greeting).
  - cbn. lia.
  - exact midway_lookup.
  - cbn. lia.
  - cbn. lia.
  - cbn. lia.
  - exact midway_object.
  - reflexivity.
  - cbn. lia.
  - lia.
  - cbn. lia.
  - cbn. lia.
  - apply surjective_pairing.
  - vm_compute. lia.
Defined.

(** X2, witness: ["hello"] written from the third byte of ["hello"]
    on. *)
Lemma extending_write_replaces_object_witness :
  fst extended = 5 /\
  exists f',
    crud_file_table (snd extended) !! 0%nat = Some f' /\
    File.length f' = 2 + 5 /\
    File.position f' = 2 + 5 /\
    RefStore.objects (world (snd extended)) !! File.object_id f' =
      Some (take 2 greeting ++ bytes_of hello 0 5) /\
    (File.object_id f' <> 1 ->
     RefStore.objects (world (snd extended)) !! 1 = None) /\
    (forall o, o <> 1 -> o <> File.object_id f' ->
       RefStore.objects (world (snd extended)) !! o =
       RefStore.objects (world midway) !! o).
Proof.
  apply (extending_write_replaces_object (H1 := RefStore.client)
           RefStore.objects sample_protocol_ok store_ok midway (snd extended)
           0 5 (fst extended) hello midway_entry greeting).
  - cbn. lia.
  - exact midway_lookup.
  - cbn. lia.
  - cbn. lia.
  - cbn. lia.
  - exact midway_object.
  - reflexivity.
  - lia.
  - cbn. lia.
  - cbn. lia.
  - apply surjective_pairing.
  - vm_compute. lia.
Defined.

(** X3, witness: ["hello"] then ["!!"] written to the fresh file
    ["a.txt"]. *)
Lemma sequential_writes_concatenate_witness :
  fst hello_written = 5 /\ fst hello_bangs = 2 /\
  exists f2,
    crud_file_table (snd hello_bangs) !! 0%nat = Some f2 /\
    File.length f2 = 5 + 2 /\ File.position f2 = 5 + 2 /\
    RefStore.objects (world (snd hello_bangs)) !! File.object_id f2 =
      Some (bytes_of hello 0 5 ++ bytes_of bangs 0 2).
Proof.
  apply (sequential_writes_concatenate (H1 := RefStore.client)
           RefStore.objects sample_protocol_ok store_ok opened
           (snd hello_written) (snd hello_bangs) 0 5 2 (fst hello_written)
           (fst hello_bangs) hello bangs fresh_entry hello_entry).
  - cbn. lia.
  - exact opened_entry.
  - cbn. lia.
  - reflexivity.
  - lia.
  - lia.
  - cbn. lia.
  - apply surjective_pairing.
  - vm_compute. lia.
  - vm_compute. reflexivity.
  - cbn. lia.
  - apply surjective_pairing.
  - vm_compute. lia.
Defined.

Lemma two_written_steady : steady (RefStore.mk ∅ None []) two_written.
Proof.
  change two_written with
    (snd (exec (Write 1 (Some bangs) 2)
       (snd (exec (Open "b.txt")
          (snd (exec (Write 0 (Some hello) 5)
             (snd (exec (Open "a.txt")
                     (initial_state (RefStore.mk ∅ None [])))))))))).
  apply steady_step.
  - apply steady_step.
    + apply steady_step.
      * apply steady_step.
        -- apply steady_start.
        -- exact I.
        -- vm_compute. reflexivity.
        -- exact I.
        -- exact I.
      * exact I.
      * exact I.
      * evaluated.
      * left. vm_compute. lia.
    + exact I.
    + vm_compute. reflexivity.
    + exact I.
    + exact I.
  - exact I.
  - exact I.
  - evaluated.
  - left. vm_compute. lia.
Qed.

(** X4, witness: ["hello"] in ["a.txt"] and ["!!"] in ["b.txt"]: each
    file has its own object, objects 1 and 2 of the store. *)
Lemma files_own_their_objects_witness :
  (exists content,
     RefStore.objects (world two_written) !! File.object_id hello_entry =
       Some content /\
     Z.of_nat (length content) = File.length hello_entry) /\
  File.object_id hello_entry <> File.object_id bangs_entry.
Proof.
  destruct (files_own_their_objects (H1 := RefStore.client) RefStore.objects
              sample_protocol_ok store_ok (RefStore.mk ∅ None []) two_written
              0%nat 1%nat hello_entry bangs_entry) as [Hcontent Hshare].
  - exact two_written_steady.
  - vm_compute. reflexivity.
  - vm_compute. reflexivity.
  - cbn. lia.
  - split; [exact Hcontent |]. apply Hshare; [lia | cbn; lia].
Defined.

(** X5, witness: a seek to 2 and a read of 100 bytes on the five bytes
    of ["a.txt"]. *)
Lemma seek_then_read_witness :
  fst (crud_seek 0 2 written) = 0 /\
  fst (fst sought) = Z.min 100 (5 - 2) /\
  (exists filled,
     snd (fst sought) = Some filled /\
     bytes_of filled 0 (fst (fst sought)) =
     take (Z.to_nat (fst (fst sought))) (drop (Z.to_nat 2) greeting)) /\
  RefStore.objects (world (snd sought)) = RefStore.objects (world written).
Proof.
  apply (seek_then_read (H1 := RefStore.client) RefStore.objects
           sample_protocol_ok store_ok written (snd sought) 0 2 100
           (fst (fst sought)) zeros (snd (fst sought)) hello_entry greeting).
  - cbn. lia.
  - exact written_entry.
  - cbn. lia.
  - cbn. lia.
  - vm_compute. reflexivity.
  - reflexivity.
  - cbn. lia.
  - cbn. lia.
  - lia.
  - apply triple_eta.
  - vm_compute. lia.
Defined.

(** The entries of a table from [n] on have no name when the table is
    [n] entries followed by zeroed ones. *)
Lemma unnamed_from (table named_part : list CrudFileAllocationType) (m : nat)
    (k : Z) :
  table = named_part ++ replicate m zero_file ->
  Z.of_nat (length named_part) <= k ->
  File.filename (file_at table k) = ""%string.
Proof.
  intros -> Hk. unfold file_at.
  rewrite lookup_app_r by lia.
  destruct (replicate m zero_file !! _) as [f |] eqn:Hf; [| reflexivity].
  apply lookup_replicate in Hf. destruct Hf as [-> _]. reflexivity.
Qed.

Lemma two_files_table :
  crud_file_table two_files =
  [File.mk "a" 0 0 0 0; File.mk "ab" 1 5 5 0] ++ replicate 1022 zero_file.
Proof. vm_compute. reflexivity. Qed.

(** X6, witness: on the table with the closed files ["a"] and ["ab"],
    [crud_open "a"] takes entry 1, the file ["ab"]. *)
Lemma crud_open_prefix_match_witness :
  crud_open "a" two_files =
  (1, set_table two_files
        (set_file (crud_file_table two_files) 1
           (File.mk (File.filename (file_at (crud_file_table two_files) 1))
              (File.object_id (file_at (crud_file_table two_files) 1)) 0
              (File.length (file_at (crud_file_table two_files) 1)) 1))).
Proof.
  apply (crud_open_prefix_match "a" two_files 1).
  - cbn. lia.
  - vm_compute. lia.
  - unfold in_table. cbn. lia.
  - vm_compute. discriminate.
  - exists "b"%string. vm_compute. reflexivity.
  - intros k rest Hk Hnamed.
    destruct Hnamed. apply (unnamed_from _ _ _ k two_files_table). cbn. lia.
Defined.

Lemma written_table :
  crud_file_table written = [hello_entry] ++ replicate 1023 zero_file.
Proof. vm_compute. reflexivity. Qed.

(** X7, witness: ["a.txt"] closed and opened again. *)
Lemma close_then_reopen_witness :
  fst (crud_close 0 written) = 0 /\
  crud_open (File.filename hello_entry) (snd (crud_close 0 written)) =
  (0, set_table written
        (set_file (crud_file_table written) 0
           (File.mk (File.filename hello_entry) (File.object_id hello_entry) 0
              (File.length hello_entry) 1))).
Proof.
  apply (close_then_reopen written 0 hello_entry).
  - cbn. lia.
  - cbn. lia.
  - exact written_entry.
  - cbn. lia.
  - vm_compute. lia.
  - cbn. discriminate.
  - intros k Hk [Hnamed _]. apply Hnamed.
    apply (unnamed_from _ _ _ k written_table). cbn. lia.
Defined.

(** X8, witness: after ["a.txt"] was opened, an unmount and another
    open. *)
Lemma initialized_stays_set_witness :
  INITIALIZED (run [Unmount; Open "b.txt"] opened) <> 0 /\
  init_store (run [Unmount; Open "b.txt"] opened) =
  (true, run [Unmount; Open "b.txt"] opened).
Proof.
  apply (initialized_stays_set [Unmount; Open "b.txt"] opened).
  vm_compute. lia.
Defined.

(** X11, witness: a word with bits set in every field. *)
Lemma unpack_pack_identity_witness :
  create_crud_request
    (f_object_id (extract_crud_response (2 ^ 64 - 12345)))
    (f_request (extract_crud_response (2 ^ 64 - 12345)))
    (f_length (extract_crud_response (2 ^ 64 - 12345)))
    (f_flag (extract_crud_response (2 ^ 64 - 12345)))
    (f_result (extract_crud_response (2 ^ 64 - 12345))) = 2 ^ 64 - 12345.
Proof. apply (unpack_pack_identity (2 ^ 64 - 12345)). lia. Defined.

(** X12, witness: [inet_aton] returns 1, [socket] 3 and [connect] 0. *)
Lemma connects_then_exchanges_witness :
  Client.crud_client_operation create_four (Some hello)
    (Client.mkNet 0 0 [(1, []); (3, []); (0, []); (8, []); (4, [])] []) =
  Client.crud_client_operation create_four (Some hello)
    (Client.mkNet 1 (int32 3) [(8, []); (4, [])] []).
Proof.
  apply (connects_then_exchanges create_four (Some hello) 0 1 3 0 [] [] []).
  - lia.
  - vm_compute. lia.
  - vm_compute. lia.
Defined.

(** X13, witness: [connect] returns -1. *)
Lemma connection_failure_sends_nothing_witness :
  exists net',
    Client.crud_client_operation create_four (Some hello)
      (Client.mkNet 0 0 [(1, []); (3, []); (-1, []); (8, [])] []) =
      Some (Client.ERROR_WORD, Some hello, net') /\
    Client.CONNECTED net' = 0 /\ Client.sent net' = [].
Proof.
  apply (connection_failure_sends_nothing create_four (Some hello) 0
           [(1, []); (3, []); (-1, []); (8, [])] []).
  right. right. exists 1, [], 3, [], (-1), [], [(8, [])].
  split; [reflexivity |]. split; [lia |].
  split; vm_compute; [lia | reflexivity].
Defined.

(** X14, witness: a CLOSE that the server answers with result 1 closes
    the connection all the same. *)
Lemma exchange_without_payload_witness :
  Client.crud_client_operation close_request None
    (Client.mkNet 1 3 [(8, []); (8, Client.htonll64 close_refused)] []) =
  Some (Client.ntohll64 (Client.htonll64 close_refused), None,
        Client.mkNet
          (if f_request
                (extract_crud_response
                   (Client.ntohll64 (Client.htonll64 close_refused)))
              =? CRUD_CLOSE then 0 else 1)
          (if f_request
                (extract_crud_response
                   (Client.ntohll64 (Client.htonll64 close_refused)))
              =? CRUD_CLOSE then -1 else 3) []
          ([] ++ Client.htonll64 close_request)).
Proof.
  apply (exchange_without_payload close_request None
           (Client.mkNet 1 3 [(8, []); (8, Client.htonll64 close_refused)] [])
           [] (Client.htonll64 close_refused) []).
  - cbn. lia.
  - vm_compute. lia.
  - vm_compute. lia.
  - reflexivity.
  - vm_compute. lia.
Defined.

(** X15, witness: the five bytes of ["hello"] arrive as two and then
    three. *)
Lemma read_exchange_in_pieces_witness :
  exists filled,
    Client.crud_client_operation read_request (Some zeros)
      (Client.mkNet 1 3
         ((8, []) :: (8, Client.htonll64 read_response) ::
          [(2, [104; 101]); (3, [108; 108; 111])] ++ []) []) =
    Some (Client.ntohll64 (Client.htonll64 read_response), Some filled,
          Client.mkNet 1 3 [] ([] ++ Client.htonll64 read_request)) /\
    bytes_of filled 0
      (f_length
         (extract_crud_response
            (Client.ntohll64 (Client.htonll64 read_response)))) =
    delivered [(2, [104; 101]); (3, [108; 108; 111])] /\
    (forall k,
       f_length
         (extract_crud_response
            (Client.ntohll64 (Client.htonll64 read_response))) <= k ->
       filled k = zeros k).
Proof.
  apply (read_exchange_in_pieces read_request zeros
           (Client.mkNet 1 3
              ((8, []) :: (8, Client.htonll64 read_response) ::
               [(2, [104; 101]); (3, [108; 108; 111])] ++ []) [])
           [] (Client.htonll64 read_response)
           [(2, [104; 101]); (3, [108; 108; 111])] []).
  - cbn. lia.
  - vm_compute. lia.
  - vm_compute. lia.
  - reflexivity.
  - vm_compute. reflexivity.
  - vm_compute. lia.
  - repeat constructor; cbn; lia.
  - vm_compute. reflexivity.
Defined.


(** X16, witness: the store refuses the READ with the length field of
    the request, and the five-byte file is left with that length. *)
Lemma refused_read_overwrites_entry_witness :
  File.length <$> crud_file_table refusing !! 0%nat = Some 5 /\
  fst (fst (crud_read 0 (Some zeros) 5 refusing)) = -1 /\
  File.length <$> crud_file_table (snd (crud_read 0 (Some zeros) 5 refusing))
                    !! 0%nat = Some (2 ^ 24 - 1).
Proof.
  split; [vm_compute; reflexivity |].
  destruct (refused_read_overwrites_entry refusing 0 5 zeros hello_entry
              (fst (fst refused_exchange)) (snd (fst refused_exchange))
              (snd refused_exchange)) as [Hread _].
  - cbn. lia.
  - vm_compute. reflexivity.
  - cbn. lia.
  - cbn. lia.
  - lia.
  - apply triple_eta.
  - vm_compute. lia.
  - rewrite Hread. cbn [fst snd crud_file_table].
    split; [reflexivity |]. vm_compute. reflexivity.
Defined.

End Scenario.
